(** * Augmentation-divide analysis scripts: streaming aggregator and placebo checks

    Shallow embedding of
    - [scripts/03_layer3_community_notes.py]: [_tweet_id_to_timestamp_ms],
      [compute_monthly_metrics], [summarize_pre_post];
    - [scripts/06_robustness_checks.py]: [_fit_segmented], [placebo_test],
      [pre_trend_test] and [run_robustness].

    Conventions.
    - A Python [int] is a [Z]; numpy's fixed-width casts are written out
      ([astype_uint64], [astype_int64]).
    - A float64 cell is a [Float]: [None] is NaN, [Some q] the number [q].
      Quotients and medians are exact rationals; binary rounding is not
      modelled.
    - Dictionaries that are only looked up are [gmap]s, sets are [gset]s.
      [lang_note_counts] is an association list in insertion order, because
      its iteration order reaches the language table.
    - Library routines whose result is not determined by the scripts
      (pandas' timestamp parser, scipy's rank test, statsmodels' OLS) are
      section variables.  The timestamp parser is applied to the cells of a
      whole chunk, as the script applies it: what a cell parses to may
      depend on the other cells of its chunk. *)

From Stdlib Require Import ZArith QArith String Ascii List Lia Lqa Permutation Sorted.
From stdpp Require Import gmap strings list fin_maps.

Local Open Scope Z_scope.

(** ** Frame helpers shared by both scripts *)

Module Frame.

Abbreviation Float := (option Q) (only parsing).
Definition nan : Float := None.

Definition notna (x : Float) : bool :=
  match x with Some _ => true | None => false end.

Definition Qlt_bool (x y : Q) : bool := negb (Qle_bool y x).

(** [x >= 0] and friends on a float cell: a comparison with NaN is false. *)
Definition fge0 (x : Float) : bool :=
  match x with Some q => Qle_bool 0 q | None => false end.

Definition fgt (x y : Float) : bool :=
  match x, y with Some a, Some b => Qlt_bool b a | _, _ => false end.

Definition fadd (x y : Float) : Float :=
  match x, y with Some a, Some b => Some (a + b)%Q | _, _ => None end.

Inductive Error : Set :=
  ValueError | KeyError | IndexError | TypeError | OverflowError.

Inductive result (A : Type) : Type :=
| Ok (a : A)
| Raise (e : Error).
Arguments Ok {A} a.
Arguments Raise {A} e.

Section Sorting.
Context {A : Type} (leb : A -> A -> bool).

(** Stable insertion sort: an element goes in front of the first element it
    is [leb] to, so rows with equal keys keep their incoming order. *)
Fixpoint insert_sorted (x : A) (l : list A) : list A :=
  match l with
  | [] => [x]
  | y :: l' => if leb x y then x :: y :: l' else y :: insert_sorted x l'
  end.

Definition sort_by (l : list A) : list A := foldr insert_sorted [] l.
End Sorting.

(** [Series.median()]: middle value, or the mean of the two middle values;
    NaN on an empty series. *)
Definition median (l : list Q) : Float :=
  let s := sort_by Qle_bool l in
  let n := length s in
  match n with
  | O => nan
  | _ =>
    if Nat.odd n then Some (nth (n / 2)%nat s 0%Q)
    else Some ((nth (n / 2 - 1)%nat s 0%Q + nth (n / 2)%nat s 0%Q) / 2)%Q
  end.

(** [Series.max()] with [skipna=True]: NaN when no number is left. *)
Definition fmax (l : list Float) : Float :=
  foldr (fun x acc =>
           match x, acc with
           | Some a, Some b => Some (if Qle_bool a b then b else a)
           | Some a, None => Some a
           | None, _ => acc
           end) None l.

Section Groups.
Context {K V : Type} `{EqDecision K}.

(** [Series.unique()]: distinct values in order of first appearance. *)
Fixpoint unique (l : list K) : list K :=
  match l with
  | [] => []
  | x :: l' => x :: filter (fun y => y <> x) (unique l')
  end.

Definition values_of (k : K) (l : list (K * V)) : list V :=
  (filter (fun p => p.1 = k) l).*2.

(** [groupby(key)[col]]: one group per distinct key, the group's values in
    row order.  Groups are listed by first appearance ([sort=False]); with
    [sort=True] pandas walks the same groups by ascending key, which the
    callers below do not observe (each group updates its own map entry). *)
Definition groupby (l : list (K * V)) : list (K * list V) :=
  (fun k => (k, values_of k l)) <$> unique l.*1.

Definition count_of (k : K) (l : list K) : Z :=
  Z.of_nat (length (filter (fun y => y = k) l)).

(** [Series.value_counts()]: distinct values with their counts, by
    descending count; equal counts stay in order of first appearance. *)
Definition value_counts (l : list K) : list (K * Z) :=
  sort_by (fun a b => b.2 <=? a.2) ((fun k => (k, count_of k l)) <$> unique l).

Fixpoint alookup {B : Type} (k : K) (l : list (K * B)) : option B :=
  match l with
  | [] => None
  | (k', b) :: l' => if decide (k' = k) then Some b else alookup k l'
  end.
End Groups.

(** The value a keyed entry ends with after the updates [f] of the values
    [bs], starting from the entry [o] ([None]: no entry yet). *)
Definition fold_opt {A B : Type} (f : option A -> B -> A) (o : option A)
    (bs : list B) : option A :=
  foldl (fun o b => Some (f o b)) o bs.

(** [read_csv(..., chunksize=n)]: the rows in consecutive blocks of [n],
    the last one possibly shorter. *)
Fixpoint chunks_fuel {A : Type} (fuel n : nat) (l : list A) : list (list A) :=
  match fuel with
  | O => []
  | S fuel' =>
    match l with
    | [] => []
    | _ :: _ => take n l :: chunks_fuel fuel' n (drop n l)
    end
  end.

Definition chunks {A : Type} (n : nat) (l : list A) : list (list A) :=
  chunks_fuel (length l) n l.


(** *** Facts about the frame helpers *)

Section SortingFacts.
Context {A : Type} (leb : A -> A -> bool).

Lemma insert_sorted_perm (x : A) (l : list A) : insert_sorted leb x l ≡ₚ x :: l.
Proof.
  induction l as [|y l IH]; simpl; [done|].
  destruct (leb x y); [done|].
  rewrite IH. apply perm_swap.
Qed.

Lemma sort_by_perm (l : list A) : sort_by leb l ≡ₚ l.
Proof.
  induction l as [|x l IH]; [done|].
  change (sort_by leb (x :: l)) with (insert_sorted leb x (sort_by leb l)).
  rewrite insert_sorted_perm. by f_equiv.
Qed.

(** With a total comparison the result is sorted. *)
Lemma insert_sorted_Sorted (x : A) (l : list A) :
  (forall a b, leb a b = false -> leb b a = true) ->
  Sorted (fun a b => leb a b = true) l ->
  Sorted (fun a b => leb a b = true) (insert_sorted leb x l).
Proof.
  intros Htot. induction 1 as [|y l Hs IH Hhd]; simpl.
  - repeat constructor.
  - destruct (leb x y) eqn:E.
    + constructor; [by constructor|by constructor].
    + constructor; [exact IH|].
      destruct l as [|z l]; simpl.
      * constructor. by apply Htot.
      * inversion Hhd; subst. destruct (leb x z); constructor; [by apply Htot|done].
Qed.

Lemma sort_by_Sorted (l : list A) :
  (forall a b, leb a b = false -> leb b a = true) ->
  Sorted (fun a b => leb a b = true) (sort_by leb l).
Proof.
  intros Htot. induction l as [|x l IH]; [constructor|].
  change (sort_by leb (x :: l)) with (insert_sorted leb x (sort_by leb l)).
  by apply insert_sorted_Sorted.
Qed.
End SortingFacts.

Lemma median_is_Some (l : list Q) : l <> [] -> is_Some (median l).
Proof.
  intros Hne. unfold median.
  pose proof (Permutation_length (sort_by_perm Qle_bool l)) as Hlen.
  destruct (sort_by Qle_bool l) as [|x s]; [by destruct l|].
  cbn [length]. by destruct (Nat.odd (S (length s))).
Qed.

Section GroupFacts.
Context {K V : Type} `{EqDecision K}.
Implicit Types (l : list K) (kv : list (K * V)).

Lemma elem_of_unique (x : K) l : x ∈ unique l <-> x ∈ l.
Proof.
  induction l as [|y l IH]; simpl; [done|].
  rewrite !elem_of_cons, list_elem_of_filter, IH.
  destruct (decide (x = y)); naive_solver.
Qed.

Lemma NoDup_unique l : NoDup (unique l).
Proof.
  induction l as [|y l IH]; simpl; [constructor|].
  constructor.
  - rewrite list_elem_of_filter. naive_solver.
  - by apply NoDup_filter.
Qed.

(** A keyed list built from distinct keys holds at most one entry per
    key. *)
Lemma filter_key_fmap_NoDup {B : Type} (c : K -> B) (k : K) l :
  NoDup l ->
  filter (fun p : K * B => p.1 = k) ((fun k' => (k', c k')) <$> l)
  = if decide (k ∈ l) then [(k, c k)] else [].
Proof.
  induction 1 as [|x l Hx Hnd IH]; [done|].
  rewrite fmap_cons, filter_cons. simpl.
  destruct (decide (x = k)) as [->|Hne]; rewrite IH; simpl;
    repeat case_decide; subst; try done;
    rewrite ?elem_of_cons in *; naive_solver.
Qed.

Lemma values_of_nil_iff (k : K) kv : values_of k kv = [] <-> k ∉ kv.*1.
Proof.
  unfold values_of. induction kv as [|[k' v] kv IH]; simpl.
  - split; [intros _; apply not_elem_of_nil|done].
  - rewrite filter_cons. simpl. rewrite not_elem_of_cons.
    destruct (decide (k' = k)) as [->|Hne]; simpl; [naive_solver|].
    rewrite IH. naive_solver.
Qed.

Lemma filter_key_groupby (k : K) kv :
  filter (fun p : K * list V => p.1 = k) (groupby kv)
  = if decide (k ∈ kv.*1) then [(k, values_of k kv)] else [].
Proof.
  unfold groupby.
  rewrite (filter_key_fmap_NoDup (fun k' => values_of k' kv)) by apply NoDup_unique.
  destruct (decide (k ∈ unique kv.*1)) as [Hin|Hin];
    rewrite elem_of_unique in Hin.
  - by rewrite decide_True.
  - by rewrite decide_False.
Qed.

Lemma filter_key_value_counts (k : K) l :
  filter (fun p : K * Z => p.1 = k) (value_counts l)
  = if decide (k ∈ l) then [(k, count_of k l)] else [].
Proof.
  unfold value_counts.
  assert (Hp : filter (fun p : K * Z => p.1 = k)
                  (sort_by (fun a b => b.2 <=? a.2)
                     ((fun k' => (k', count_of k' l)) <$> unique l))
               ≡ₚ filter (fun p : K * Z => p.1 = k)
                     ((fun k' => (k', count_of k' l)) <$> unique l)).
  { by rewrite sort_by_perm. }
  rewrite (filter_key_fmap_NoDup (fun k' => count_of k' l)) in Hp
    by apply NoDup_unique.
  destruct (decide (k ∈ unique l)) as [Hin|Hin]; rewrite elem_of_unique in Hin.
  - rewrite decide_True by done. by apply Permutation_singleton_r in Hp.
  - rewrite decide_False by done. by apply Permutation_nil_r in Hp.
Qed.

End GroupFacts.

(** Keyed updates folded over a list: the entry of [k] only sees the rows
    filed under [k], in list order. *)
Section KeyedFold.
Context {K A B X : Type} `{Countable K}.
Variable f : option A -> B -> A.
Variables (key : X -> K) (val : X -> B).

Lemma fold_keyed_lookup (m : gmap K A) (xs : list X) (k : K) :
  foldl (fun m x => <[key x := f (m !! key x) (val x)]> m) m xs !! k
  = fold_opt f (m !! k) (val <$> filter (fun x => key x = k) xs).
Proof.
  revert m. induction xs as [|x xs IH]; intros m; [done|].
  simpl. rewrite IH, filter_cons.
  destruct (decide (key x = k)) as [<-|Hne].
  - by rewrite lookup_insert_eq.
  - by rewrite lookup_insert_ne.
Qed.
End KeyedFold.

Lemma zip_fmap_filter {X K V : Type} `{EqDecision K} (g : X -> K) (h : X -> V)
    (k : K) (l : list X) :
  filter (fun p : K * V => p.1 = k) (zip (g <$> l) (h <$> l))
  = (fun x => (g x, h x)) <$> filter (fun x => g x = k) l.
Proof.
  induction l as [|x l IH]; [done|].
  cbn [fmap list_fmap zip zip_with]. rewrite !filter_cons. simpl.
  destruct (decide (g x = k)); by rewrite IH.
Qed.

Lemma zip_fmap_fst {X K V : Type} (g : X -> K) (h : X -> V) (l : list X) :
  (zip (g <$> l) (h <$> l)).*1 = g <$> l.
Proof. apply fst_zip. by rewrite !length_fmap. Qed.

Lemma filter_nil_not_elem {X K : Type} `{EqDecision K} (g : X -> K) (k : K)
    (l : list X) :
  filter (fun x => g x = k) l = [] <-> k ∉ g <$> l.
Proof.
  induction l as [|x l IH]; simpl.
  - split; [intros _; apply not_elem_of_nil|done].
  - rewrite filter_cons, not_elem_of_cons.
    destruct (decide (g x = k)) as [<-|Hne]; [naive_solver|].
    rewrite IH. naive_solver.
Qed.

Lemma concat_chunks_fuel {A : Type} (fuel n : nat) (l : list A) :
  (1 <= n)%nat -> (length l <= fuel)%nat -> concat (chunks_fuel fuel n l) = l.
Proof.
  intros Hn. revert l. induction fuel as [|fuel IH]; intros l Hl.
  - destruct l; [done|simpl in Hl; lia].
  - destruct l as [|x l]; [done|].
    cbn [chunks_fuel concat]. rewrite IH.
    + apply take_drop.
    + rewrite length_drop. simpl in *. lia.
Qed.

Lemma concat_chunks {A : Type} (n : nat) (l : list A) :
  (1 <= n)%nat -> concat (chunks n l) = l.
Proof. intros Hn. by apply concat_chunks_fuel. Qed.

Lemma filter_all {A : Type} (P : A -> Prop) `{forall x, Decision (P x)} (l : list A) :
  Forall P l -> filter P l = l.
Proof.
  induction 1 as [|x l Hx _ IH]; [done|].
  by rewrite filter_cons, decide_True, IH.
Qed.

Lemma filter_none {A : Type} (P : A -> Prop) `{forall x, Decision (P x)} (l : list A) :
  Forall (fun x => ~ P x) l -> filter P l = [].
Proof.
  induction 1 as [|x l Hx _ IH]; [done|].
  by rewrite filter_cons, decide_False, IH.
Qed.
End Frame.

(** ** Snowflake decoding ([03_layer3_community_notes.py], lines 65-109) *)

Module Snowflake.

Definition TWITTER_EPOCH_MS : Z := 1288834974657.

(** [ndarray.astype("uint64")] and [astype("int64")] on one element. *)
Definition astype_uint64 (z : Z) : Z := z mod 2 ^ 64.
Definition astype_int64 (z : Z) : Z := (z + 2 ^ 63) mod 2 ^ 64 - 2 ^ 63.

(** One element of [_tweet_id_to_timestamp_ms]:
    [(ids >> np.uint64(22)).astype("int64") + TWITTER_EPOCH_MS]. *)
Definition tweet_id_to_timestamp_ms1 (tweet_id : Z) : Z :=
  astype_int64
    (astype_int64 (Z.shiftr (astype_uint64 tweet_id) 22) + TWITTER_EPOCH_MS).

Definition _tweet_id_to_timestamp_ms (tweet_id_arr : list Z) : list Z :=
  tweet_id_to_timestamp_ms1 <$> tweet_id_arr.


(** *** Facts about the decoder *)

Lemma astype_uint64_small (z : Z) : 0 <= z < 2 ^ 64 -> astype_uint64 z = z.
Proof. intros Hz. unfold astype_uint64. apply Z.mod_small, Hz. Qed.

Lemma astype_int64_small (z : Z) : - 2 ^ 63 <= z < 2 ^ 63 -> astype_int64 z = z.
Proof. intros Hz. unfold astype_int64. rewrite Z.mod_small; lia. Qed.

(** Reading an identifier through a signed column and casting it back to
    unsigned loses nothing. *)
Lemma astype_uint64_int64 (z : Z) : astype_uint64 (astype_int64 z) = astype_uint64 z.
Proof.
  unfold astype_uint64, astype_int64.
  rewrite Zminus_mod_idemp_l. f_equal. lia.
Qed.

Lemma shiftl22_bound (x : Z) : 0 <= x -> Z.shiftl x 22 < 2 ^ 64 -> x < 2 ^ 42.
Proof. rewrite Z.shiftl_mul_pow2 by lia. intros Hx Hlt. lia. Qed.

Lemma shift_back (x : Z) :
  0 <= x -> Z.shiftl x 22 < 2 ^ 64 ->
  Z.shiftr (astype_uint64 (Z.shiftl x 22)) 22 = x.
Proof.
  intros Hx Hlt. rewrite astype_uint64_small.
  - rewrite Z.shiftr_shiftl_l by lia. replace (22 - 22) with 0 by lia.
    apply Z.shiftl_0_r.
  - split; [apply Z.shiftl_nonneg, Hx | exact Hlt].
Qed.

(** C3. For every creation time [creation_ms] whose offset from the epoch,
    shifted left by 22 bits, fits an unsigned 64-bit identifier, decoding
    that identifier returns [creation_ms] exactly: the unsigned shift gives
    back the offset itself, and the result is the same whether the
    identifier arrives as an unsigned value or through the signed 64-bit
    column the aggregator reads it from. *)
Theorem decode_recovers_creation_ms (creation_ms : Z) :
  0 <= creation_ms - TWITTER_EPOCH_MS ->
  Z.shiftl (creation_ms - TWITTER_EPOCH_MS) 22 < 2 ^ 64 ->
  let tweet_id := Z.shiftl (creation_ms - TWITTER_EPOCH_MS) 22 in
  Z.shiftr (astype_uint64 tweet_id) 22 = creation_ms - TWITTER_EPOCH_MS /\
  tweet_id_to_timestamp_ms1 tweet_id = creation_ms /\
  tweet_id_to_timestamp_ms1 (astype_int64 tweet_id) = creation_ms /\
  _tweet_id_to_timestamp_ms [tweet_id] = [creation_ms].
Proof.
  intros Hx Hlt tweet_id.
  pose proof (shiftl22_bound _ Hx Hlt) as Hb.
  pose proof (shift_back _ Hx Hlt) as Hs. fold tweet_id in Hs.
  assert (Hdec : tweet_id_to_timestamp_ms1 tweet_id = creation_ms).
  { unfold tweet_id_to_timestamp_ms1. rewrite Hs.
    unfold TWITTER_EPOCH_MS in *.
    rewrite (astype_int64_small (creation_ms - _)) by lia.
    rewrite astype_int64_small by lia. lia. }
  repeat split.
  - exact Hs.
  - exact Hdec.
  - unfold tweet_id_to_timestamp_ms1. rewrite astype_uint64_int64. exact Hdec.
  - unfold _tweet_id_to_timestamp_ms. simpl. by rewrite Hdec.
Qed.

(** *** The decoder on arbitrary identifiers *)

Lemma shifted_range (z : Z) : 0 <= Z.shiftr (astype_uint64 z) 22 < 2 ^ 42.
Proof.
  unfold astype_uint64. rewrite Z.shiftr_div_pow2 by lia.
  pose proof (Z.mod_pos_bound z (2 ^ 64) ltac:(lia)) as Hm.
  split.
  - apply Z.div_pos; lia.
  - apply Z.div_lt_upper_bound; [lia|]. change (2 ^ 22 * 2 ^ 42) with (2 ^ 64). lia.
Qed.

Lemma decode_unfold (tweet_id : Z) :
  tweet_id_to_timestamp_ms1 tweet_id
  = Z.shiftr (astype_uint64 tweet_id) 22 + TWITTER_EPOCH_MS.
Proof.
  unfold tweet_id_to_timestamp_ms1. pose proof (shifted_range tweet_id) as Hr.
  unfold TWITTER_EPOCH_MS in *.
  rewrite (astype_int64_small (Z.shiftr _ _)) by lia.
  rewrite astype_int64_small by lia. reflexivity.
Qed.

(** X10. On every identifier, whatever its sign or size, neither signed
    cast of the decoder wraps around: the result is the epoch plus the top
    42 bits of the identifier read as unsigned, so it lies in the 2^42
    milliseconds that start at the epoch, and the array version decodes
    each element on its own. *)
Theorem decode_range (tweet_id : Z) (tweet_id_arr : list Z) :
  tweet_id_to_timestamp_ms1 tweet_id
  = (tweet_id mod 2 ^ 64) / 2 ^ 22 + TWITTER_EPOCH_MS /\
  TWITTER_EPOCH_MS <= tweet_id_to_timestamp_ms1 tweet_id
                   < TWITTER_EPOCH_MS + 2 ^ 42 /\
  length (_tweet_id_to_timestamp_ms tweet_id_arr) = length tweet_id_arr /\
  _tweet_id_to_timestamp_ms (tweet_id :: tweet_id_arr)
  = tweet_id_to_timestamp_ms1 tweet_id :: _tweet_id_to_timestamp_ms tweet_id_arr.
Proof.
  pose proof (shifted_range tweet_id) as Hr. rewrite decode_unfold.
  split; [|split; [|split]].
  - unfold astype_uint64. by rewrite Z.shiftr_div_pow2 by lia.
  - lia.
  - unfold _tweet_id_to_timestamp_ms. apply length_fmap.
  - unfold _tweet_id_to_timestamp_ms. by rewrite fmap_cons, decode_unfold.
Qed.

(** X11. The low 22 bits of an identifier do not reach the decoded time:
    an identifier made of a millisecond offset in its upper bits and any
    22-bit value below decodes to the epoch plus that offset. *)
Theorem decode_ignores_low_bits (offset low : Z) :
  0 <= offset ->
  0 <= low < 2 ^ 22 ->
  Z.shiftl offset 22 + low < 2 ^ 64 ->
  tweet_id_to_timestamp_ms1 (Z.shiftl offset 22 + low) = offset + TWITTER_EPOCH_MS /\
  tweet_id_to_timestamp_ms1 (Z.lor (Z.shiftl offset 22) low) = offset + TWITTER_EPOCH_MS.
Proof.
  intros Ho Hl Hlt.
  assert (Hadd : tweet_id_to_timestamp_ms1 (Z.shiftl offset 22 + low)
                 = offset + TWITTER_EPOCH_MS).
  { rewrite decode_unfold. f_equal.
    rewrite Z.shiftl_mul_pow2 in * by lia.
    rewrite astype_uint64_small by lia.
    rewrite Z.shiftr_div_pow2 by lia.
    rewrite Z.add_comm, Z.div_add by lia. rewrite Z.div_small by lia. lia. }
  split; [exact Hadd|].
  rewrite <- Hadd. f_equal. symmetry.
  rewrite <- Z.lxor_lor.
  - apply Z.add_nocarry_lxor.
    apply Z.bits_inj'. intros i Hi. rewrite Z.land_spec, Z.bits_0.
    destruct (Z.ltb_spec i 22).
    + rewrite Z.shiftl_spec_low by lia. reflexivity.
    + rewrite (Z.bits_above_log2 low i); [apply andb_false_r|lia|].
      destruct (Z.eq_dec low 0) as [->|Hne]; [simpl; lia|].
      apply Z.lt_le_trans with 22; [|lia]. apply Z.log2_lt_pow2; lia.
  - apply Z.bits_inj'. intros i Hi. rewrite Z.land_spec, Z.bits_0.
    destruct (Z.ltb_spec i 22).
    + rewrite Z.shiftl_spec_low by lia. reflexivity.
    + rewrite (Z.bits_above_log2 low i); [apply andb_false_r|lia|].
      destruct (Z.eq_dec low 0) as [->|Hne]; [simpl; lia|].
      apply Z.lt_le_trans with 22; [|lia]. apply Z.log2_lt_pow2; lia.
Qed.

(** X12. On identifiers that fit an unsigned 64-bit value the decoder keeps
    the order: a larger identifier never decodes to an earlier time, so a
    strictly later time comes from a strictly larger identifier. *)
Theorem decode_monotone (a b : Z) :
  0 <= a -> a <= b -> b < 2 ^ 64 ->
  tweet_id_to_timestamp_ms1 a <= tweet_id_to_timestamp_ms1 b /\
  (tweet_id_to_timestamp_ms1 a < tweet_id_to_timestamp_ms1 b -> a < b).
Proof.
  intros Ha Hab Hb. rewrite !decode_unfold.
  rewrite !astype_uint64_small by lia. rewrite !Z.shiftr_div_pow2 by lia.
  pose proof (Z.div_le_mono a b (2 ^ 22) ltac:(lia) Hab) as Hmono.
  split; [lia|]. intros Hlt.
  destruct (Z.eq_dec a b) as [->|]; lia.
Qed.
End Snowflake.

(** ** Calendar dates as pandas timestamps *)

Module Calendar.

(** Days from 1970-01-01 to the proleptic Gregorian date [y]-[m]-[d]. *)
Definition days_from_civil (y m d : Z) : Z :=
  let y' := if m <=? 2 then y - 1 else y in
  let era := y' `div` 400 in
  let yoe := y' - era * 400 in
  let mp := (m + 9) `mod` 12 in
  let doy := (153 * mp + 2) `div` 5 + d - 1 in
  let doe := yoe * 365 + yoe `div` 4 - yoe `div` 100 + doy in
  era * 146097 + doe - 719468.

Definition DAY_NS : Z := 86400 * 1000000000.

(** [pd.Timestamp("YYYY-MM-DD")] / [pd.to_datetime("YYYY-MM-DD")]: midnight
    of that day, in nanoseconds since the Unix epoch. *)
Definition timestamp (y m d : Z) : Z := days_from_civil y m d * DAY_NS.

Definition CHATGPT_BREAK : Z := timestamp 2022 11 1.

End Calendar.

(** ** The streaming aggregator ([03_layer3_community_notes.py], lines 112-248) *)

Module Layer3.
Import Frame Snowflake Calendar.

(** One record of [notes_with_lang.csv], restricted to [usecols], as the
    file holds it; a blank cell is [None].  A [tweetId] cell is blank or an
    integer literal; the reader declares the column [int64] and refuses a
    chunk that holds a blank or an integer outside that range
    ([read_chunk]). *)
Record Row : Type := mkRow {
  noteAuthorParticipantId : option string;
  tweetId : option Z;
  date : option string;
  Timestamp : option string;
  language : option string
}.

(** A row that survived [dropna]: author, subject and parsed instant
    (int64 nanoseconds since the Unix epoch) are present. *)
Record Note : Type := mkNote {
  author : string;
  tweet : Z;
  note_ts : Z;
  note_language : option string
}.

(** The accumulators of [compute_monthly_metrics], named as its locals. *)
Record State : Type := mkState {
  month_note_counts : gmap string Z;
  month_authors : gmap string (gset string);
  all_authors : gset string;
  lang_note_counts : list (string * Z);
  lang_authors : gmap string (gset string);
  earliest_note_ms_by_tweet : gmap Z Z;
  total_rows : Z;
  dropped_rows : Z
}.

Record MonthlyRow : Type := mkMonthlyRow {
  Month : string;
  Notes : Z;
  Active_Authors : Z;
  Notes_per_Author : Float;
  MonthStart : Z;
  Median_TimeToFirstNote_hours : Float
}.

Record Totals : Type := mkTotals {
  total_notes : Z;
  total_contributors : Z;
  total_distinct_posts : Z;
  totals_dropped_rows : Z
}.

Record LangRow : Type := mkLangRow {
  Language : string;
  Lang_Notes : Z;
  Notes_Share : Float;
  Unique_Authors : Z
}.

Record Output : Type := mkOutput {
  monthly : list MonthlyRow;
  totals : Totals;
  lang_df : list LangRow
}.

Definition init : State :=
  mkState ∅ ∅ ∅ [] ∅ ∅ 0 0.

(** [astype(str)] on a nullable string cell. *)
Definition astype_str (c : option string) : string := default "<NA>"%string c.

(** [defaultdict(int)]: [m[k] += v]. *)
Definition counter_add (m : gmap string Z) (k : string) (v : Z) : gmap string Z :=
  <[k := default 0 (m !! k) + v]> m.

(** [defaultdict(set)]: [m[k].update(vals)]. *)
Definition authors_update (m : gmap string (gset string)) (k : string)
    (vals : list string) : gmap string (gset string) :=
  <[k := default ∅ (m !! k) ∪ list_to_set vals]> m.

(** [d[k] += v] on the insertion-ordered [lang_note_counts]: an existing key
    keeps its place, a new key goes last. *)
Fixpoint dict_add (d : list (string * Z)) (k : string) (v : Z) : list (string * Z) :=
  match d with
  | [] => [(k, 0 + v)]
  | (k', c) :: d' =>
    if decide (k' = k) then (k', c + v) :: d' else (k', c) :: dict_add d' k v
  end.

(** Lines 197-199: keep the smaller of the stored and the incoming minimum. *)
Definition earliest_merge (m : gmap Z Z) (tid ms : Z) : gmap Z Z :=
  match m !! tid with
  | None => <[tid := ms]> m
  | Some prev => if ms <? prev then <[tid := ms]> m else m
  end.

(** [Series.min()] of a group with first value [x]. *)
Definition list_min (x : Z) (l : list Z) : Z := foldl Z.min x l.

(** One entry of [min_per_tweet]; [groupby] yields no empty group, so the
    first case is never met. *)
Definition group_min (g : Z * list Z) : Z * Z :=
  match g.2 with
  | [] => (g.1, 0)
  | x :: l => (g.1, list_min x l)
  end.

Definition replace_zero_nan (a : Z) : Float :=
  if a =? 0 then nan else Some (inject_Z a).

Definition fdiv_int (n : Z) (d : Float) : Float :=
  match d with Some q => Some (inject_Z n / q)%Q | None => nan end.

Definition HOUR_MS : Z := 1000 * 60 * 60.

(** Line 155: the string handed to the parser for one row. *)
Definition cell (r : Row) : string :=
  astype_str (date r) +:+ " " +:+ astype_str (Timestamp r).

Definition fits_int64 (z : Z) : bool := (- 2 ^ 63 <=? z) && (z <? 2 ^ 63).

(** [read_csv(..., dtype={"tweetId": "int64", ...})] on the rows of one
    chunk: a blank cell raises [ValueError] (an integer column cannot hold
    NA), an integer too wide for the reader raises [OverflowError].  The
    theorems below are stated for subject ids that are blank or fit
    [int64], as the ids of the data set do; the integers between the
    [int64] range and 64 unsigned bits are filed with the too-wide ones. *)
Definition read_chunk (chunk : list Row) : result (list Row) :=
  if existsb (fun r => match tweetId r with
                       | Some z => negb (fits_int64 z)
                       | None => false
                       end) chunk
  then Raise OverflowError
  else if existsb (fun r => match tweetId r with
                            | Some _ => false
                            | None => true
                            end) chunk
  then Raise ValueError
  else Ok chunk.

Section Aggregator.

(** [pd.to_datetime(cells, utc=True, errors="coerce")] on the cells of one
    chunk, one result per cell: [None] is NaT, [Some ns] an instant in
    nanoseconds since the Unix epoch.  pandas may infer one format for the
    whole series (from its first cell), so the result for a cell can depend
    on the other cells of its chunk. *)
Variable to_datetime : list string -> list (option Z).
(** [.dt.tz_convert(None).dt.to_period("M").astype(str)] on one instant (ns):
    its year-month label. *)
Variable to_period_M : Z -> string.
(** [pd.to_datetime(label + "-01", utc=True)] on a year-month label (ns). *)
Variable month_start : string -> Z.

(** Lines 155-156: the chunk with its [note_ts] column, parsed from the
    cells of the chunk together.  The column has one entry per row;
    [resize] states this for whatever function stands for the parser and
    changes nothing when the parser returns one result per cell. *)
Definition assign_note_ts (chunk : list Row) : list (Row * option Z) :=
  zip chunk (resize (length chunk) None (to_datetime (cell <$> chunk))).

(** Line 159: [dropna(subset=["note_ts", "noteAuthorParticipantId", "tweetId"])]
    on one row of the chunk with its [note_ts]. *)
Definition dropna_row (r : Row * option Z) : option Note :=
  match r.2, noteAuthorParticipantId r.1, tweetId r.1 with
  | Some ts, Some a, Some tid => Some (mkNote a tid ts (language r.1))
  | _, _, _ => None
  end.

Definition dropna (chunk : list (Row * option Z)) : list Note :=
  omap dropna_row chunk.

Definition lang_of (n : Note) : string := default "unk"%string (note_language n).
Definition month_of (n : Note) : string := to_period_M (note_ts n).
Definition note_ms (n : Note) : Z := note_ts n `div` 1000000.

(** The body of the loop from line 152 on, on the chunk with its
    [note_ts] column (which has as many rows as the chunk read). *)
Definition process_assigned (s : State) (chunk : list (Row * option Z)) : State :=
  let total_rows' := total_rows s + Z.of_nat (length chunk) in
  let before := Z.of_nat (length chunk) in
  let kept := dropna chunk in
  let dropped_rows' := dropped_rows s + (before - Z.of_nat (length kept)) in
  match kept with
  | [] =>
    mkState (month_note_counts s) (month_authors s) (all_authors s)
            (lang_note_counts s) (lang_authors s) (earliest_note_ms_by_tweet s)
            total_rows' dropped_rows'
  | _ :: _ =>
    let lang := lang_of <$> kept in
    let authors := author <$> kept in
    let month := month_of <$> kept in
    let min_per_tweet :=
      group_min <$> groupby (zip (tweet <$> kept) (note_ms <$> kept)) in
    mkState
      (foldl (fun m mc => counter_add m mc.1 mc.2)
             (month_note_counts s) (value_counts month))
      (foldl (fun m g => authors_update m g.1 (unique g.2))
             (month_authors s) (groupby (zip month authors)))
      (all_authors s ∪ list_to_set (unique authors))
      (foldl (fun d kv => dict_add d kv.1 kv.2)
             (lang_note_counts s) (value_counts lang))
      (foldl (fun m g => authors_update m g.1 (unique g.2))
             (lang_authors s) (groupby (zip lang authors)))
      (foldl (fun m tm => earliest_merge m tm.1 tm.2)
             (earliest_note_ms_by_tweet s) min_per_tweet)
      total_rows' dropped_rows'
  end.

(** The body of the loop, lines 152-199, on a chunk as read. *)
Definition process_chunk (s : State) (chunk : list Row) : State :=
  process_assigned s (assign_note_ts chunk).

(** Lines 214-224: [df_first] before and after the filter. *)
Definition delta_hours (first_note_ms tweet_ms : list Z) : list Float :=
  zip_with (fun f t => Some (inject_Z (f - t) / inject_Z HOUR_MS)%Q)
           first_note_ms tweet_ms.

Definition first_month (first_note_ms : Z) : string :=
  to_period_M (first_note_ms * 1000000).

Definition df_first_all (earliest : gmap Z Z) : list (string * Float) :=
  let items := map_to_list earliest in
  let tweet_ids := items.*1 in
  let first_note_ms := items.*2 in
  let tweet_ms := _tweet_id_to_timestamp_ms tweet_ids in
  zip (first_month <$> first_note_ms) (delta_hours first_note_ms tweet_ms).

Definition df_first (earliest : gmap Z Z) : list (string * Float) :=
  filter (fun p => notna p.2 && fge0 p.2 = true) (df_first_all earliest).

(** Line 225: the per-month median of the retained deltas. *)
Definition first_median (earliest : gmap Z Z) : list (string * Float) :=
  (fun g => (g.1, median (omap id g.2))) <$> groupby (df_first earliest).

(** Lines 202-211 and the left merge of line 226. *)
Definition assemble_monthly (s : State) : list MonthlyRow :=
  let months := sort_by String.leb (map_to_list (month_note_counts s)).*1 in
  let fm := first_median (earliest_note_ms_by_tweet s) in
  (fun m =>
     let notes := default 0 (month_note_counts s !! m) in
     let active := Z.of_nat (size (default ∅ (month_authors s !! m))) in
     mkMonthlyRow m notes active
                  (fdiv_int notes (replace_zero_nan active))
                  (month_start m)
                  (default nan (alookup m fm))) <$> months.

Definition assemble_totals (s : State) : Totals :=
  mkTotals (total_rows s)
           (Z.of_nat (size (all_authors s)))
           (Z.of_nat (size (earliest_note_ms_by_tweet s)))
           (dropped_rows s).

(** Lines 236-245. *)
Definition lang_rows (s : State) : list LangRow :=
  (fun kv =>
     mkLangRow kv.1 kv.2
               (if total_rows s =? 0 then nan
                else Some (inject_Z kv.2 / inject_Z (total_rows s))%Q)
               (Z.of_nat (size (default ∅ (lang_authors s !! kv.1)))))
    <$> lang_note_counts s.

(** Line 246: [pd.DataFrame(lang_rows).sort_values("Notes", ascending=False)].
    A frame built from no rows has no ["Notes"] column, and sorting by it
    raises [KeyError]. *)
Definition sort_lang_rows (rows : list LangRow) : result (list LangRow) :=
  match rows with
  | [] => Raise KeyError
  | _ :: _ => Ok (sort_by (fun a b => Lang_Notes b <=? Lang_Notes a) rows)
  end.

(** Lines 202-246.  With no month, the [Month] column of line 203 is built
    from an empty list and is not a string column: [monthly["Month"] + "-01"]
    on line 211 raises [TypeError]. *)
Definition finalize (s : State) : result Output :=
  match map_to_list (month_note_counts s) with
  | [] => Raise TypeError
  | _ :: _ =>
    let monthly := assemble_monthly s in
    let totals := assemble_totals s in
    match sort_lang_rows (lang_rows s) with
    | Ok df => Ok (mkOutput monthly totals df)
    | Raise e => Raise e
    end
  end.

(** The loop of line 151: each chunk is read, then processed; a chunk the
    reader refuses ends the run with the reader's exception. *)
Fixpoint read_loop (s : State) (cs : list (list Row)) : result State :=
  match cs with
  | [] => Ok s
  | c :: cs' =>
    match read_chunk c with
    | Raise e => Raise e
    | Ok chunk => read_loop (process_chunk s chunk) cs'
    end
  end.

(** The accumulators the loop leaves when the reader refuses no chunk. *)
Definition run (chunksize : nat) (rows : list Row) : State :=
  foldl process_chunk init (chunks chunksize rows).

(** [read_csv] refuses a chunk size below one with [ValueError]. *)
Definition compute_monthly_metrics (rows : list Row) (chunksize : Z) : result Output :=
  if chunksize <? 1 then Raise ValueError
  else
    match read_loop init (chunks (Z.to_nat chunksize) rows) with
    | Raise e => Raise e
    | Ok s => finalize s
    end.

(** *** Reference definitions used to state the properties *)

(** The smaller of a stored minimum and an incoming one. *)
Definition fmin (o : option Z) (ms : Z) : Z :=
  match o with None => ms | Some prev => if ms <? prev then ms else prev end.

(** The file as a run reads it: every row with the [note_ts] that the
    parse of its chunk gave it. *)
Definition assigned (chunksize : nat) (rows : list Row) : list (Row * option Z) :=
  concat (assign_note_ts <$> chunks chunksize rows).

(** A parser that gives each cell of [chunk] what [parse1] gives the cell
    on its own. *)
Definition cellwise (parse1 : string -> option Z) (chunk : list Row) : Prop :=
  to_datetime (cell <$> chunk) = (fun r => parse1 (cell r)) <$> chunk.

(** Every subject id of the file is present and fits [int64]. *)
Definition ids_readable (rows : list Row) : Prop :=
  Forall (fun r => exists z, tweetId r = Some z /\ fits_int64 z = true) rows.

(** Reference aggregation: the accumulators after taking the rows [rows]
    (each with its [note_ts]) in one pass, one retained row at a time, with
    no chunking. *)
Definition tally (s : State) (rows : list (Row * option Z)) : State :=
  let kept := dropna rows in
  mkState
    (foldl (fun m n => counter_add m (month_of n) 1) (month_note_counts s) kept)
    (foldl (fun m n => authors_update m (month_of n) [author n])
           (month_authors s) kept)
    (foldl (fun a n => a ∪ {[author n]}) (all_authors s) kept)
    (foldl (fun d n => dict_add d (lang_of n) 1) (lang_note_counts s) kept)
    (foldl (fun m n => authors_update m (lang_of n) [author n])
           (lang_authors s) kept)
    (foldl (fun m n => earliest_merge m (tweet n) (note_ms n))
           (earliest_note_ms_by_tweet s) kept)
    (total_rows s + Z.of_nat (length rows))
    (dropped_rows s + (Z.of_nat (length rows) - Z.of_nat (length kept))).

(** What the outputs can see of the accumulators: everything, with
    [lang_note_counts] up to its insertion order. *)
Definition view (s : State) :=
  (month_note_counts s, month_authors s, all_authors s,
   (list_to_map (lang_note_counts s) : gmap string Z),
   lang_authors s, earliest_note_ms_by_tweet s, total_rows s, dropped_rows s).

(** [o] is the least element of [l], or nothing when [l] is empty. *)
Definition is_global_min (l : list Z) (o : option Z) : Prop :=
  match o with
  | None => l = []
  | Some m => m ∈ l /\ Forall (fun x => m <= x) l
  end.

(** The retained events of one subject, as millisecond timestamps. *)
Definition subject_times (tid : Z) (rows : list (Row * option Z)) : list Z :=
  note_ms <$> filter (fun n => tweet n = tid) (dropna rows).

(** The time-to-first-note of one subject, in hours. *)
Definition subject_delta (tid first_note_ms : Z) : Float :=
  Some (inject_Z (first_note_ms - tweet_id_to_timestamp_ms1 tid) / inject_Z HOUR_MS)%Q.

(** The subjects that qualify for the median of month [m]: the earliest
    note falls in [m] and is not before the subject's creation. *)
Definition qualifying_subjects (earliest : gmap Z Z) (m : string) : list (Z * Z) :=
  filter (fun p => first_month p.2 = m
                   /\ 0 <= p.2 - tweet_id_to_timestamp_ms1 p.1)
         (map_to_list earliest).

(** The deltas that enter the median of month [m]. *)
Definition retained_deltas (earliest : gmap Z Z) (m : string) : list Q :=
  omap id (values_of m (df_first earliest)).

(** A language row without its share: language, count, distinct authors. *)
Definition lang_core (r : LangRow) : string * Z * Z :=
  (Language r, Lang_Notes r, Unique_Authors r).

(** Adjacent rows of a table sorted by descending [Notes]. *)
Definition notes_descending (a b : LangRow) : Prop :=
  (Lang_Notes b <=? Lang_Notes a) = true.

(** Lines 252-253: the split of [summarize_pre_post]. *)
Definition summarize_pre (monthly : list MonthlyRow) : list MonthlyRow :=
  filter (fun r => MonthStart r < CHATGPT_BREAK) monthly.
Definition summarize_post (monthly : list MonthlyRow) : list MonthlyRow :=
  filter (fun r => MonthStart r >= CHATGPT_BREAK) monthly.

(** *** The chunked loop against the one-pass reference *)

Lemma foldl_ext_in {A B : Type} (f g : A -> B -> A) (a : A) (l : list B) :
  (forall a b, f a b = g a b) -> foldl f a l = foldl g a l.
Proof.
  intros Hfg. revert a. induction l as [|b l IH]; intros a; [done|].
  simpl. by rewrite Hfg, IH.
Qed.

Lemma length_filter_fmap {X : Type} (g : X -> string) (k : string) (l : list X) :
  length (filter (fun y => y = k) (g <$> l))
  = length (filter (fun x => g x = k) l).
Proof.
  induction l as [|x l IH]; [done|].
  rewrite fmap_cons, !filter_cons.
  destruct (decide (g x = k)); simpl; by rewrite IH.
Qed.

Lemma fold_opt_ones {X : Type} (o : option Z) (xs : list X) :
  fold_opt (fun o v => default 0 o + v) o ((fun _ => 1) <$> xs)
  = match xs with
    | [] => o
    | _ :: _ => Some (default 0 o + Z.of_nat (length xs))
    end.
Proof.
  revert o. induction xs as [|x xs IH]; intros o; [done|].
  cbn [fmap list_fmap]. unfold fold_opt in *. cbn [foldl]. rewrite IH.
  destruct xs; simpl; f_equal; lia.
Qed.

(** Adding the per-value counts of a chunk is adding one per row. *)
Lemma counter_fold_value_counts {X : Type} (g : X -> string) (m : gmap string Z)
    (l : list X) :
  foldl (fun m mc => counter_add m mc.1 mc.2) m (value_counts (g <$> l))
  = foldl (fun m x => counter_add m (g x) 1) m l.
Proof.
  apply map_eq. intros k. unfold counter_add.
  etransitivity;
    [exact (fold_keyed_lookup (fun o v => default 0 o + v) fst snd m _ k)|].
  etransitivity;
    [|symmetry;
      exact (fold_keyed_lookup (fun o v => default 0 o + v) g (fun _ => 1) m l k)].
  rewrite filter_key_value_counts, fold_opt_ones.
  destruct (decide (k ∈ g <$> l)) as [Hin|Hin].
  - assert (Hne : filter (fun x => g x = k) l <> [])
      by (by rewrite filter_nil_not_elem; intros Hk).
    unfold count_of. rewrite length_filter_fmap.
    destruct (filter (fun x => g x = k) l); [done|done].
  - apply (filter_nil_not_elem g k l) in Hin. by rewrite Hin.
Qed.

Lemma fold_opt_union (o : option (gset string)) (vs : list string) :
  fold_opt (fun o vals => default ∅ o ∪ list_to_set vals) o
           ((fun v => [v]) <$> vs)
  = match vs with
    | [] => o
    | _ :: _ => Some (default ∅ o ∪ list_to_set vs)
    end.
Proof.
  revert o. induction vs as [|v vs IH]; intros o; [done|].
  cbn [fmap list_fmap]. unfold fold_opt in *. cbn [foldl]. rewrite IH.
  destruct vs; simpl; f_equal; set_solver.
Qed.

Lemma list_to_set_unique (vs : list string) :
  (list_to_set (unique vs) : gset string) = list_to_set vs.
Proof.
  apply set_eq. intros x. rewrite !elem_of_list_to_set. apply elem_of_unique.
Qed.

(** Updating each group's set with the group's distinct authors is adding
    the author of every row. *)
Lemma authors_fold_groupby {X : Type} (g : X -> string) (h : X -> string)
    (m : gmap string (gset string)) (l : list X) :
  foldl (fun m gr => authors_update m gr.1 (unique gr.2)) m
        (groupby (zip (g <$> l) (h <$> l)))
  = foldl (fun m x => authors_update m (g x) [h x]) m l.
Proof.
  apply map_eq. intros k. unfold authors_update.
  etransitivity;
    [exact (fold_keyed_lookup (fun o vals => default ∅ o ∪ list_to_set vals)
              fst (fun gr => unique gr.2) m _ k)|].
  etransitivity;
    [|symmetry;
      exact (fold_keyed_lookup (fun o vals => default ∅ o ∪ list_to_set vals)
               g (fun x => [h x]) m l k)].
  rewrite filter_key_groupby, zip_fmap_fst.
  rewrite (list_fmap_compose h (fun v => [v])), fold_opt_union.
  destruct (decide (k ∈ g <$> l)) as [Hin|Hin].
  - assert (Hne : filter (fun x => g x = k) l <> [])
      by (by rewrite filter_nil_not_elem; intros Hk).
    unfold values_of. rewrite zip_fmap_filter, <- list_fmap_compose. simpl.
    destruct (filter (fun x => g x = k) l) eqn:E; [done|].
    cbn [fmap list_fmap fold_opt foldl]. by rewrite list_to_set_unique.
  - apply (filter_nil_not_elem g k l) in Hin. by rewrite Hin.
Qed.

Lemma all_authors_fold (a : gset string) (l : list Note) :
  a ∪ list_to_set (unique (author <$> l))
  = foldl (fun a n => a ∪ {[author n]}) a l.
Proof.
  rewrite list_to_set_unique. revert a.
  induction l as [|n l IH]; intros a; simpl; [set_solver|].
  rewrite <- IH. set_solver.
Qed.

Lemma earliest_merge_insert (m : gmap Z Z) (tid ms : Z) :
  earliest_merge m tid ms = <[tid := fmin (m !! tid) ms]> m.
Proof.
  unfold earliest_merge, fmin. destruct (m !! tid) as [prev|] eqn:E; [|done].
  destruct (ms <? prev); [done|]. by rewrite insert_id.
Qed.

Lemma fmin_Some (p ms : Z) : fmin (Some p) ms = Z.min p ms.
Proof. unfold fmin. destruct (Z.ltb_spec ms p); lia. Qed.

Lemma list_min_min (p x : Z) (l : list Z) :
  list_min (Z.min p x) l = Z.min p (list_min x l).
Proof.
  revert x. induction l as [|y l IH]; intros x; [done|].
  unfold list_min in *. simpl. rewrite <- IH. f_equal. lia.
Qed.

Lemma fold_opt_fmin (o : option Z) (x : Z) (l : list Z) :
  fold_opt fmin o (x :: l) = Some (fmin o (list_min x l)).
Proof.
  unfold fold_opt. cbn [foldl].
  assert (Hs : forall a l, foldl (fun o b => Some (fmin o b)) (Some a) l
                           = Some (list_min a l)).
  { clear. intros a l. revert a. induction l as [|y l IH]; intros a; [done|].
    cbn [foldl]. rewrite fmin_Some, IH. done. }
  rewrite Hs. destruct o as [p|]; [|done].
  rewrite !fmin_Some. by rewrite list_min_min.
Qed.

(** Merging the per-subject minima of a chunk is merging every row. *)
Lemma earliest_fold_groupby (m : gmap Z Z) (l : list Note) :
  foldl (fun m tm => earliest_merge m tm.1 tm.2) m
        (group_min <$> groupby (zip (tweet <$> l) (note_ms <$> l)))
  = foldl (fun m n => earliest_merge m (tweet n) (note_ms n)) m l.
Proof.
  rewrite foldl_fmap.
  rewrite (foldl_ext_in _ (fun m gr => <[gr.1 := fmin (m !! gr.1) (group_min gr).2]> m)).
  2:{ intros a [k vs]. rewrite earliest_merge_insert. unfold group_min. simpl.
      by destruct vs. }
  rewrite (foldl_ext_in (fun m n => earliest_merge m (tweet n) (note_ms n))
             (fun m n => <[tweet n := fmin (m !! tweet n) (note_ms n)]> m))
    by (intros; apply earliest_merge_insert).
  apply map_eq. intros k.
  etransitivity;
    [exact (fold_keyed_lookup fmin fst (fun gr => (group_min gr).2) m _ k)|].
  etransitivity;
    [|symmetry; exact (fold_keyed_lookup fmin tweet note_ms m l k)].
  rewrite filter_key_groupby, zip_fmap_fst.
  destruct (decide (k ∈ tweet <$> l)) as [Hin|Hin].
  - assert (Hne : filter (fun n => tweet n = k) l <> [])
      by (by rewrite filter_nil_not_elem; intros Hk).
    unfold values_of. rewrite zip_fmap_filter, <- list_fmap_compose.
    destruct (filter (fun n => tweet n = k) l) eqn:E; [done|].
    cbn [fmap list_fmap]. unfold group_min. cbn [snd fst].
    rewrite !fold_opt_fmin. reflexivity.
  - apply (filter_nil_not_elem tweet k l) in Hin. by rewrite Hin.
Qed.

Lemma list_to_map_dict_add (d : list (string * Z)) (k : string) (v : Z) :
  (list_to_map (dict_add d k v) : gmap string Z)
  = counter_add (list_to_map d) k v.
Proof.
  unfold counter_add. induction d as [|[k' c] d IH]; simpl.
  - by rewrite lookup_empty.
  - destruct (decide (k' = k)) as [->|Hne]; simpl.
    + rewrite lookup_insert_eq. simpl. by rewrite insert_insert_eq.
    + rewrite IH, lookup_insert_ne by done. by apply insert_insert_ne.
Qed.

Lemma dict_add_keys (d : list (string * Z)) (k : string) (v : Z) :
  (dict_add d k v).*1 = if decide (k ∈ d.*1) then d.*1 else d.*1 ++ [k].
Proof.
  induction d as [|[k' c] d IH]; [done|].
  cbn [dict_add]. rewrite fmap_cons. cbn [fst].
  destruct (decide (k' = k)) as [->|Hne].
  - by rewrite decide_True by apply list_elem_of_here.
  - rewrite fmap_cons, IH. cbn [fst].
    repeat case_decide; try done; rewrite ?elem_of_cons in *; naive_solver.
Qed.

Lemma dict_add_NoDup (d : list (string * Z)) (k : string) (v : Z) :
  NoDup d.*1 -> NoDup (dict_add d k v).*1.
Proof.
  intros Hnd. rewrite dict_add_keys. case_decide; [done|].
  apply NoDup_app. repeat split; [done| |apply NoDup_singleton].
  intros x Hx ->%list_elem_of_singleton. done.
Qed.

Lemma list_to_map_foldl_dict_add {X : Type} (key : X -> string) (val : X -> Z)
    (d : list (string * Z)) (l : list X) :
  (list_to_map (foldl (fun d x => dict_add d (key x) (val x)) d l) : gmap string Z)
  = foldl (fun m x => counter_add m (key x) (val x)) (list_to_map d) l.
Proof.
  revert d. induction l as [|x l IH]; intros d; [done|].
  simpl. by rewrite IH, list_to_map_dict_add.
Qed.

Lemma foldl_dict_add_NoDup {X : Type} (key : X -> string) (val : X -> Z)
    (d : list (string * Z)) (l : list X) :
  NoDup d.*1 -> NoDup (foldl (fun d x => dict_add d (key x) (val x)) d l).*1.
Proof.
  revert d. induction l as [|x l IH]; intros d Hnd; [done|].
  simpl. by apply IH, dict_add_NoDup.
Qed.

Lemma length_omap_filter_None {A B : Type} (f : A -> option B) (l : list A) :
  (length (omap f l) + length (filter (fun x => f x = None) l) = length l)%nat.
Proof.
  induction l as [|x l IH]; [done|].
  rewrite filter_cons. cbn [omap list_omap]. fold (omap f l).
  destruct (f x) eqn:E.
  - rewrite decide_False by done. cbn [length]. lia.
  - rewrite decide_True by done. cbn [length]. lia.
Qed.

Lemma length_filter_mono {A : Type} (P Q : A -> Prop)
    `{forall x, Decision (P x)} `{forall x, Decision (Q x)} (l : list A) :
  (forall x, P x -> Q x) -> (length (filter P l) <= length (filter Q l))%nat.
Proof.
  intros HPQ. induction l as [|x l IH]; [done|].
  rewrite !filter_cons. destruct (decide (P x)) as [HP|HP].
  - rewrite decide_True by auto. cbn [length]. lia.
  - destruct (decide (Q x)); cbn [length]; lia.
Qed.

Lemma filter_nil_iff_all_None {A B : Type} (f : A -> option B) (l : list A) :
  Forall (fun x => is_Some (f x)) l -> filter (fun x => f x = None) l = [].
Proof.
  induction 1 as [|x l [y Hy] _ IH]; [done|].
  rewrite filter_cons, decide_False by congruence. done.
Qed.

Lemma filter_ext_elem {A : Type} (P Q : A -> Prop)
    `{forall x, Decision (P x)} `{forall x, Decision (Q x)} (l : list A) :
  (forall x, x ∈ l -> P x <-> Q x) -> filter P l = filter Q l.
Proof.
  induction l as [|x l IH]; intros HPQ; [done|].
  rewrite !filter_cons.
  assert (Hx : P x <-> Q x) by (apply HPQ, list_elem_of_here).
  rewrite IH by (intros y Hy; by apply HPQ, list_elem_of_further).
  destruct (decide (P x)), (decide (Q x)); tauto.
Qed.

Lemma process_assigned_view (s : State) (chunk : list (Row * option Z)) :
  view (process_assigned s chunk) = view (tally s chunk).
Proof.
  unfold process_assigned, tally, view.
  destruct (dropna chunk) as [|n kept] eqn:E; [done|].
  cbn [month_note_counts month_authors all_authors lang_note_counts
       lang_authors earliest_note_ms_by_tweet total_rows dropped_rows].
  rewrite (counter_fold_value_counts month_of).
  rewrite (authors_fold_groupby month_of author).
  rewrite (authors_fold_groupby lang_of author).
  rewrite all_authors_fold, earliest_fold_groupby.
  rewrite (list_to_map_foldl_dict_add fst snd).
  rewrite (counter_fold_value_counts lang_of).
  rewrite (list_to_map_foldl_dict_add lang_of (fun _ => 1)).
  done.
Qed.

Lemma process_chunk_view (s : State) (chunk : list Row) :
  view (process_chunk s chunk) = view (tally s (assign_note_ts chunk)).
Proof. apply process_assigned_view. Qed.

Lemma process_chunk_NoDup (s : State) (chunk : list Row) :
  NoDup (lang_note_counts s).*1 ->
  NoDup (lang_note_counts (process_chunk s chunk)).*1.
Proof.
  intros Hnd. unfold process_chunk, process_assigned.
  destruct (dropna (assign_note_ts chunk)) as [|n kept]; [done|].
  cbn [lang_note_counts]. by apply (foldl_dict_add_NoDup fst snd).
Qed.

Lemma tally_app (s : State) (rows1 rows2 : list (Row * option Z)) :
  tally (tally s rows1) rows2 = tally s (rows1 ++ rows2).
Proof.
  unfold tally. cbn [month_note_counts month_authors all_authors
    lang_note_counts lang_authors earliest_note_ms_by_tweet total_rows
    dropped_rows].
  unfold dropna. rewrite omap_app, !foldl_app, !length_app.
  f_equal; lia.
Qed.

Lemma tally_view (s1 s2 : State) (rows : list (Row * option Z)) :
  view s1 = view s2 -> view (tally s1 rows) = view (tally s2 rows).
Proof.
  unfold view, tally. intros Hv.
  cbn [month_note_counts month_authors all_authors lang_note_counts
       lang_authors earliest_note_ms_by_tweet total_rows dropped_rows].
  rewrite !(list_to_map_foldl_dict_add lang_of (fun _ => 1)).
  injection Hv as Ha Hb Hc Hd He Hf Hg Hh.
  by rewrite Ha, Hb, Hc, Hd, He, Hf, Hg, Hh.
Qed.

(** The loop leaves the accumulators of the one-pass reference over the
    chunks it took, each row with the [note_ts] of its chunk's parse. *)
Lemma loop_view (s : State) (cs : list (list Row)) :
  view (foldl process_chunk s cs)
  = view (tally s (concat (assign_note_ts <$> cs))).
Proof.
  revert s. induction cs as [|c cs IH]; intros s.
  - unfold tally, view. simpl. do 2 f_equal; lia.
  - cbn [foldl fmap list_fmap concat]. rewrite IH, <- tally_app.
    apply tally_view, process_chunk_view.
Qed.

Lemma length_assign_note_ts (chunk : list Row) :
  length (assign_note_ts chunk) = length chunk.
Proof.
  unfold assign_note_ts. rewrite length_zip_with, length_resize. lia.
Qed.

Lemma fst_assign_note_ts (chunk : list Row) : (assign_note_ts chunk).*1 = chunk.
Proof.
  unfold assign_note_ts. apply fst_zip. rewrite length_resize. lia.
Qed.

Lemma assigned_rows (chunksize : nat) (rows : list Row) :
  (1 <= chunksize)%nat -> (assigned chunksize rows).*1 = rows.
Proof.
  intros Hc. unfold assigned.
  rewrite <- (concat_chunks chunksize rows Hc) at 2.
  induction (chunks chunksize rows) as [|c cs IH]; [done|].
  cbn [fmap list_fmap concat]. by rewrite fmap_app, fst_assign_note_ts, IH.
Qed.

Lemma length_assigned (chunksize : nat) (rows : list Row) :
  (1 <= chunksize)%nat -> length (assigned chunksize rows) = length rows.
Proof.
  intros Hc. rewrite <- (assigned_rows chunksize rows Hc) at 2.
  by rewrite length_fmap.
Qed.

(** When the parser acts cell by cell on a chunk, the chunk's [note_ts]
    column is the cell-by-cell parse. *)
Lemma assign_note_ts_cellwise (parse1 : string -> option Z) (chunk : list Row) :
  cellwise parse1 chunk ->
  assign_note_ts chunk = (fun r => (r, parse1 (cell r))) <$> chunk.
Proof.
  unfold cellwise, assign_note_ts. intros ->.
  rewrite resize_all_alt by (by rewrite length_fmap).
  induction chunk as [|r chunk IH]; [done|].
  cbn [fmap list_fmap zip zip_with]. by rewrite IH.
Qed.

Lemma assigned_cellwise (parse1 : string -> option Z) (chunksize : nat)
    (rows : list Row) :
  (1 <= chunksize)%nat ->
  Forall (cellwise parse1) (chunks chunksize rows) ->
  assigned chunksize rows = (fun r => (r, parse1 (cell r))) <$> rows.
Proof.
  intros Hc Hall. unfold assigned.
  rewrite <- (concat_chunks chunksize rows Hc) at 2.
  induction Hall as [|c cs Hc' _ IH]; [done|].
  cbn [fmap list_fmap concat].
  by rewrite fmap_app, (assign_note_ts_cellwise parse1 c Hc'), IH.
Qed.

Lemma loop_NoDup (s : State) (cs : list (list Row)) :
  NoDup (lang_note_counts s).*1 ->
  NoDup (lang_note_counts (foldl process_chunk s cs)).*1.
Proof.
  revert s. induction cs as [|c cs IH]; intros s Hnd; [done|].
  cbn [foldl]. by apply IH, process_chunk_NoDup.
Qed.

Lemma run_view (chunksize : nat) (rows : list Row) :
  view (run chunksize rows) = view (tally init (assigned chunksize rows)).
Proof. unfold run, assigned. apply loop_view. Qed.

Lemma run_NoDup (chunksize : nat) (rows : list Row) :
  NoDup (lang_note_counts (run chunksize rows)).*1.
Proof. apply loop_NoDup. constructor. Qed.

(** *** The outputs as functions of the view *)

Lemma assemble_monthly_view (s1 s2 : State) :
  view s1 = view s2 -> assemble_monthly s1 = assemble_monthly s2.
Proof.
  unfold view, assemble_monthly. intros Hv.
  injection Hv as Ha Hb Hc Hd He Hf Hg Hh. by rewrite Ha, Hb, Hf.
Qed.

Lemma lang_rows_view (s1 s2 : State) :
  view s1 = view s2 ->
  NoDup (lang_note_counts s1).*1 -> NoDup (lang_note_counts s2).*1 ->
  lang_rows s1 ≡ₚ lang_rows s2.
Proof.
  unfold view, lang_rows. intros Hv Hnd1 Hnd2.
  injection Hv as Ha Hb Hc Hd He Hf Hg Hh.
  rewrite He, Hg. apply fmap_Permutation.
  by apply (list_to_map_inj (M := gmap string)).
Qed.

Lemma assemble_totals_view (s1 s2 : State) :
  view s1 = view s2 -> assemble_totals s1 = assemble_totals s2.
Proof.
  unfold view, assemble_totals. intros Hv.
  injection Hv as Ha Hb Hc Hd He Hf Hg Hh. by rewrite Hc, Hf, Hg, Hh.
Qed.

Lemma sort_lang_rows_Ok (rows : list LangRow) :
  rows <> [] ->
  exists df, sort_lang_rows rows = Ok df /\ df ≡ₚ rows /\ Sorted notes_descending df.
Proof.
  intros Hne. destruct rows as [|r rows]; [done|].
  eexists. split; [reflexivity|]. split; [apply sort_by_perm|].
  apply (sort_by_Sorted (fun a b => Lang_Notes b <=? Lang_Notes a)).
  intros a b Hab. apply Z.leb_le. apply Z.leb_gt in Hab. lia.
Qed.

(** Finalisation returns exactly when there is a month and a language. *)
Lemma finalize_Ok (s : State) :
  month_note_counts s <> ∅ ->
  lang_note_counts s <> [] ->
  exists df, finalize s = Ok (mkOutput (assemble_monthly s) (assemble_totals s) df)
             /\ df ≡ₚ lang_rows s /\ Sorted notes_descending df.
Proof.
  intros Hm Hne. unfold finalize.
  destruct (map_to_list (month_note_counts s)) as [|kv l] eqn:E.
  { by apply map_to_list_empty_iff in E. }
  destruct (sort_lang_rows_Ok (lang_rows s)) as (df & -> & Hp & Hs).
  - unfold lang_rows. by destruct (lang_note_counts s).
  - by exists df.
Qed.

Lemma finalize_Raise (s : State) :
  month_note_counts s = ∅ -> finalize s = Raise TypeError.
Proof. intros Hnil. unfold finalize. by rewrite Hnil, map_to_list_empty. Qed.

Lemma finalize_Ok_inv (s : State) (out : Output) :
  finalize s = Ok out ->
  month_note_counts s <> ∅ /\
  monthly out = assemble_monthly s /\ totals out = assemble_totals s /\
  lang_df out ≡ₚ lang_rows s /\ Sorted notes_descending (lang_df out).
Proof.
  unfold finalize.
  destruct (map_to_list (month_note_counts s)) as [|kv l] eqn:E; [done|].
  assert (Hm : month_note_counts s <> ∅).
  { intros Hnil. by rewrite Hnil, map_to_list_empty in E. }
  destruct (lang_rows s) as [|r rs] eqn:El; [done|].
  destruct (sort_lang_rows_Ok (r :: rs)) as (df & Hdf & Hp & Hs); [done|].
  rewrite Hdf. by intros [= <-].
Qed.

Lemma counter_fold_nonempty {X : Type} (g : X -> string) (m : gmap string Z)
    (l : list X) :
  l <> [] -> foldl (fun m x => counter_add m (g x) 1) m l <> ∅.
Proof.
  intros Hne. destruct (decide (l = [])) as [|_]; [done|].
  induction l as [|x l _] using rev_ind; [done|].
  rewrite foldl_app. simpl. unfold counter_add. apply insert_non_empty.
Qed.

(** The language tally and the monthly counts of a run are empty exactly
    when no row was retained. *)
Lemma run_lang_empty (chunksize : nat) (rows : list Row) :
  lang_note_counts (run chunksize rows) = []
  <-> dropna (assigned chunksize rows) = [].
Proof.
  pose proof (run_view chunksize rows) as Hv.
  unfold view, tally in Hv. cbn [lang_note_counts init] in Hv.
  injection Hv as _ _ _ Hd _ _ _ _.
  rewrite (list_to_map_foldl_dict_add lang_of (fun _ => 1)) in Hd.
  split.
  - intros Hnil. rewrite Hnil in Hd.
    destruct (dropna (assigned chunksize rows)) as [|n l] eqn:E; [done|].
    symmetry in Hd. by apply (counter_fold_nonempty lang_of) in Hd.
  - intros Hnil. rewrite Hnil in Hd. simpl in Hd.
    destruct (lang_note_counts (run chunksize rows)) as [|[k v] d]; [done|].
    simpl in Hd. by apply insert_non_empty in Hd.
Qed.

Lemma run_months_empty (chunksize : nat) (rows : list Row) :
  month_note_counts (run chunksize rows) = ∅
  <-> dropna (assigned chunksize rows) = [].
Proof.
  pose proof (run_view chunksize rows) as Hv.
  unfold view, tally in Hv. cbn [month_note_counts init] in Hv.
  injection Hv as Ha _ _ _ _ _ _ _. rewrite Ha. split.
  - intros Hnil.
    destruct (dropna (assigned chunksize rows)) as [|n l] eqn:E; [done|].
    by apply (counter_fold_nonempty month_of) in Hnil.
  - by intros ->.
Qed.

(** *** The reader *)

Lemma read_chunk_Ok (chunk : list Row) :
  ids_readable chunk -> read_chunk chunk = Ok chunk.
Proof.
  intros Hall. unfold read_chunk.
  destruct (existsb _ chunk) eqn:E1.
  { apply existsb_exists in E1 as (r & Hr & Hbad).
    apply list_elem_of_In in Hr.
    unfold ids_readable in Hall. rewrite Forall_forall in Hall.
    destruct (Hall r Hr) as (z & Hz & Hfit). rewrite Hz, Hfit in Hbad. discriminate. }
  match goal with |- context [existsb ?f chunk] =>
    destruct (existsb f chunk) eqn:E2 end; [|done].
  apply existsb_exists in E2 as (r & Hr & Hbad).
  apply list_elem_of_In in Hr.
  unfold ids_readable in Hall. rewrite Forall_forall in Hall.
  destruct (Hall r Hr) as (z & Hz & Hfit). rewrite Hz in Hbad. discriminate.
Qed.

Lemma read_chunk_Ok_inv (chunk chunk' : list Row) :
  read_chunk chunk = Ok chunk' -> chunk' = chunk /\ ids_readable chunk.
Proof.
  unfold read_chunk.
  destruct (existsb _ chunk) eqn:E1; [done|].
  match goal with |- context [existsb ?f chunk] =>
    destruct (existsb f chunk) eqn:E2 end; [done|].
  intros [= <-]. split; [done|]. apply Forall_forall. intros r Hr.
  apply list_elem_of_In in Hr.
  destruct (tweetId r) as [z|] eqn:Hz.
  - exists z. split; [done|].
    destruct (fits_int64 z) eqn:Hfit; [done|]. exfalso.
    assert (H : existsb (fun r => match tweetId r with
                                  | Some z => negb (fits_int64 z)
                                  | None => false
                                  end) chunk = true).
    { apply existsb_exists. exists r. by rewrite Hz, Hfit. }
    congruence.
  - exfalso.
    assert (H : existsb (fun r => match tweetId r with
                                  | Some _ => false
                                  | None => true
                                  end) chunk = true).
    { apply existsb_exists. exists r. by rewrite Hz. }
    congruence.
Qed.

(** A chunk whose ids all fit [int64] or are blank, with a blank one. *)
Lemma read_chunk_blank (chunk : list Row) :
  Forall (fun r => forall z, tweetId r = Some z -> fits_int64 z = true) chunk ->
  Exists (fun r => tweetId r = None) chunk ->
  read_chunk chunk = Raise ValueError.
Proof.
  intros Hall Hex. unfold read_chunk.
  destruct (existsb _ chunk) eqn:E1.
  { apply existsb_exists in E1 as (r & Hr & Hbad).
    apply list_elem_of_In in Hr. rewrite Forall_forall in Hall.
    destruct (tweetId r) as [z|] eqn:Hz; [|done].
    rewrite (Hall r Hr z Hz) in Hbad. discriminate. }
  match goal with |- context [existsb ?f chunk] =>
    destruct (existsb f chunk) eqn:E2 end; [done|].
  apply Exists_exists in Hex as (r & Hr & Hnone).
  assert (H : existsb (fun r => match tweetId r with
                                | Some _ => false
                                | None => true
                                end) chunk = true).
  { apply existsb_exists. exists r. apply list_elem_of_In in Hr. by rewrite Hnone. }
  congruence.
Qed.

Lemma read_loop_Ok (s : State) (cs : list (list Row)) :
  Forall ids_readable cs -> read_loop s cs = Ok (foldl process_chunk s cs).
Proof.
  intros Hall. revert s. induction Hall as [|c cs Hc _ IH]; intros s; [done|].
  cbn [read_loop foldl]. by rewrite (read_chunk_Ok c Hc), IH.
Qed.

Lemma read_loop_Ok_inv (s s' : State) (cs : list (list Row)) :
  read_loop s cs = Ok s' ->
  Forall ids_readable cs /\ s' = foldl process_chunk s cs.
Proof.
  revert s. induction cs as [|c cs IH]; intros s.
  - intros [= <-]. by split.
  - cbn [read_loop foldl]. destruct (read_chunk c) as [c'|e] eqn:E; [|done].
    apply read_chunk_Ok_inv in E as [-> Hc].
    intros [Hall ->]%IH. split; [by constructor|done].
Qed.

Lemma read_loop_blank (s : State) (cs : list (list Row)) :
  Forall (Forall (fun r => forall z, tweetId r = Some z -> fits_int64 z = true)) cs ->
  Exists (Exists (fun r => tweetId r = None)) cs ->
  read_loop s cs = Raise ValueError.
Proof.
  intros Hall. revert s. induction Hall as [|c cs Hc _ IH]; intros s Hex.
  - by apply Exists_nil in Hex.
  - cbn [read_loop].
    destruct (decide (Exists (fun r => tweetId r = None) c)) as [Hb|Hnb].
    + by rewrite (read_chunk_blank c Hc Hb).
    + rewrite read_chunk_Ok.
      * apply IH. apply Exists_cons in Hex as [?|?]; done.
      * apply Forall_forall. intros r Hr.
        destruct (tweetId r) as [z|] eqn:Hz.
        -- exists z. split; [done|].
           rewrite Forall_forall in Hc. by apply (Hc r Hr).
        -- exfalso. apply Hnb, Exists_exists. by exists r.
Qed.

Lemma Forall_chunks {A : Type} (P : A -> Prop) (n : nat) (l : list A) :
  (1 <= n)%nat -> Forall (Forall P) (chunks n l) <-> Forall P l.
Proof.
  intros Hn. rewrite <- (concat_chunks n l Hn) at 2.
  by rewrite Forall_concat.
Qed.

Lemma Exists_chunks {A : Type} (P : A -> Prop) (n : nat) (l : list A) :
  (1 <= n)%nat -> Exists (Exists P) (chunks n l) <-> Exists P l.
Proof.
  intros Hn. rewrite <- (concat_chunks n l Hn) at 2.
  induction (chunks n l) as [|c cs IH]; cbn [concat].
  - by rewrite !Exists_nil.
  - by rewrite Exists_cons, Exists_app, IH.
Qed.

Lemma compute_readable (rows : list Row) (chunksize : Z) :
  1 <= chunksize -> ids_readable rows ->
  compute_monthly_metrics rows chunksize
  = finalize (run (Z.to_nat chunksize) rows).
Proof.
  intros Hc Hids. unfold compute_monthly_metrics.
  destruct (Z.ltb_spec chunksize 1) as [?|_]; [lia|].
  rewrite read_loop_Ok; [done|].
  apply (Forall_chunks (fun r => exists z, tweetId r = Some z /\ fits_int64 z = true));
    [lia|done].
Qed.

(** C2. For a file whose subject ids are all readable and whose timestamps
    parse cell by cell in the chunks of both runs (each cell gets what it
    gets on its own, as when all cells share one format), any two chunk
    sizes of at least one end alike.  When some row is retained both runs
    return: the monthly table is the same list, the totals are the same
    record, and the language table has the same rows, sorted by descending
    [Notes] in both runs; the order among languages with equal [Notes] is
    not fixed by the chunk size.  When no row is retained both runs raise
    [TypeError]. *)
Theorem chunk_size_independence
    (rows : list Row) (c1 c2 : Z) (parse1 : string -> option Z) :
  1 <= c1 -> 1 <= c2 ->
  ids_readable rows ->
  Forall (cellwise parse1) (chunks (Z.to_nat c1) rows) ->
  Forall (cellwise parse1) (chunks (Z.to_nat c2) rows) ->
  let kept := dropna ((fun r => (r, parse1 (cell r))) <$> rows) in
  (kept <> [] ->
   exists o1 o2,
     compute_monthly_metrics rows c1 = Ok o1 /\
     compute_monthly_metrics rows c2 = Ok o2 /\
     monthly o1 = monthly o2 /\
     totals o1 = totals o2 /\
     lang_df o1 ≡ₚ lang_df o2 /\
     Sorted notes_descending (lang_df o1) /\
     Sorted notes_descending (lang_df o2)) /\
  (kept = [] ->
   compute_monthly_metrics rows c1 = Raise TypeError /\
   compute_monthly_metrics rows c2 = Raise TypeError).
Proof.
  intros H1 H2 Hids Hcw1 Hcw2 kept.
  rewrite !compute_readable by done.
  assert (Hn1 : (1 <= Z.to_nat c1)%nat) by lia.
  assert (Hn2 : (1 <= Z.to_nat c2)%nat) by lia.
  pose proof (assigned_cellwise parse1 _ rows Hn1 Hcw1) as Ha1.
  pose proof (assigned_cellwise parse1 _ rows Hn2 Hcw2) as Ha2.
  pose proof (run_view (Z.to_nat c1) rows) as Hv1.
  pose proof (run_view (Z.to_nat c2) rows) as Hv2.
  assert (Hv : view (run (Z.to_nat c1) rows) = view (run (Z.to_nat c2) rows))
    by (rewrite Hv1, Hv2, Ha1, Ha2; done).
  split.
  - intros Hne.
    destruct (finalize_Ok (run (Z.to_nat c1) rows)) as (df1 & -> & Hp1 & Hs1).
    { by rewrite run_months_empty, Ha1. }
    { by rewrite run_lang_empty, Ha1. }
    destruct (finalize_Ok (run (Z.to_nat c2) rows)) as (df2 & -> & Hp2 & Hs2).
    { by rewrite run_months_empty, Ha2. }
    { by rewrite run_lang_empty, Ha2. }
    eexists _, _. split; [reflexivity|]. split; [reflexivity|]. cbn [monthly totals lang_df].
    split; [by apply assemble_monthly_view|].
    split; [by apply assemble_totals_view|].
    split; [|done].
    rewrite Hp1, Hp2. apply lang_rows_view; [done|apply run_NoDup..].
  - intros Hnil. split; apply finalize_Raise; apply run_months_empty.
    + by rewrite Ha1.
    + by rewrite Ha2.
Qed.

(** *** Dropped rows *)

Lemma dropna_row_None (r : Row * option Z) :
  dropna_row r = None <->
  r.2 = None \/ noteAuthorParticipantId r.1 = None \/ tweetId r.1 = None.
Proof.
  unfold dropna_row.
  destruct (r.2), (noteAuthorParticipantId r.1), (tweetId r.1); naive_solver.
Qed.

Lemma dropna_skip (rows1 rows2 : list (Row * option Z)) (r : Row * option Z) :
  dropna_row r = None -> dropna (rows1 ++ r :: rows2) = dropna (rows1 ++ rows2).
Proof. intros Hr. unfold dropna. rewrite !omap_app. simpl. by rewrite Hr. Qed.

(** Taking only the rows that [dropna] keeps retains the same notes. *)
Lemma dropna_filter_kept (rows : list (Row * option Z)) :
  dropna (filter (fun r => is_Some (dropna_row r)) rows) = dropna rows.
Proof.
  unfold dropna. induction rows as [|r rows IH]; [done|].
  rewrite filter_cons. destruct (decide (is_Some (dropna_row r))) as [[n Hn]|Hno].
  - cbn [omap list_omap]. fold (omap dropna_row rows).
    fold (omap dropna_row (filter (fun r => is_Some (dropna_row r)) rows)).
    by rewrite Hn, IH.
  - cbn [omap list_omap]. fold (omap dropna_row rows).
    destruct (dropna_row r) eqn:E; [|done]. destruct Hno. by eexists.
Qed.

Lemma lang_core_rows (s : State) :
  lang_core <$> lang_rows s
  = (fun kv => (kv.1, kv.2, Z.of_nat (size (default ∅ (lang_authors s !! kv.1)))))
      <$> lang_note_counts s.
Proof. unfold lang_rows. rewrite <- list_fmap_compose. by apply list_fmap_ext. Qed.

Lemma compute_Ok_inv (rows : list Row) (chunksize : Z) (out : Output) :
  compute_monthly_metrics rows chunksize = Ok out ->
  1 <= chunksize /\ (1 <= Z.to_nat chunksize)%nat /\
  ids_readable rows /\
  dropna (assigned (Z.to_nat chunksize) rows) <> [] /\
  monthly out = assemble_monthly (run (Z.to_nat chunksize) rows) /\
  totals out = assemble_totals (run (Z.to_nat chunksize) rows) /\
  lang_df out ≡ₚ lang_rows (run (Z.to_nat chunksize) rows) /\
  Sorted notes_descending (lang_df out).
Proof.
  unfold compute_monthly_metrics.
  destruct (Z.ltb_spec chunksize 1) as [?|Hc]; [done|].
  assert (Hn : (1 <= Z.to_nat chunksize)%nat) by lia.
  destruct (read_loop init _) as [s|e] eqn:E; [|done].
  apply read_loop_Ok_inv in E as [Hids ->]. fold (run (Z.to_nat chunksize) rows).
  intros (Hm & ? & ? & ? & ?)%finalize_Ok_inv.
  split; [done|]. split; [done|].
  split; [by apply (Forall_chunks _ (Z.to_nat chunksize))|].
  split; [|done]. intros Hnil. by apply Hm, run_months_empty.
Qed.

(** In a file whose subject ids are readable, the rows that [dropna] drops
    are those with a NaT timestamp or a blank author. *)
Lemma dropped_filter (chunksize : nat) (rows : list Row) :
  (1 <= chunksize)%nat -> ids_readable rows ->
  filter (fun r => dropna_row r = None) (assigned chunksize rows)
  = filter (fun r => r.2 = None \/ noteAuthorParticipantId r.1 = None)
           (assigned chunksize rows).
Proof.
  intros Hn Hids. apply filter_ext_elem. intros r Hr. rewrite dropna_row_None.
  split; [|tauto]. intros [?|[?|Hid]]; [tauto..|]. exfalso.
  assert (Hin : r.1 ∈ rows).
  { rewrite <- (assigned_rows chunksize rows Hn).
    apply list_elem_of_fmap. by exists r. }
  unfold ids_readable in Hids. rewrite Forall_forall in Hids.
  destruct (Hids _ Hin) as (z & Hz & _). congruence.
Qed.

(** C1. In a chunk with its [note_ts] column, a row whose timestamp is NaT
    (its cell did not parse within the chunk) or whose author cell is blank
    is dropped: next to the same chunk without that row, [dropped_rows] and
    [total_rows] are one higher and every other accumulator is the same.
    Over a whole run that returns, [dropped_rows] is the number of such
    rows, the monthly table and the distinct-author and distinct-subject
    totals are those of the retained rows alone, and [total_notes] counts
    every row read, dropped ones included, and is the denominator of every
    [Notes_Share].  A row whose subject id is blank is not dropped: the
    reader raises [ValueError].  A run that retains no row raises
    [TypeError]. *)
Theorem dropped_row_accounting
    (s : State) (chunk1 chunk2 : list (Row * option Z)) (b : Row * option Z)
    (rows : list Row) (chunksize : Z) :
  b.2 = None \/ noteAuthorParticipantId b.1 = None ->
  1 <= chunksize ->
  let without := process_assigned s (chunk1 ++ chunk2) in
  let with_b := process_assigned s (chunk1 ++ b :: chunk2) in
  let read := assigned (Z.to_nat chunksize) rows in
  let kept_rows := filter (fun r => is_Some (dropna_row r)) read in
  (dropna (chunk1 ++ b :: chunk2) = dropna (chunk1 ++ chunk2) /\
   dropped_rows with_b = dropped_rows without + 1 /\
   total_rows with_b = total_rows without + 1 /\
   month_note_counts with_b = month_note_counts without /\
   month_authors with_b = month_authors without /\
   all_authors with_b = all_authors without /\
   lang_note_counts with_b = lang_note_counts without /\
   lang_authors with_b = lang_authors without /\
   earliest_note_ms_by_tweet with_b = earliest_note_ms_by_tweet without) /\
  (forall out,
     compute_monthly_metrics rows chunksize = Ok out ->
     read.*1 = rows /\
     totals_dropped_rows (totals out)
     = Z.of_nat (length (filter (fun r => r.2 = None
                                          \/ noteAuthorParticipantId r.1 = None)
                                read)) /\
     total_notes (totals out) = Z.of_nat (length rows) /\
     total_notes (totals out) - totals_dropped_rows (totals out)
     = Z.of_nat (length kept_rows) /\
     monthly out = assemble_monthly (process_assigned init kept_rows) /\
     total_contributors (totals out)
     = total_contributors (assemble_totals (process_assigned init kept_rows)) /\
     total_distinct_posts (totals out)
     = total_distinct_posts (assemble_totals (process_assigned init kept_rows)) /\
     lang_core <$> lang_df out
       ≡ₚ lang_core <$> lang_rows (process_assigned init kept_rows) /\
     Forall (fun row =>
               Notes_Share row
               = Some (inject_Z (Lang_Notes row) / inject_Z (Z.of_nat (length rows)))%Q)
            (lang_df out)) /\
  (Forall (fun r => forall z, tweetId r = Some z -> fits_int64 z = true) rows ->
   Exists (fun r => tweetId r = None) rows ->
   compute_monthly_metrics rows chunksize = Raise ValueError) /\
  (ids_readable rows -> dropna read = [] ->
   compute_monthly_metrics rows chunksize = Raise TypeError).
Proof.
  intros Hbad Hc without with_b read kept_rows.
  assert (Hn : (1 <= Z.to_nat chunksize)%nat) by lia.
  split; [|split; [|split]].
  - assert (Hnone : dropna_row b = None).
    { apply dropna_row_None. tauto. }
    pose proof (dropna_skip chunk1 chunk2 b Hnone) as Hskip.
    split; [exact Hskip|].
    unfold with_b, without, process_assigned. rewrite Hskip.
    destruct (dropna (chunk1 ++ chunk2)) as [|n kept];
      cbn [dropped_rows total_rows month_note_counts month_authors all_authors
           lang_note_counts lang_authors earliest_note_ms_by_tweet];
      rewrite !length_app; cbn [length]; repeat split; lia.
  - intros out (_ & _ & Hids & Hne & Hm & Ht & Hl & _)%compute_Ok_inv.
    pose proof (run_view (Z.to_nat chunksize) rows) as Hv.
    pose proof (process_assigned_view init kept_rows) as Hk.
    fold read in Hv. unfold view, tally in Hv, Hk.
    assert (Hdk : dropna kept_rows = dropna read) by apply dropna_filter_kept.
    rewrite Hdk in Hk.
    injection Hv as Ha Hb Hc' Hd He Hf Hg Hh.
    injection Hk as Ha' Hb' Hc'' Hd' He' Hf' _ _.
    rewrite <- Ha' in Ha. rewrite <- Hb' in Hb. rewrite <- Hc'' in Hc'.
    rewrite <- Hd' in Hd. rewrite <- He' in He. rewrite <- Hf' in Hf.
    cbn [init total_rows dropped_rows] in Hg, Hh.
    pose proof (assigned_rows _ rows Hn) as Hfst. fold read in Hfst.
    pose proof (length_assigned _ rows Hn) as Hlen. fold read in Hlen.
    pose proof (length_omap_filter_None dropna_row read) as Hcount.
    fold (dropna read) in Hcount.
    assert (Hkept : length kept_rows = length (dropna read)).
    { unfold kept_rows, dropna. clear. induction read as [|r l IH]; [done|].
      rewrite filter_cons. cbn [omap list_omap]. fold (omap dropna_row l).
      destruct (dropna_row r) eqn:E.
      - rewrite decide_True by (by eexists). cbn [length]. by rewrite IH.
      - rewrite decide_False by (by intros [? ?]). done. }
    pose proof (dropped_filter _ rows Hn Hids) as Hdropped.
    fold read in Hdropped. rewrite Hdropped in Hcount.
    rewrite Ht, Hm. cbn [assemble_totals totals_dropped_rows total_notes
                         total_contributors total_distinct_posts].
    rewrite Hg, Hh, Hc', Hf, Hlen.
    split; [done|]. split; [lia|]. split; [lia|]. split; [lia|].
    split; [unfold assemble_monthly; by rewrite Ha, Hb, Hf|].
    split; [done|]. split; [done|]. split.
    + rewrite Hl, !lang_core_rows, He.
      apply fmap_Permutation.
      apply (list_to_map_inj (M := gmap string)); [apply run_NoDup| |done].
      unfold process_assigned. destruct (dropna kept_rows); [constructor|].
      cbn [lang_note_counts]. apply (foldl_dict_add_NoDup fst snd). constructor.
    + rewrite Hl. unfold lang_rows. apply Forall_fmap, Forall_forall.
      intros kv _. simpl. rewrite Hg, Hlen.
      destruct (Z.eqb_spec (0 + Z.of_nat (length rows)) 0) as [Hz|_].
      * exfalso. apply Hne. rewrite Z.add_0_l in Hz.
        assert (Hr0 : length read = 0%nat) by lia.
        apply nil_length_inv in Hr0. fold read. by rewrite Hr0.
      * by rewrite Z.add_0_l.
  - intros Hfit Hblank. unfold compute_monthly_metrics.
    destruct (Z.ltb_spec chunksize 1) as [?|_]; [lia|].
    rewrite read_loop_blank; [done| |].
    + by apply (Forall_chunks
                  (fun r => forall z, tweetId r = Some z -> fits_int64 z = true)).
    + by apply (Exists_chunks (fun r => tweetId r = None)).
  - intros Hids Hnil. rewrite compute_readable by done.
    by apply finalize_Raise, run_months_empty.
Qed.

(** *** The per-subject minimum *)

Lemma list_min_spec (x : Z) (l : list Z) :
  list_min x l ∈ x :: l /\ Forall (fun y => list_min x l <= y) (x :: l).
Proof.
  revert x. induction l as [|y l IH]; intros x.
  - split; [apply list_elem_of_here|]. repeat constructor. unfold list_min. simpl. lia.
  - change (list_min x (y :: l)) with (list_min (Z.min x y) l).
    destruct (IH (Z.min x y)) as [Hin Hall].
    apply Forall_cons in Hall as [Hhd Hall]. split.
    + apply elem_of_cons in Hin as [Heq|Hin].
      * rewrite Heq. destruct (Z.min_spec x y) as [[_ ->]|[_ ->]].
        -- apply list_elem_of_here.
        -- apply list_elem_of_further, list_elem_of_here.
      * by do 2 apply list_elem_of_further.
    + repeat (apply Forall_cons; split); [lia|lia|done].
Qed.

(** Folding [fmin] over the times filed under a subject leaves their
    minimum, taken together with the stored value when there is one. *)
Lemma fold_opt_fmin_None (vals : list Z) :
  is_global_min vals (fold_opt fmin None vals).
Proof.
  destruct vals as [|x l]; [done|].
  rewrite fold_opt_fmin. simpl. apply list_min_spec.
Qed.

Lemma fold_opt_fmin_Some (prev : Z) (vals : list Z) :
  exists now, fold_opt fmin (Some prev) vals = Some now /\
              (now = prev \/ now < prev).
Proof.
  destruct vals as [|x l]; [exists prev; by split; [|left]|].
  rewrite fold_opt_fmin, fmin_Some. eexists. split; [done|]. lia.
Qed.

Lemma is_global_min_perm (l l' : list Z) (o o' : option Z) :
  l ≡ₚ l' -> is_global_min l o -> is_global_min l' o' -> o = o'.
Proof.
  intros Hp Ho Ho'. destruct o as [m|], o' as [m'|]; simpl in *.
  - destruct Ho as [Hin Hall], Ho' as [Hin' Hall'].
    rewrite Forall_forall in Hall, Hall'.
    rewrite <- Hp in Hin'. rewrite Hp in Hin.
    pose proof (Hall _ Hin'). pose proof (Hall' _ Hin). f_equal. lia.
  - subst. destruct Ho as [Hin _]. apply Permutation_nil_r in Hp. subst.
    by apply elem_of_nil in Hin.
  - subst. destruct Ho' as [Hin _]. symmetry in Hp.
    apply Permutation_nil_r in Hp. subst. by apply elem_of_nil in Hin.
  - done.
Qed.

Lemma earliest_lookup_fold (m : gmap Z Z) (l : list Note) (tid : Z) :
  foldl (fun m n => earliest_merge m (tweet n) (note_ms n)) m l !! tid
  = fold_opt fmin (m !! tid) (note_ms <$> filter (fun n => tweet n = tid) l).
Proof.
  rewrite (foldl_ext_in (fun m n => earliest_merge m (tweet n) (note_ms n))
             (fun m n => <[tweet n := fmin (m !! tweet n) (note_ms n)]> m))
    by (intros; apply earliest_merge_insert).
  exact (fold_keyed_lookup fmin tweet note_ms m l tid).
Qed.

Lemma process_chunk_earliest (s : State) (chunk : list Row) :
  earliest_note_ms_by_tweet (process_chunk s chunk)
  = foldl (fun m n => earliest_merge m (tweet n) (note_ms n))
          (earliest_note_ms_by_tweet s) (dropna (assign_note_ts chunk)).
Proof.
  pose proof (process_chunk_view s chunk) as Hv. unfold view, tally in Hv.
  by injection Hv as _ _ _ _ _ -> _ _.
Qed.

Lemma loop_earliest (cs : list (list Row)) (tid : Z) :
  is_global_min (subject_times tid (concat (assign_note_ts <$> cs)))
                (earliest_note_ms_by_tweet (foldl process_chunk init cs) !! tid).
Proof.
  pose proof (loop_view init cs) as Hv. unfold view, tally in Hv.
  injection Hv as _ _ _ _ _ -> _ _.
  rewrite earliest_lookup_fold. cbn [earliest_note_ms_by_tweet init].
  rewrite lookup_empty. apply fold_opt_fmin_None.
Qed.

Lemma concat_perm {A : Type} (cs cs' : list (list A)) :
  cs ≡ₚ cs' -> concat cs ≡ₚ concat cs'.
Proof.
  induction 1 as [|c cs cs' _ IH|c c' cs|cs cs' cs'' _ IH1 _ IH2]; simpl.
  - done.
  - by rewrite IH.
  - rewrite !app_assoc. f_equiv. apply Permutation_app_comm.
  - by rewrite IH1.
Qed.

(** C4. While chunks are processed, the time recorded for a subject never
    goes up: after a chunk it is the value stored before or a strictly
    earlier one.  The recorded times after all chunks do not depend on the
    order in which the same chunks are presented, and for every subject the
    recorded time is the least timestamp among all retained events of that
    subject, each chunk parsed on its own (no entry when the subject has no
    retained event). *)
Theorem earliest_event_time_is_running_min
    (s : State) (chunk : list Row) (tid prev : Z) (cs cs' : list (list Row)) :
  earliest_note_ms_by_tweet s !! tid = Some prev ->
  cs ≡ₚ cs' ->
  (exists now,
     earliest_note_ms_by_tweet (process_chunk s chunk) !! tid = Some now /\
     (now = prev \/ now < prev)) /\
  earliest_note_ms_by_tweet (foldl process_chunk init cs)
    = earliest_note_ms_by_tweet (foldl process_chunk init cs') /\
  (forall t,
     is_global_min (subject_times t (concat (assign_note_ts <$> cs)))
       (earliest_note_ms_by_tweet (foldl process_chunk init cs) !! t)).
Proof.
  intros Hprev Hperm. repeat split.
  - rewrite process_chunk_earliest, earliest_lookup_fold, Hprev.
    apply fold_opt_fmin_Some.
  - apply map_eq. intros t.
    apply (is_global_min_perm
             (subject_times t (concat (assign_note_ts <$> cs)))
             (subject_times t (concat (assign_note_ts <$> cs')))).
    + unfold subject_times, dropna.
      by rewrite (concat_perm _ _ (fmap_Permutation assign_note_ts _ _ Hperm)).
    + apply loop_earliest.
    + apply loop_earliest.
  - intros t. apply loop_earliest.
Qed.

(** *** Finalisation: notes per author and the monthly medians *)

Lemma finalize_monthly (s : State) (out : Output) :
  finalize s = Ok out -> monthly out = assemble_monthly s.
Proof.
  by intros (_ & ? & _)%finalize_Ok_inv.
Qed.

(** C5. In the monthly table that finalisation builds from any
    accumulators, a month with no distinct author has a missing (NaN)
    [Notes_per_Author], and every other month has its count divided by its
    number of distinct authors. *)
Theorem notes_per_author_missing_or_quotient
    (s : State) (out : Output) (row : MonthlyRow) :
  finalize s = Ok out ->
  row ∈ monthly out ->
  (Active_Authors row = 0 -> Notes_per_Author row = nan) /\
  (Active_Authors row <> 0 ->
   Notes_per_Author row
   = Some (inject_Z (Notes row) / inject_Z (Active_Authors row))%Q).
Proof.
  intros Hfin Hrow. rewrite (finalize_monthly s out Hfin) in Hrow.
  unfold assemble_monthly in Hrow.
  apply list_elem_of_fmap in Hrow as (m & -> & _).
  cbn [Active_Authors Notes_per_Author Notes].
  unfold fdiv_int, replace_zero_nan.
  destruct (Z.eqb_spec (Z.of_nat (size (default ∅ (month_authors s !! m)))) 0)
    as [Hz|Hnz]; split; intros; done.
Qed.

Lemma df_first_all_rows (earliest : gmap Z Z) :
  df_first_all earliest
  = (fun p => (first_month p.2, subject_delta p.1 p.2)) <$> map_to_list earliest.
Proof.
  unfold df_first_all, delta_hours, _tweet_id_to_timestamp_ms.
  induction (map_to_list earliest) as [|[tid ms] items IH]; [done|].
  cbn [fmap list_fmap zip zip_with fst snd] in *. by rewrite IH.
Qed.

(** The sign of a delta in hours is the sign of the difference in
    milliseconds. *)
Lemma subject_delta_nonneg (tid first_note_ms : Z) :
  fge0 (subject_delta tid first_note_ms) = true
  <-> 0 <= first_note_ms - tweet_id_to_timestamp_ms1 tid.
Proof.
  unfold subject_delta, fge0. rewrite Qle_bool_iff.
  generalize (first_note_ms - tweet_id_to_timestamp_ms1 tid). intros d.
  unfold Qle, Qdiv, Qmult, Qinv, inject_Z, HOUR_MS. simpl. lia.
Qed.

Lemma elem_of_df_first (earliest : gmap Z Z) (m : string) (x : Float) :
  (m, x) ∈ df_first earliest <->
  exists tid first_note_ms,
    earliest !! tid = Some first_note_ms /\
    first_month first_note_ms = m /\
    subject_delta tid first_note_ms = x /\
    0 <= first_note_ms - tweet_id_to_timestamp_ms1 tid.
Proof.
  unfold df_first. rewrite list_elem_of_filter, df_first_all_rows, list_elem_of_fmap.
  split.
  - intros (Hok & [tid ms] & [= -> ->] & Hin). cbn [fst snd] in *.
    apply elem_of_map_to_list in Hin.
    exists tid, ms. repeat split; [done|]. by apply subject_delta_nonneg.
  - intros (tid & ms & Hin & <- & <- & Hge). split.
    + cbn [snd]. apply subject_delta_nonneg in Hge. by rewrite Hge.
    + exists (tid, ms). split; [done|]. by apply elem_of_map_to_list.
Qed.

Lemma elem_of_retained_deltas (earliest : gmap Z Z) (m : string) (q : Q) :
  q ∈ retained_deltas earliest m <-> (m, Some q) ∈ df_first earliest.
Proof.
  unfold retained_deltas, values_of.
  rewrite list_elem_of_omap. split.
  - intros (x & Hx & Hq). simpl in Hq. subst x.
    apply list_elem_of_fmap in Hx as ([m' x] & -> & Hin).
    apply list_elem_of_filter in Hin as [Hm Hin]. simpl in *. by subst.
  - intros Hin. exists (Some q). split; [|done].
    apply list_elem_of_fmap. exists (m, Some q). split; [done|].
    by apply list_elem_of_filter.
Qed.

Lemma alookup_filter {K B : Type} `{EqDecision K} (k : K) (l : list (K * B)) :
  alookup k l = snd <$> head (filter (fun p => p.1 = k) l).
Proof.
  induction l as [|[k' b] l IH]; [done|].
  cbn [alookup]. rewrite filter_cons. simpl. by destruct (decide (k' = k)).
Qed.

Lemma filter_key_fmap_snd {K B C : Type} `{EqDecision K} (h : B -> C) (k : K)
    (l : list (K * B)) :
  filter (fun p : K * C => p.1 = k) ((fun g => (g.1, h g.2)) <$> l)
  = (fun g => (g.1, h g.2)) <$> filter (fun p => p.1 = k) l.
Proof.
  induction l as [|[k' b] l IH]; [done|].
  rewrite fmap_cons, !filter_cons. simpl.
  destruct (decide (k' = k)); by rewrite IH.
Qed.

Lemma first_median_lookup (earliest : gmap Z Z) (m : string) :
  default nan (alookup m (first_median earliest))
  = median (retained_deltas earliest m).
Proof.
  unfold first_median, retained_deltas.
  rewrite alookup_filter, (filter_key_fmap_snd (fun vs => median (omap id vs))).
  rewrite filter_key_groupby.
  case_decide as Hin; [reflexivity|].
  apply values_of_nil_iff in Hin. by rewrite Hin.
Qed.

(** The deltas entering a month, in the order of the subjects. *)
Lemma retained_deltas_qualifying (earliest : gmap Z Z) (m : string) :
  Some <$> retained_deltas earliest m
  = (fun p => subject_delta p.1 p.2) <$> qualifying_subjects earliest m.
Proof.
  unfold retained_deltas, values_of, df_first, qualifying_subjects.
  rewrite df_first_all_rows.
  induction (map_to_list earliest) as [|[tid ms] items IH]; [done|].
  rewrite fmap_cons, !(filter_cons _ (_, _)). cbn [fst snd].
  pose proof (subject_delta_nonneg tid ms) as Hsign.
  destruct (decide (0 <= ms - tweet_id_to_timestamp_ms1 tid)) as [Hge|Hlt].
  - rewrite decide_True by (apply Hsign in Hge; by rewrite Hge).
    rewrite filter_cons. cbn [fst].
    destruct (decide (first_month ms = m)) as [Hm|Hm].
    + rewrite decide_True by done.
      rewrite !fmap_cons. cbn [omap list_omap fst snd subject_delta id].
      rewrite fmap_cons. f_equal. exact IH.
    + rewrite decide_False by tauto. exact IH.
  - rewrite decide_False.
    2:{ intros Hok. apply Hlt, Hsign.
        unfold subject_delta in *. cbn [notna andb] in Hok. done. }
    rewrite decide_False by tauto. exact IH.
Qed.

(** C6. For any accumulators and any month of the final table, the deltas
    that enter the month's median are the deltas of the subjects whose
    earliest note falls in that month and whose delta (earliest note minus
    decoded creation time) is not negative, one delta per such subject and
    no other, with no upper bound on the delta; the quotient in hours is
    always a number, so no subject is lost as unparsable.  The month's
    median is the median of those deltas: missing (NaN) when there is
    none, a number otherwise. *)
Theorem median_time_to_first_note
    (s : State) (out : Output) (row : MonthlyRow) :
  finalize s = Ok out ->
  row ∈ monthly out ->
  let earliest := earliest_note_ms_by_tweet s in
  let entering := retained_deltas earliest (Month row) in
  Some <$> entering
    ≡ₚ (fun p => subject_delta p.1 p.2)
         <$> qualifying_subjects earliest (Month row) /\
  (forall tid first_note_ms,
     (tid, first_note_ms) ∈ qualifying_subjects earliest (Month row) <->
     earliest !! tid = Some first_note_ms /\
     first_month first_note_ms = Month row /\
     0 <= first_note_ms - tweet_id_to_timestamp_ms1 tid) /\
  NoDup (qualifying_subjects earliest (Month row)).*1 /\
  (forall q, q ∈ entering <->
     exists tid first_note_ms,
       earliest !! tid = Some first_note_ms /\
       first_month first_note_ms = Month row /\
       subject_delta tid first_note_ms = Some q /\
       0 <= first_note_ms - tweet_id_to_timestamp_ms1 tid) /\
  (forall tid first_note_ms, is_Some (subject_delta tid first_note_ms)) /\
  Median_TimeToFirstNote_hours row = median entering /\
  (entering = [] -> Median_TimeToFirstNote_hours row = nan) /\
  (entering <> [] -> is_Some (Median_TimeToFirstNote_hours row)).
Proof.
  intros Hfin Hrow earliest entering.
  rewrite (finalize_monthly s out Hfin) in Hrow.
  unfold assemble_monthly in Hrow.
  apply list_elem_of_fmap in Hrow as (m & -> & _).
  cbn [Month Median_TimeToFirstNote_hours] in *.
  fold earliest. rewrite first_median_lookup. fold entering.
  split; [|split; [|split; [|split; [|split; [|split; [|split]]]]]].
  - unfold entering. by rewrite retained_deltas_qualifying.
  - intros tid ms. unfold qualifying_subjects.
    rewrite list_elem_of_filter, elem_of_map_to_list. cbn [fst snd]. tauto.
  - unfold qualifying_subjects.
    apply (sublist_NoDup _ (map_to_list earliest).*1);
      [apply NoDup_fst_map_to_list|apply fmap_sublist, sublist_filter].
  - intros q. unfold entering.
    by rewrite elem_of_retained_deltas, elem_of_df_first.
  - intros tid ms. by eexists.
  - done.
  - by intros ->.
  - apply median_is_Some.
Qed.

(** *** Further properties of the aggregator: what the tables count *)

(** The retained notes of one month, and of one language, among rows read
    with their [note_ts]. *)
Definition notes_in_month (m : string) (rows : list (Row * option Z)) : list Note :=
  filter (fun n => month_of n = m) (dropna rows).
Definition notes_in_language (l : string) (rows : list (Row * option Z)) : list Note :=
  filter (fun n => lang_of n = l) (dropna rows).

(** Number of distinct values of a column. *)
Definition nunique {K : Type} `{EqDecision K} (l : list K) : Z :=
  Z.of_nat (length (unique l)).

Definition sumZ (l : list Z) : Z := foldr Z.add 0 l.

Lemma sumZ_perm (l l' : list Z) : l ≡ₚ l' -> sumZ l = sumZ l'.
Proof. unfold sumZ. induction 1; simpl in *; lia. Qed.

Lemma sumZ_cons (x : Z) (l : list Z) : sumZ (x :: l) = x + sumZ l.
Proof. reflexivity. Qed.

Lemma size_list_to_set_unique {K : Type} `{Countable K} (l : list K) :
  size (list_to_set l : gset K) = length (unique l).
Proof.
  rewrite <- (size_list_to_set (C := gset K) (unique l)) by apply NoDup_unique.
  f_equal. apply set_eq. intros x. rewrite !elem_of_list_to_set.
  symmetry. apply elem_of_unique.
Qed.

Lemma length_unique_le {K : Type} `{EqDecision K} (l : list K) :
  (length (unique l) <= length l)%nat.
Proof.
  induction l as [|x l IH]; simpl; [lia|].
  pose proof (length_filter (fun y => y <> x) (unique l)). lia.
Qed.

Lemma map_sum_counter_add (m : gmap string Z) (k : string) (v : Z) :
  sumZ (map_to_list (counter_add m k v)).*2 = sumZ (map_to_list m).*2 + v.
Proof.
  unfold counter_add. destruct (m !! k) as [x|] eqn:E; simpl.
  - rewrite <- (insert_delete_eq m).
    rewrite (sumZ_perm _ _ (fmap_Permutation snd _ _
               (map_to_list_insert (delete k m) k (x + v) (lookup_delete_eq m k)))).
    rewrite <- (sumZ_perm _ _ (fmap_Permutation snd _ _
               (map_to_list_delete m k x E))).
    rewrite !fmap_cons, !sumZ_cons. cbn [snd]. lia.
  - rewrite (sumZ_perm _ _ (fmap_Permutation snd _ _
               (map_to_list_insert m k (0 + v) E))).
    rewrite fmap_cons, sumZ_cons. cbn [snd]. lia.
Qed.

Lemma map_sum_counter_fold {X : Type} (g : X -> string) (m : gmap string Z)
    (l : list X) :
  sumZ (map_to_list (foldl (fun m x => counter_add m (g x) 1) m l)).*2
  = sumZ (map_to_list m).*2 + Z.of_nat (length l).
Proof.
  revert m. induction l as [|x l IH]; intros m; [simpl; lia|].
  cbn [foldl]. rewrite IH, map_sum_counter_add. simpl length. lia.
Qed.

(** The entry of a key in a counter fed one row at a time. *)
Lemma counter_fold_lookup {X : Type} (g : X -> string) (l : list X) (k : string) :
  foldl (fun m x => counter_add m (g x) 1) (∅ : gmap string Z) l !! k
  = match filter (fun x => g x = k) l with
    | [] => None
    | (_ :: _) as xs => Some (Z.of_nat (length xs))
    end.
Proof.
  unfold counter_add.
  etransitivity;
    [exact (fold_keyed_lookup (fun o v => default 0 o + v) g (fun _ => 1) ∅ l k)|].
  rewrite fold_opt_ones, lookup_empty.
  by destruct (filter (fun x => g x = k) l).
Qed.

Lemma authors_fold_lookup {X : Type} (g : X -> string) (h : X -> string)
    (l : list X) (k : string) :
  foldl (fun m x => authors_update m (g x) [h x]) (∅ : gmap string (gset string)) l !! k
  = match filter (fun x => g x = k) l with
    | [] => None
    | (_ :: _) as xs => Some (list_to_set (h <$> xs))
    end.
Proof.
  unfold authors_update.
  etransitivity;
    [exact (fold_keyed_lookup (fun o vals => default ∅ o ∪ list_to_set vals)
              g (fun x => [h x]) ∅ l k)|].
  rewrite (list_fmap_compose h (fun v => [v])), fold_opt_union, lookup_empty.
  destruct (filter (fun x => g x = k) l) as [|x xs]; [done|].
  cbn [fmap list_fmap]. f_equal. set_solver.
Qed.

Lemma all_authors_fold_set (a : gset string) (l : list Note) :
  foldl (fun a n => a ∪ {[author n]}) a l = a ∪ list_to_set (author <$> l).
Proof.
  revert a. induction l as [|n l IH]; intros a; simpl; [set_solver|].
  rewrite IH. set_solver.
Qed.

(** What a run leaves in each accumulator, read off the rows it retained. *)
Lemma run_accumulators (chunksize : nat) (rows : list Row) :
  (1 <= chunksize)%nat ->
  let s := run chunksize rows in
  let read := assigned chunksize rows in
  (forall m, month_note_counts s !! m
             = match notes_in_month m read with
               | [] => None
               | (_ :: _) as ns => Some (Z.of_nat (length ns))
               end) /\
  (forall m, month_authors s !! m
             = match notes_in_month m read with
               | [] => None
               | (_ :: _) as ns => Some (list_to_set (author <$> ns))
               end) /\
  all_authors s = list_to_set (author <$> dropna read) /\
  (forall l, (list_to_map (lang_note_counts s) : gmap string Z) !! l
             = match notes_in_language l read with
               | [] => None
               | (_ :: _) as ns => Some (Z.of_nat (length ns))
               end) /\
  (forall l, lang_authors s !! l
             = match notes_in_language l read with
               | [] => None
               | (_ :: _) as ns => Some (list_to_set (author <$> ns))
               end) /\
  total_rows s = Z.of_nat (length rows) /\
  dropped_rows s = Z.of_nat (length rows) - Z.of_nat (length (dropna read)).
Proof.
  intros Hc s read. pose proof (run_view chunksize rows) as Hv.
  fold s in Hv. fold read in Hv.
  pose proof (length_assigned chunksize rows Hc) as Hlen. fold read in Hlen.
  unfold view, tally in Hv.
  injection Hv as Ha Hb Hc' Hd He Hf Hg Hh.
  rewrite (list_to_map_foldl_dict_add lang_of (fun _ => 1)) in Hd.
  rewrite Ha, Hb, Hc', Hd, He, Hg, Hh. cbn [init month_note_counts month_authors
    all_authors lang_note_counts lang_authors total_rows dropped_rows list_to_map foldr].
  split; [intros m; apply counter_fold_lookup|].
  split; [intros m; apply authors_fold_lookup|].
  split; [rewrite all_authors_fold_set; set_solver|].
  split; [intros l; apply counter_fold_lookup|].
  split; [intros l; apply authors_fold_lookup|].
  split; lia.
Qed.

Lemma elem_of_assemble_monthly (s : State) (row : MonthlyRow) :
  row ∈ assemble_monthly s ->
  is_Some (month_note_counts s !! Month row) /\
  Notes row = default 0 (month_note_counts s !! Month row) /\
  Active_Authors row
  = Z.of_nat (size (default ∅ (month_authors s !! Month row))) /\
  Notes_per_Author row = fdiv_int (Notes row) (replace_zero_nan (Active_Authors row)) /\
  Median_TimeToFirstNote_hours row
  = median (retained_deltas (earliest_note_ms_by_tweet s) (Month row)).
Proof.
  unfold assemble_monthly. intros (m & -> & Hm)%list_elem_of_fmap.
  cbn [Month Notes Active_Authors Notes_per_Author Median_TimeToFirstNote_hours].
  rewrite first_median_lookup. repeat split.
  rewrite sort_by_perm in Hm.
  apply list_elem_of_fmap in Hm as ([k v] & -> & Hkv).
  apply elem_of_map_to_list in Hkv. by eexists.
Qed.

Lemma assemble_monthly_months (s : State) :
  Month <$> assemble_monthly s
  = sort_by String.leb (map_to_list (month_note_counts s)).*1.
Proof.
  unfold assemble_monthly. rewrite <- list_fmap_compose.
  rewrite <- (list_fmap_id (sort_by _ _)) at 2. by apply list_fmap_ext.
Qed.

Lemma one_le_quotient (n a : Z) :
  1 <= a -> a <= n -> (1 <= inject_Z n / inject_Z a)%Q.
Proof.
  intros Ha Han. apply Qle_shift_div_l.
  - change 0%Q with (inject_Z 0). rewrite <- Zlt_Qlt. lia.
  - rewrite Qmult_1_l. rewrite <- Zle_Qle. lia.
Qed.

(** X1. In the monthly table of a run that returns, the row of a month
    counts the notes the run retained in that month and the distinct
    authors among them; there is at least one author and at most one per note, so
    [Notes_per_Author] is a number, at least 1. *)
Theorem monthly_row_counts
    (rows : list Row) (chunksize : Z) (out : Output) (row : MonthlyRow) :
  compute_monthly_metrics rows chunksize = Ok out ->
  row ∈ monthly out ->
  let read := assigned (Z.to_nat chunksize) rows in
  let ns := notes_in_month (Month row) read in
  ns <> [] /\
  Notes row = Z.of_nat (length ns) /\
  Active_Authors row = nunique (author <$> ns) /\
  1 <= Active_Authors row <= Notes row /\
  exists q, Notes_per_Author row = Some q /\ (1 <= q)%Q.
Proof.
  intros (_ & Hn & Hids & _ & Hm & _)%compute_Ok_inv Hrow read ns.
  rewrite Hm in Hrow.
  apply elem_of_assemble_monthly in Hrow as ([v Hv] & HN & HA & HQ & _).
  destruct (run_accumulators _ rows Hn) as (Hcnt & Haut & _).
  rewrite Hcnt in Hv, HN. rewrite Haut in HA.
  fold read in Hv, HN, HA. fold ns in Hv, HN, HA.
  destruct ns as [|n ns'] eqn:E; [done|].
  cbn [default] in HN, HA. unfold id in HN, HA.
  rewrite size_list_to_set_unique in HA.
  pose proof (length_unique_le (author <$> n :: ns')) as Hle.
  rewrite length_fmap in Hle.
  assert (Hpos : (1 <= length (unique (author <$> n :: ns')))%nat) by (simpl; lia).
  split; [done|]. split; [done|]. split; [done|].
  split; [unfold nunique in *; lia|].
  rewrite HQ. unfold replace_zero_nan, fdiv_int.
  destruct (Z.eqb_spec (Active_Authors row) 0) as [Hz|_]; [lia|].
  eexists. split; [reflexivity|]. apply one_le_quotient; lia.
Qed.

Lemma Sorted_fmap {A B : Type} (f : A -> B) (R : B -> B -> Prop) (l : list A) :
  Sorted (fun a b => R (f a) (f b)) l -> Sorted R (f <$> l).
Proof.
  induction 1 as [|x l Hs IH Hhd]; [constructor|].
  rewrite fmap_cons. constructor; [done|].
  destruct Hhd; constructor; done.
Qed.

(** X2. The monthly table of a run that returns has one row for each month
    in which a retained note is dated and no other row, and is in ascending
    order of month label. *)
Theorem monthly_table_months
    (rows : list Row) (chunksize : Z) (out : Output) :
  compute_monthly_metrics rows chunksize = Ok out ->
  let read := assigned (Z.to_nat chunksize) rows in
  (forall m, m ∈ Month <$> monthly out <-> notes_in_month m read <> []) /\
  NoDup (Month <$> monthly out) /\
  Sorted (fun a b => String.leb a b = true) (Month <$> monthly out).
Proof.
  intros (_ & Hn & Hids & _ & Hm & _)%compute_Ok_inv read.
  rewrite Hm, assemble_monthly_months.
  destruct (run_accumulators _ rows Hn) as (Hcnt & _). fold read in Hcnt.
  split; [|split].
  - intros m. rewrite sort_by_perm.
    rewrite list_elem_of_fmap. split.
    + intros ([k v] & -> & Hkv). apply elem_of_map_to_list in Hkv.
      rewrite Hcnt in Hkv. simpl. by destruct (notes_in_month k read).
    + intros Hne. specialize (Hcnt m).
      destruct (notes_in_month m read) as [|n ns]; [done|].
      eexists (m, _). split; [done|]. apply elem_of_map_to_list. exact Hcnt.
  - rewrite sort_by_perm. apply NoDup_fst_map_to_list.
  - apply sort_by_Sorted. intros a b Hab.
    destruct (String.leb_total a b) as [H1|H1]; congruence.
Qed.

Lemma lang_notes_sum (s : State) (df : list LangRow) :
  df ≡ₚ lang_rows s ->
  sumZ (Lang_Notes <$> df) = sumZ (lang_note_counts s).*2.
Proof.
  intros Hp. rewrite (sumZ_perm _ _ (fmap_Permutation Lang_Notes _ _ Hp)).
  unfold lang_rows. rewrite <- list_fmap_compose. done.
Qed.

(** X3. Every retained row is counted exactly once in the monthly table and
    exactly once in the language table: the monthly [Notes] add up to the
    number of retained rows, so do the language [Notes], and that number is
    [total_notes - dropped_rows]. *)
Theorem retained_rows_are_conserved
    (rows : list Row) (chunksize : Z) (out : Output) :
  compute_monthly_metrics rows chunksize = Ok out ->
  let read := assigned (Z.to_nat chunksize) rows in
  sumZ (Notes <$> monthly out) = Z.of_nat (length (dropna read)) /\
  sumZ (Lang_Notes <$> lang_df out) = Z.of_nat (length (dropna read)) /\
  total_notes (totals out) - totals_dropped_rows (totals out)
  = Z.of_nat (length (dropna read)).
Proof.
  intros (_ & Hn & Hids & _ & Hm & Ht & Hl & _)%compute_Ok_inv read.
  pose proof (run_view (Z.to_nat chunksize) rows) as Hv. fold read in Hv.
  pose proof (length_assigned _ rows Hn) as Hlen. fold read in Hlen.
  unfold view, tally in Hv.
  injection Hv as Ha _ _ Hd _ _ Hg Hh.
  rewrite (list_to_map_foldl_dict_add lang_of (fun _ => 1)) in Hd.
  split; [|split].
  - rewrite Hm. unfold assemble_monthly. rewrite <- list_fmap_compose.
    rewrite (sumZ_perm _ ((fun m => default 0
               (month_note_counts (run (Z.to_nat chunksize) rows) !! m))
               <$> (map_to_list (month_note_counts (run (Z.to_nat chunksize) rows))).*1)).
    2:{ apply fmap_Permutation, sort_by_perm. }
    rewrite <- list_fmap_compose.
    erewrite (list_fmap_ext _ snd).
    2:{ intros i [k v] Hkv%list_elem_of_lookup_2%elem_of_map_to_list. simpl.
        by rewrite Hkv. }
    rewrite Ha, (map_sum_counter_fold month_of). rewrite map_to_list_empty. done.
  - rewrite (lang_notes_sum _ _ Hl).
    rewrite <- (sumZ_perm _ _ (fmap_Permutation snd _ _
                 (map_to_list_to_map (M := gmap string) _ (run_NoDup _ rows)))).
    rewrite Hd, (map_sum_counter_fold lang_of). cbn [init lang_note_counts list_to_map foldr].
    rewrite map_to_list_empty. done.
  - rewrite Ht. cbn [assemble_totals total_notes totals_dropped_rows].
    rewrite Hg, Hh. cbn [init total_rows dropped_rows]. lia.
Qed.



Lemma elem_of_lang_rows (chunksize : nat) (rows : list Row) (row : LangRow) :
  (1 <= chunksize)%nat ->
  row ∈ lang_rows (run chunksize rows) ->
  let ns := notes_in_language (Language row) (assigned chunksize rows) in
  ns <> [] /\
  Lang_Notes row = Z.of_nat (length ns) /\
  Unique_Authors row = nunique (author <$> ns) /\
  Notes_Share row
  = (if Z.of_nat (length rows) =? 0 then nan
     else Some (inject_Z (Lang_Notes row) / inject_Z (Z.of_nat (length rows)))%Q).
Proof.
  intros Hn Hrow ns.
  destruct (run_accumulators _ rows Hn) as (_ & _ & _ & Hcnt & Haut & Htot & _).
  unfold lang_rows in Hrow.
  apply list_elem_of_fmap in Hrow as ([k v] & -> & Hkv).
  cbn [Language Lang_Notes Unique_Authors Notes_Share fst snd] in *.
  apply (elem_of_list_to_map_1 (M := gmap string)) in Hkv; [|apply run_NoDup].
  rewrite Hcnt in Hkv. rewrite Haut, Htot. fold ns in Hkv |- *.
  destruct ns as [|n ns'] eqn:E; [done|]. injection Hkv as <-.
  cbn [default]. unfold id. rewrite size_list_to_set_unique. done.
Qed.

(** X5. In the language table of a run that returns, the row of a language
    counts the notes the run retained under it and the distinct authors
    among them, and its share is that count divided by the number of rows
    read (retained or not). *)
Theorem language_row_counts
    (rows : list Row) (chunksize : Z) (out : Output) (row : LangRow) :
  compute_monthly_metrics rows chunksize = Ok out ->
  row ∈ lang_df out ->
  let read := assigned (Z.to_nat chunksize) rows in
  let ns := notes_in_language (Language row) read in
  ns <> [] /\
  Lang_Notes row = Z.of_nat (length ns) /\
  Unique_Authors row = nunique (author <$> ns) /\
  Notes_Share row
  = Some (inject_Z (Lang_Notes row) / inject_Z (Z.of_nat (length rows)))%Q.
Proof.
  intros (_ & Hn & Hids & Hne & _ & _ & Hl & _)%compute_Ok_inv Hrow read ns.
  rewrite Hl in Hrow.
  destruct (elem_of_lang_rows _ rows row Hn Hrow) as (H1 & H2 & H3 & H4).
  repeat split; try done. rewrite H4.
  destruct (Z.eqb_spec (Z.of_nat (length rows)) 0) as [Hz|]; [|done].
  exfalso. apply Hne.
  pose proof (length_assigned _ rows Hn) as Hlen.
  assert (Hr0 : length (assigned (Z.to_nat chunksize) rows) = 0%nat) by lia.
  apply nil_length_inv in Hr0. by rewrite Hr0.
Qed.

(** X6. The language table of a run that returns has exactly one row per
    language under which a retained note is filed, and a retained note
    whose language cell is blank is filed under ["unk"]. *)
Theorem language_table_languages
    (rows : list Row) (chunksize : Z) (out : Output) :
  compute_monthly_metrics rows chunksize = Ok out ->
  let read := assigned (Z.to_nat chunksize) rows in
  NoDup (Language <$> lang_df out) /\
  (forall l, l ∈ Language <$> lang_df out <-> notes_in_language l read <> []) /\
  (forall n, n ∈ dropna read -> note_language n = None ->
             exists row, row ∈ lang_df out /\ Language row = "unk"%string /\
                         n ∈ notes_in_language (Language row) read).
Proof.
  intros (_ & Hn & Hids & _ & _ & _ & Hl & _)%compute_Ok_inv read.
  destruct (run_accumulators _ rows Hn) as (_ & _ & _ & Hcnt & _).
  fold read in Hcnt.
  assert (Hkeys : Language <$> lang_rows (run (Z.to_nat chunksize) rows)
                  = (lang_note_counts (run (Z.to_nat chunksize) rows)).*1).
  { unfold lang_rows. rewrite <- list_fmap_compose. done. }
  assert (Hiff : forall l, l ∈ Language <$> lang_df out
                           <-> notes_in_language l read <> []).
  { intros l. rewrite Hl, Hkeys. specialize (Hcnt l). split.
    - intros Hin Hnil. rewrite Hnil in Hcnt.
      by apply (not_elem_of_list_to_map_2 (M := gmap string)) in Hcnt.
    - intros Hne. destruct (notes_in_language l read) as [|n ns]; [done|].
      apply (elem_of_list_to_map_2 (M := gmap string)) in Hcnt.
      apply list_elem_of_fmap. by eexists (l, _). }
  split; [|split].
  - rewrite Hl, Hkeys. apply run_NoDup.
  - exact Hiff.
  - intros n Hin Hblank.
    assert (Hlang : lang_of n = "unk"%string) by (unfold lang_of; by rewrite Hblank).
    assert (Hmem : n ∈ notes_in_language "unk" read).
    { unfold notes_in_language. by apply list_elem_of_filter. }
    assert (Hrow : "unk"%string ∈ Language <$> lang_df out).
    { apply Hiff. intros Hnil. rewrite Hnil in Hmem. by apply elem_of_nil in Hmem. }
    apply list_elem_of_fmap in Hrow as (row & Hrow & Hin').
    exists row. rewrite <- Hrow. done.
Qed.

(** X7. How a call ends.  A chunk size below one raises [ValueError].
    With a valid chunk size, on a file whose subject ids are blank or fit
    [int64]: it raises [ValueError] exactly when some subject id is blank;
    it raises [TypeError] exactly when every id is present and the run
    retains no row; it returns exactly when every id is present and the run
    retains some row; it raises nothing else. *)
Theorem compute_monthly_metrics_outcome (rows : list Row) (chunksize : Z) :
  let read := assigned (Z.to_nat chunksize) rows in
  let result := compute_monthly_metrics rows chunksize in
  (chunksize < 1 -> result = Raise ValueError) /\
  (1 <= chunksize ->
   Forall (fun r => forall z, tweetId r = Some z -> fits_int64 z = true) rows ->
   (result = Raise ValueError <-> Exists (fun r => tweetId r = None) rows) /\
   (result = Raise TypeError <-> ids_readable rows /\ dropna read = []) /\
   ((exists out, result = Ok out) <-> ids_readable rows /\ dropna read <> []) /\
   result <> Raise KeyError /\ result <> Raise IndexError /\
   result <> Raise OverflowError).
Proof.
  intros read result. split.
  - intros Hlt. unfold result, compute_monthly_metrics.
    destruct (Z.ltb_spec chunksize 1); [done|lia].
  - intros Hge Hfit.
    assert (Hn : (1 <= Z.to_nat chunksize)%nat) by lia.
    destruct (decide (Exists (fun r => tweetId r = None) rows)) as [Hblank|Hnb].
    + assert (Hres : result = Raise ValueError).
      { unfold result, compute_monthly_metrics.
        destruct (Z.ltb_spec chunksize 1) as [?|_]; [lia|].
        rewrite read_loop_blank; [done| |].
        - by apply (Forall_chunks
                      (fun r => forall z, tweetId r = Some z -> fits_int64 z = true)).
        - by apply (Exists_chunks (fun r => tweetId r = None)). }
      assert (Hnr : ~ ids_readable rows).
      { intros Hids. apply Exists_exists in Hblank as (r & Hr & Hnone).
        unfold ids_readable in Hids. rewrite Forall_forall in Hids.
        destruct (Hids r Hr) as (z & Hz & _). congruence. }
      rewrite Hres.
      split; [done|]. split; [split; [done|tauto]|].
      split; [split; [by intros [? ?]|tauto]|done].
    + assert (Hids : ids_readable rows).
      { apply Forall_forall. intros r Hr.
        destruct (tweetId r) as [z|] eqn:Hz.
        - exists z. split; [done|]. rewrite Forall_forall in Hfit.
          by apply (Hfit r Hr).
        - exfalso. apply Hnb, Exists_exists. by exists r. }
      unfold result. rewrite compute_readable by done.
      destruct (decide (dropna read = [])) as [Hnil|Hne].
      * rewrite finalize_Raise by (by apply run_months_empty).
        split; [done|]. split; [done|].
        split; [split; [by intros [? ?]|tauto]|done].
      * destruct (finalize_Ok (run (Z.to_nat chunksize) rows)) as (df & -> & _).
        { by rewrite run_months_empty. }
        { by rewrite run_lang_empty. }
        split; [done|]. split; [split; [done|tauto]|].
        split; [split; [done|by eexists]|done].
Qed.

(** *** Medians and first notes *)

Lemma mean_between (x y : Q) :
  (x <= y)%Q -> (x <= (x + y) / 2 /\ (x + y) / 2 <= y)%Q.
Proof.
  intros Hxy. split.
  - apply Qle_shift_div_l; [reflexivity|].
    assert (E : (x * 2 == x + x)%Q) by ring. rewrite E.
    apply Qplus_le_compat; [apply Qle_refl|done].
  - apply Qle_shift_div_r; [reflexivity|].
    assert (E : (y * 2 == y + y)%Q) by ring. rewrite E.
    apply Qplus_le_compat; [done|apply Qle_refl].
Qed.

(** The median lies between two of the values it is taken over. *)
Lemma median_between (l : list Q) (q : Q) :
  median l = Some q ->
  exists lo hi, lo ∈ l /\ hi ∈ l /\ (lo <= q)%Q /\ (q <= hi)%Q.
Proof.
  unfold median.
  pose proof (sort_by_perm Qle_bool l) as Hperm.
  set (s := sort_by Qle_bool l) in *.
  assert (Hnth : forall i, (i < length s)%nat -> nth i s 0%Q ∈ l).
  { intros i Hi. rewrite <- Hperm. apply list_elem_of_In. by apply nth_In. }
  destruct (length s) as [|k] eqn:Hlen; [done|].
  assert (Hhalf : (S k / 2 < S k)%nat) by (apply Nat.div_lt; lia).
  set (x := nth (S k / 2 - 1) s 0%Q). set (y := nth (S k / 2) s 0%Q).
  assert (Hx : x ∈ l) by (apply Hnth; lia).
  assert (Hy : y ∈ l) by (by apply Hnth).
  destruct (Nat.odd (S k)); intros Heq; apply (inj Some) in Heq; subst q.
  - exists y, y. repeat split; try done; apply Qle_refl.
  - destruct (Qlt_le_dec y x) as [Hlt|Hle].
    + exists y, x. apply Qlt_le_weak in Hlt.
      destruct (mean_between y x Hlt) as [H1 H2].
      assert (E : (x + y == y + x)%Q) by ring. rewrite E. done.
    + exists x, y. destruct (mean_between x y Hle) as [H1 H2]. done.
Qed.

Lemma run_earliest (chunksize : nat) (rows : list Row) (tid : Z) :
  is_global_min (subject_times tid (assigned chunksize rows))
                (earliest_note_ms_by_tweet (run chunksize rows) !! tid).
Proof. apply loop_earliest. Qed.

Lemma run_months (chunksize : nat) (rows : list Row) (m : string) :
  (1 <= chunksize)%nat ->
  m ∈ Month <$> assemble_monthly (run chunksize rows)
  <-> notes_in_month m (assigned chunksize rows) <> [].
Proof.
  intros Hn. rewrite assemble_monthly_months, sort_by_perm.
  destruct (run_accumulators _ rows Hn) as (Hcnt & _).
  rewrite list_elem_of_fmap. split.
  - intros ([k v] & -> & Hkv). apply elem_of_map_to_list in Hkv.
    rewrite Hcnt in Hkv. simpl.
    by destruct (notes_in_month k (assigned chunksize rows)).
  - intros Hne. specialize (Hcnt m).
    destruct (notes_in_month m (assigned chunksize rows)) as [|n ns]; [done|].
    eexists (m, _). split; [done|]. apply elem_of_map_to_list. exact Hcnt.
Qed.

(** X8. A monthly median that is a number is never negative, and lies
    between two time-to-first-note values of subjects whose first retained
    note falls in that month: the smallest and the largest bound it. *)
Theorem monthly_median_bounds
    (rows : list Row) (chunksize : Z) (out : Output) (row : MonthlyRow) (q : Q) :
  compute_monthly_metrics rows chunksize = Ok out ->
  row ∈ monthly out ->
  Median_TimeToFirstNote_hours row = Some q ->
  let read := assigned (Z.to_nat chunksize) rows in
  (0 <= q)%Q /\
  exists t1 first1 t2 first2,
    is_global_min (subject_times t1 read) (Some first1) /\
    is_global_min (subject_times t2 read) (Some first2) /\
    first_month first1 = Month row /\ first_month first2 = Month row /\
    exists lo hi, subject_delta t1 first1 = Some lo /\
                  subject_delta t2 first2 = Some hi /\
                  (0 <= lo)%Q /\ (lo <= q)%Q /\ (q <= hi)%Q.
Proof.
  intros (_ & Hn & Hids & _ & Hm & _)%compute_Ok_inv Hrow Hq read.
  rewrite Hm in Hrow.
  apply elem_of_assemble_monthly in Hrow as (_ & _ & _ & _ & Hmed).
  rewrite Hmed in Hq. apply median_between in Hq as (lo & hi & Hlo & Hhi & H1 & H2).
  apply elem_of_retained_deltas, elem_of_df_first in Hlo
    as (t1 & f1 & Hl1 & Hm1 & Hd1 & Hge1).
  apply elem_of_retained_deltas, elem_of_df_first in Hhi
    as (t2 & f2 & Hl2 & Hm2 & Hd2 & Hge2).
  assert (H0 : (0 <= lo)%Q).
  { apply subject_delta_nonneg in Hge1. rewrite Hd1 in Hge1.
    unfold fge0 in Hge1. by apply Qle_bool_iff. }
  split; [by apply Qle_trans with lo|].
  exists t1, f1, t2, f2.
  pose proof (run_earliest (Z.to_nat chunksize) rows t1) as Hg1. rewrite Hl1 in Hg1.
  pose proof (run_earliest (Z.to_nat chunksize) rows t2) as Hg2. rewrite Hl2 in Hg2.
  repeat (split; [done|]). exists lo, hi. done.
Qed.

(** X9. When the month of a timestamp does not depend on its sub-millisecond
    part, the left merge loses no subject: the month of every subject's first
    retained note is a row of the monthly table, and when the subject's
    time-to-first-note is not negative that row's median is a number. *)
Theorem first_note_month_has_row
    (rows : list Row) (chunksize : Z) (out : Output) (n : Note) :
  (forall ns, to_period_M (ns `div` 1000000 * 1000000) = to_period_M ns) ->
  compute_monthly_metrics rows chunksize = Ok out ->
  let read := assigned (Z.to_nat chunksize) rows in
  n ∈ dropna read ->
  exists first row,
    is_global_min (subject_times (tweet n) read) (Some first) /\
    row ∈ monthly out /\ Month row = first_month first /\
    (0 <= first - tweet_id_to_timestamp_ms1 (tweet n) ->
     is_Some (Median_TimeToFirstNote_hours row)).
Proof.
  intros Hcal (_ & Hn & Hids & _ & Hm & _)%compute_Ok_inv read Hin.
  pose proof (run_earliest (Z.to_nat chunksize) rows (tweet n)) as Hmin.
  fold read in Hmin.
  destruct (earliest_note_ms_by_tweet _ !! tweet n) as [first|] eqn:Hlk.
  2:{ simpl in Hmin. unfold subject_times in Hmin. apply fmap_nil_inv in Hmin.
      assert (Hmem : n ∈ filter (fun n0 => tweet n0 = tweet n) (dropna read))
        by (by apply list_elem_of_filter).
      rewrite Hmin in Hmem. by apply elem_of_nil in Hmem. }
  exists first.
  assert (Hrow : first_month first ∈ Month <$> monthly out).
  { rewrite Hm. apply run_months; [done|].
    destruct Hmin as [Hfirst _]. unfold subject_times in Hfirst.
    apply list_elem_of_fmap in Hfirst as (n' & -> & Hn').
    apply list_elem_of_filter in Hn' as [_ Hn'].
    unfold first_month, note_ms. rewrite Hcal. fold (month_of n').
    fold read. intros Hnil.
    assert (Hmem : n' ∈ notes_in_month (month_of n') read)
      by (by apply list_elem_of_filter).
    rewrite Hnil in Hmem. by apply elem_of_nil in Hmem. }
  apply list_elem_of_fmap in Hrow as (row & Hmonth & Hrow).
  exists row. repeat (split; [done|]). intros Hge.
  rewrite Hm in Hrow.
  apply elem_of_assemble_monthly in Hrow as (_ & _ & _ & _ & ->).
  apply median_is_Some. intros Hnil.
  assert (Hmem : (inject_Z (first - tweet_id_to_timestamp_ms1 (tweet n))
                  / inject_Z HOUR_MS)%Q
                 ∈ retained_deltas (earliest_note_ms_by_tweet
                                      (run (Z.to_nat chunksize) rows)) (Month row)).
  { apply elem_of_retained_deltas, elem_of_df_first.
    exists (tweet n), first. done. }
  rewrite Hnil in Hmem. by apply elem_of_nil in Hmem.
Qed.

(** *** [summarize_pre_post] (lines 251-275) *)

(** A Python float division either returns or raises [ZeroDivisionError]. *)
Inductive outcome (A : Type) : Type :=
  | Returns (a : A)
  | ZeroDivisionError.
Arguments Returns {A} a.
Arguments ZeroDivisionError {A}.

Definition and_then {A B : Type} (o : outcome A) (f : A -> outcome B) : outcome B :=
  match o with
  | Returns a => f a
  | ZeroDivisionError => ZeroDivisionError
  end.

Definition Qsum (l : list Q) : Q := foldr Qplus 0%Q l.

(** [Series.mean()] of an integer column: NaN on an empty selection. *)
Definition mean_int (l : list Z) : Float :=
  match l with
  | [] => nan
  | _ :: _ => Some (inject_Z (sumZ l) / inject_Z (Z.of_nat (length l)))%Q
  end.

(** [Series.mean()] and [Series.median()] of a float column skip NaN. *)
Definition mean_float (l : list Float) : Float :=
  match omap id l with
  | [] => nan
  | (_ :: _) as v => Some (Qsum v / inject_Z (Z.of_nat (length v)))%Q
  end.

Definition median_float (l : list Float) : Float := median (omap id l).

(** [a / b] on Python floats: a zero divisor raises, also under a NaN
    dividend; otherwise NaN propagates. *)
Definition py_div (a b : Float) : outcome Float :=
  match b with
  | Some q =>
    if Qeq_bool q 0 then ZeroDivisionError
    else Returns (match a with Some p => Some (p / q)%Q | None => nan end)
  | None => Returns nan
  end.

(** [(post / pre - 1) * 100]. *)
Definition growth_pct (post pre : Float) : outcome Float :=
  and_then (py_div post pre) (fun r =>
    Returns (match r with Some x => Some ((x - 1) * 100)%Q | None => nan end)).

Record PrePost := mkPrePost {
  pre_months : Z;
  post_months : Z;
  pre_avg_monthly_notes : Float;
  post_avg_monthly_notes : Float;
  pre_avg_active_authors : Float;
  post_avg_active_authors : Float;
  pre_avg_notes_per_author : Float;
  post_avg_notes_per_author : Float;
  pre_median_time_to_first_note_h : Float;
  post_median_time_to_first_note_h : Float;
  raw_monthly_notes_growth_pct : Float;
  active_authors_growth_pct : Float;
  notes_per_author_growth_pct : Float;
  time_to_first_note_change_pct : Float
}.

Definition summarize_pre_post (monthly : list MonthlyRow) : outcome PrePost :=
  let pre := summarize_pre monthly in
  let post := summarize_post monthly in
  let pre_notes := mean_int (Notes <$> pre) in
  let post_notes := mean_int (Notes <$> post) in
  let pre_authors := mean_int (Active_Authors <$> pre) in
  let post_authors := mean_int (Active_Authors <$> post) in
  let pre_npa := mean_float (Notes_per_Author <$> pre) in
  let post_npa := mean_float (Notes_per_Author <$> post) in
  let pre_med := median_float (Median_TimeToFirstNote_hours <$> pre) in
  let post_med := median_float (Median_TimeToFirstNote_hours <$> post) in
  and_then (growth_pct post_notes pre_notes) (fun g_notes =>
  and_then (growth_pct post_authors pre_authors) (fun g_authors =>
  and_then (growth_pct post_npa pre_npa) (fun g_npa =>
  and_then (growth_pct post_med pre_med) (fun g_med =>
  Returns (mkPrePost (Z.of_nat (length pre)) (Z.of_nat (length post))
                     pre_notes post_notes pre_authors post_authors
                     pre_npa post_npa pre_med post_med
                     g_notes g_authors g_npa g_med))))).

(** A pre-period average that is the number zero. *)
Definition is_zero (x : Float) : Prop := exists q, x = Some q /\ (q == 0)%Q.

Lemma growth_pct_raises (post pre : Float) :
  growth_pct post pre = ZeroDivisionError <-> is_zero pre.
Proof.
  unfold growth_pct, py_div, is_zero. destruct pre as [q|]; simpl.
  - destruct (Qeq_bool q 0) eqn:E; simpl.
    + split; [|done]. intros _. exists q. split; [done|]. by apply Qeq_bool_iff.
    + split; [done|]. intros (q' & [= <-] & Hz). apply Qeq_bool_iff in Hz. congruence.
  - split; [done|]. by intros (? & ? & _).
Qed.

Lemma growth_pct_nan_pre (post : Float) : growth_pct post nan = Returns nan.
Proof. reflexivity. Qed.

Lemma growth_pct_nan_post (pre g : Float) :
  growth_pct nan pre = Returns g -> g = nan.
Proof.
  unfold growth_pct, py_div. destruct pre as [q|]; simpl.
  - destruct (Qeq_bool q 0); simpl; [done|]. by intros [= <-].
  - by intros [= <-].
Qed.

Lemma and_then_raises {A B : Type} (o : outcome A) (f : A -> outcome B) :
  and_then o f = ZeroDivisionError
  <-> o = ZeroDivisionError \/ exists a, o = Returns a /\ f a = ZeroDivisionError.
Proof.
  destruct o as [a|]; simpl.
  - split; [intros H; right; by exists a|]. by intros [|(? & [= <-] & ?)].
  - split; [by left|done].
Qed.

Lemma growth_pct_total (post pre : Float) :
  ~ is_zero pre -> exists g, growth_pct post pre = Returns g.
Proof.
  intros Hnz. destruct (growth_pct post pre) as [g|] eqn:E; [by exists g|].
  by apply growth_pct_raises in E.
Qed.

Lemma summarize_raises (monthly : list MonthlyRow) :
  summarize_pre_post monthly = ZeroDivisionError <->
  is_zero (mean_int (Notes <$> summarize_pre monthly)) \/
  is_zero (mean_int (Active_Authors <$> summarize_pre monthly)) \/
  is_zero (mean_float (Notes_per_Author <$> summarize_pre monthly)) \/
  is_zero (median_float (Median_TimeToFirstNote_hours <$> summarize_pre monthly)).
Proof.
  unfold summarize_pre_post. cbv zeta.
  rewrite <- !(growth_pct_raises (mean_int (Notes <$> summarize_post monthly))
                                (mean_int (Notes <$> summarize_pre monthly))).
  rewrite <- !(growth_pct_raises (mean_int (Active_Authors <$> summarize_post monthly))
                                (mean_int (Active_Authors <$> summarize_pre monthly))).
  rewrite <- !(growth_pct_raises (mean_float (Notes_per_Author <$> summarize_post monthly))
                                (mean_float (Notes_per_Author <$> summarize_pre monthly))).
  rewrite <- !(growth_pct_raises
                 (median_float (Median_TimeToFirstNote_hours <$> summarize_post monthly))
                 (median_float (Median_TimeToFirstNote_hours <$> summarize_pre monthly))).
  destruct (growth_pct (mean_int (Notes <$> _)) _) as [g1|]; simpl; [|tauto].
  destruct (growth_pct (mean_int (Active_Authors <$> _)) _) as [g2|]; simpl; [|tauto].
  destruct (growth_pct (mean_float _) _) as [g3|]; simpl; [|tauto].
  destruct (growth_pct (median_float _) _) as [g4|]; simpl; [|tauto].
  split; [done|]. intros [|[|[|]]]; done.
Qed.

Lemma length_le_sumZ (l : list Z) :
  Forall (fun z => 1 <= z) l -> Z.of_nat (length l) <= sumZ l.
Proof.
  induction 1 as [|x l Hx _ IH]; [done|]. rewrite sumZ_cons. cbn [length]. lia.
Qed.

Lemma mean_int_ge_1 (l : list Z) (q : Q) :
  Forall (fun z => 1 <= z) l -> mean_int l = Some q -> (1 <= q)%Q.
Proof.
  intros Hall Hq. pose proof (length_le_sumZ l Hall) as Hle.
  destruct l as [|x l]; [done|]. injection Hq as <-.
  apply one_le_quotient; [cbn [length]; lia|done].
Qed.

Lemma length_le_Qsum (v : list Q) :
  Forall (fun x => (1 <= x)%Q) v -> (inject_Z (Z.of_nat (length v)) <= Qsum v)%Q.
Proof.
  induction 1 as [|x l Hx _ IH]; [apply Qle_refl|].
  cbn [length Qsum foldr]. fold (Qsum l).
  rewrite Nat2Z.inj_succ, <- Z.add_1_l, inject_Z_plus.
  by apply Qplus_le_compat.
Qed.

Lemma mean_float_ge_1 (l : list Float) (q : Q) :
  Forall (fun x => exists p, x = Some p /\ (1 <= p)%Q) l ->
  mean_float l = Some q -> (1 <= q)%Q.
Proof.
  intros Hall. unfold mean_float.
  assert (Hv : Forall (fun x => (1 <= x)%Q) (omap id l)).
  { induction Hall as [|x l' (p & -> & Hp) _ IH]; [constructor|].
    cbn [omap list_omap id]. fold (omap id l'). by constructor. }
  destruct (omap id l) as [|x v] eqn:E; [done|]. intros [= <-].
  apply Qle_shift_div_l.
  - change 0%Q with (inject_Z 0). rewrite <- Zlt_Qlt. cbn [length]. lia.
  - rewrite Qmult_1_l. by apply (length_le_Qsum (x :: v)).
Qed.

Lemma not_zero_ge_1 (x : Float) :
  (forall q, x = Some q -> (1 <= q)%Q) -> ~ is_zero x.
Proof.
  intros H (q & -> & Hz). specialize (H q eq_refl). rewrite Hz in H.
  by apply Qle_bool_iff in H.
Qed.

Lemma run_monthly_positive (chunksize : nat) (rows : list Row) (row : MonthlyRow) :
  (1 <= chunksize)%nat ->
  row ∈ assemble_monthly (run chunksize rows) ->
  1 <= Notes row /\ 1 <= Active_Authors row /\
  exists q, Notes_per_Author row = Some q /\ (1 <= q)%Q.
Proof.
  intros Hn Hrow.
  apply elem_of_assemble_monthly in Hrow as ([v Hv] & HN & HA & HQ & _).
  destruct (run_accumulators _ rows Hn) as (Hcnt & Haut & _).
  rewrite Hcnt in Hv, HN. rewrite Haut in HA.
  destruct (notes_in_month (Month row) (assigned chunksize rows)) as [|n ns'] eqn:E; [done|].
  cbn [default] in HN, HA. unfold id in HN, HA.
  rewrite size_list_to_set_unique in HA.
  pose proof (length_unique_le (author <$> n :: ns')) as Hle.
  rewrite length_fmap in Hle.
  assert (Hpos : (1 <= length (unique (author <$> n :: ns')))%nat) by (simpl; lia).
  cbn [length] in *.
  split; [lia|]. split; [lia|].
  rewrite HQ. unfold replace_zero_nan, fdiv_int.
  destruct (Z.eqb_spec (Active_Authors row) 0) as [Hz|_]; [lia|].
  eexists. split; [reflexivity|]. apply one_le_quotient; lia.
Qed.

(** X13. A table with no month before the cutover is summarised without
    an exception: the pre-period count is zero, the post-period count is
    the number of rows, every pre-period average is NaN, and all four
    growth figures are NaN. *)
Theorem summarize_without_pre_period (monthly : list MonthlyRow) :
  Forall (fun r => CHATGPT_BREAK <= MonthStart r) monthly ->
  exists s, summarize_pre_post monthly = Returns s /\
    pre_months s = 0 /\ post_months s = Z.of_nat (length monthly) /\
    pre_avg_monthly_notes s = nan /\ pre_avg_active_authors s = nan /\
    pre_avg_notes_per_author s = nan /\ pre_median_time_to_first_note_h s = nan /\
    raw_monthly_notes_growth_pct s = nan /\ active_authors_growth_pct s = nan /\
    notes_per_author_growth_pct s = nan /\ time_to_first_note_change_pct s = nan.
Proof.
  intros Hall.
  assert (Hpre : summarize_pre monthly = []).
  { unfold summarize_pre. induction Hall as [|r l Hr _ IH]; [done|].
    rewrite filter_cons. case_decide; [lia|done]. }
  assert (Hpost : summarize_post monthly = monthly).
  { unfold summarize_post. induction Hall as [|r l Hr Hl IH]; [done|].
    rewrite filter_cons. case_decide; [|lia]. f_equal. apply IH.
    unfold summarize_pre in Hpre. rewrite filter_cons in Hpre.
    by case_decide. }
  unfold summarize_pre_post. rewrite Hpre, Hpost. cbv zeta. cbn [fmap list_fmap].
  change (mean_int []) with nan. change (mean_float []) with nan.
  change (median_float []) with nan. rewrite !growth_pct_nan_pre.
  cbn [and_then]. eexists. split; [reflexivity|]. done.
Qed.

(** X14. Whenever the summary returns, its two month counts add up to the
    number of rows of the table, and with no month on or after the cutover
    all four growth figures are NaN. *)
Theorem summarize_months_add_up (monthly : list MonthlyRow) (s : PrePost) :
  summarize_pre_post monthly = Returns s ->
  pre_months s + post_months s = Z.of_nat (length monthly) /\
  pre_months s = Z.of_nat (length (summarize_pre monthly)) /\
  (summarize_post monthly = [] ->
   raw_monthly_notes_growth_pct s = nan /\ active_authors_growth_pct s = nan /\
   notes_per_author_growth_pct s = nan /\ time_to_first_note_change_pct s = nan).
Proof.
  unfold summarize_pre_post. cbv zeta.
  destruct (growth_pct (mean_int (Notes <$> _)) _) as [g1|] eqn:E1; [|done].
  destruct (growth_pct (mean_int (Active_Authors <$> _)) _) as [g2|] eqn:E2; [|done].
  destruct (growth_pct (mean_float _) _) as [g3|] eqn:E3; [|done].
  destruct (growth_pct (median_float _) _) as [g4|] eqn:E4; [|done].
  cbn [and_then]. intros [= <-]. cbn.
  split; [|split; [done|]].
  - unfold summarize_pre, summarize_post.
    clear. induction monthly as [|r l IH]; [done|].
    rewrite !filter_cons. repeat case_decide; cbn [length] in *; lia.
  - intros Hpost. rewrite Hpost in *. cbn [fmap list_fmap] in *.
    apply growth_pct_nan_post in E1, E2, E3, E4. done.
Qed.

(** X15. Summarising the monthly table of a run that returns: the growth
    of notes, of active authors and of notes per author never divides by
    zero, so the summary raises [ZeroDivisionError] exactly when the
    pre-period median of the monthly medians is the number zero. *)
Theorem summarize_run_raises_iff
    (rows : list Row) (chunksize : Z) (out : Output) :
  compute_monthly_metrics rows chunksize = Ok out ->
  (summarize_pre_post (monthly out) = ZeroDivisionError <->
   is_zero (median_float (Median_TimeToFirstNote_hours
                            <$> summarize_pre (monthly out)))) /\
  (forall q, mean_int (Notes <$> summarize_pre (monthly out)) = Some q -> (1 <= q)%Q) /\
  (forall q, mean_int (Active_Authors <$> summarize_pre (monthly out)) = Some q ->
             (1 <= q)%Q) /\
  (forall q, mean_float (Notes_per_Author <$> summarize_pre (monthly out)) = Some q ->
             (1 <= q)%Q).
Proof.
  intros (_ & Hn & Hids & _ & Hm & _)%compute_Ok_inv.
  assert (Hrows : forall row, row ∈ summarize_pre (monthly out) ->
            1 <= Notes row /\ 1 <= Active_Authors row /\
            exists q, Notes_per_Author row = Some q /\ (1 <= q)%Q).
  { intros row [_ Hrow]%list_elem_of_filter. rewrite Hm in Hrow.
    by apply (run_monthly_positive _ rows row Hn). }
  assert (H1 : forall q, mean_int (Notes <$> summarize_pre (monthly out)) = Some q ->
                         (1 <= q)%Q).
  { intros q. apply mean_int_ge_1. apply Forall_fmap, Forall_forall.
    intros row Hrow. by apply Hrows. }
  assert (H2 : forall q, mean_int (Active_Authors <$> summarize_pre (monthly out)) = Some q ->
                         (1 <= q)%Q).
  { intros q. apply mean_int_ge_1. apply Forall_fmap, Forall_forall.
    intros row Hrow. by apply Hrows. }
  assert (H3 : forall q, mean_float (Notes_per_Author <$> summarize_pre (monthly out)) = Some q ->
                         (1 <= q)%Q).
  { intros q. apply mean_float_ge_1. apply Forall_fmap, Forall_forall.
    intros row Hrow. by apply Hrows. }
  split; [|done].
  rewrite summarize_raises. split; [|tauto].
  intros [Hz|[Hz|[Hz|Hz]]]; [| | |done].
  - by apply not_zero_ge_1 in H1.
  - by apply not_zero_ge_1 in H2.
  - by apply not_zero_ge_1 in H3.
Qed.

(** *** The order of the rows in the file *)

Lemma match_nonempty_perm {A B : Type} (f : list A -> B) (l l' : list A) :
  l ≡ₚ l' -> (forall a b, a ≡ₚ b -> f a = f b) ->
  match l with [] => None | n :: t => Some (f (n :: t)) end
  = match l' with [] => None | n :: t => Some (f (n :: t)) end.
Proof.
  intros Hp Hf. destruct l as [|x l], l' as [|y l'].
  - done.
  - by apply Permutation_nil_l in Hp.
  - by apply Permutation_nil_r in Hp.
  - f_equal. by apply Hf.
Qed.

Lemma list_to_set_fmap_perm {A : Type} (g : A -> string) (a b : list A) :
  a ≡ₚ b -> (list_to_set (g <$> a) : gset string) = list_to_set (g <$> b).
Proof.
  intros Hp. apply set_eq. intros x. rewrite !elem_of_list_to_set. by rewrite Hp.
Qed.

Lemma run_view_perm (c c' : nat) (rows rows' : list Row) :
  (1 <= c)%nat -> (1 <= c')%nat ->
  assigned c rows ≡ₚ assigned c' rows' ->
  view (run c rows) = view (run c' rows').
Proof.
  intros Hc Hc' Hp.
  set (read := assigned c rows) in *. set (read' := assigned c' rows') in *.
  assert (Hd : dropna read ≡ₚ dropna read') by (unfold dropna; by rewrite Hp).
  assert (Hrows : length rows = length rows').
  { rewrite <- (length_assigned c rows Hc), <- (length_assigned c' rows' Hc').
    by apply Permutation_length. }
  destruct (run_accumulators c rows Hc) as (H1 & H2 & H3 & H4 & H5 & H6 & H7).
  destruct (run_accumulators c' rows' Hc') as (H1' & H2' & H3' & H4' & H5' & H6' & H7').
  fold read in H1, H2, H3, H4, H5, H7. fold read' in H1', H2', H3', H4', H5', H7'.
  assert (Hm : forall m, notes_in_month m read ≡ₚ notes_in_month m read').
  { intros m. unfold notes_in_month. by rewrite Hd. }
  assert (Hl : forall l, notes_in_language l read ≡ₚ notes_in_language l read').
  { intros l. unfold notes_in_language. by rewrite Hd. }
  assert (Hlen : forall a b : list Note, a ≡ₚ b ->
                   Z.of_nat (length a) = Z.of_nat (length b)).
  { intros a b Hab. by rewrite Hab. }
  assert (E1 : month_note_counts (run c rows) = month_note_counts (run c' rows')).
  { apply map_eq. intros m. rewrite H1, H1'.
    by apply (match_nonempty_perm (fun ns => Z.of_nat (length ns))). }
  assert (E2 : month_authors (run c rows) = month_authors (run c' rows')).
  { apply map_eq. intros m. rewrite H2, H2'.
    apply (match_nonempty_perm (fun ns => list_to_set (author <$> ns))); [done|].
    apply list_to_set_fmap_perm. }
  assert (E3 : all_authors (run c rows) = all_authors (run c' rows')).
  { rewrite H3, H3'. by apply list_to_set_fmap_perm. }
  assert (E4 : (list_to_map (lang_note_counts (run c rows)) : gmap string Z)
               = list_to_map (lang_note_counts (run c' rows'))).
  { apply map_eq. intros l. rewrite H4, H4'.
    by apply (match_nonempty_perm (fun ns => Z.of_nat (length ns))). }
  assert (E5 : lang_authors (run c rows) = lang_authors (run c' rows')).
  { apply map_eq. intros l. rewrite H5, H5'.
    apply (match_nonempty_perm (fun ns => list_to_set (author <$> ns))); [done|].
    apply list_to_set_fmap_perm. }
  assert (E6 : earliest_note_ms_by_tweet (run c rows)
               = earliest_note_ms_by_tweet (run c' rows')).
  { apply map_eq. intros tid.
    apply (is_global_min_perm (subject_times tid read) (subject_times tid read'));
      [|apply run_earliest..].
    unfold subject_times. by rewrite Hd. }
  unfold view. rewrite E1, E2, E3, E4, E5, E6, H6, H6', H7, H7'.
  by rewrite Hrows, (Permutation_length Hd).
Qed.

(** X24. For a file whose subject ids are readable and whose timestamps
    parse cell by cell in the chunks of both runs, the order of the rows
    does not matter: for two files holding the same rows in any order, read
    with any two valid chunk sizes, the runs end alike.  When some row is
    retained both return the same monthly table and the same totals, and
    language tables with the same rows; when none is retained both raise
    [TypeError]. *)
Theorem row_order_independence
    (rows rows' : list Row) (c c' : Z) (parse1 : string -> option Z) :
  rows ≡ₚ rows' -> 1 <= c -> 1 <= c' ->
  ids_readable rows ->
  Forall (cellwise parse1) (chunks (Z.to_nat c) rows) ->
  Forall (cellwise parse1) (chunks (Z.to_nat c') rows') ->
  let kept := dropna ((fun r => (r, parse1 (cell r))) <$> rows) in
  (kept <> [] ->
   exists o o',
     compute_monthly_metrics rows c = Ok o /\
     compute_monthly_metrics rows' c' = Ok o' /\
     monthly o = monthly o' /\ totals o = totals o' /\
     lang_df o ≡ₚ lang_df o') /\
  (kept = [] ->
   compute_monthly_metrics rows c = Raise TypeError /\
   compute_monthly_metrics rows' c' = Raise TypeError).
Proof.
  intros Hp H1 H2 Hids Hcw Hcw' kept.
  assert (Hids' : ids_readable rows').
  { unfold ids_readable in *. by rewrite <- Hp. }
  rewrite !compute_readable by done.
  assert (Hn1 : (1 <= Z.to_nat c)%nat) by lia.
  assert (Hn2 : (1 <= Z.to_nat c')%nat) by lia.
  pose proof (assigned_cellwise parse1 _ rows Hn1 Hcw) as Ha.
  pose proof (assigned_cellwise parse1 _ rows' Hn2 Hcw') as Ha'.
  assert (Hperm : assigned (Z.to_nat c) rows ≡ₚ assigned (Z.to_nat c') rows').
  { rewrite Ha, Ha'. by apply fmap_Permutation. }
  pose proof (run_view_perm _ _ rows rows' Hn1 Hn2 Hperm) as Hv.
  assert (Hd : dropna (assigned (Z.to_nat c) rows)
               ≡ₚ dropna (assigned (Z.to_nat c') rows'))
    by (unfold dropna; by rewrite Hperm).
  assert (Hk : dropna (assigned (Z.to_nat c) rows) = kept) by (by rewrite Ha).
  split.
  - intros Hne. rewrite <- Hk in Hne.
    assert (Hne' : dropna (assigned (Z.to_nat c') rows') <> []).
    { intros Hnil. rewrite Hnil in Hd. by apply Permutation_nil_r in Hd. }
    destruct (finalize_Ok (run (Z.to_nat c) rows)) as (df1 & -> & Hp1 & _).
    { by rewrite run_months_empty. }
    { by rewrite run_lang_empty. }
    destruct (finalize_Ok (run (Z.to_nat c') rows')) as (df2 & -> & Hp2 & _).
    { by rewrite run_months_empty. }
    { by rewrite run_lang_empty. }
    eexists _, _. split; [reflexivity|]. split; [reflexivity|].
    cbn [monthly totals lang_df].
    split; [by apply assemble_monthly_view|].
    split; [by apply assemble_totals_view|].
    rewrite Hp1, Hp2. apply lang_rows_view; [done|apply run_NoDup..].
  - intros Hnil. rewrite <- Hk in Hnil.
    assert (Hnil' : dropna (assigned (Z.to_nat c') rows') = []).
    { rewrite Hnil in Hd. by apply Permutation_nil_l in Hd. }
    split; apply finalize_Raise; by apply run_months_empty.
Qed.

Lemma Qsum_perm (l l' : list Q) : l ≡ₚ l' -> (Qsum l == Qsum l')%Q.
Proof.
  unfold Qsum. induction 1 as [|x l l' _ IH|x y l|l l' l'' _ IH1 _ IH2]; simpl.
  - reflexivity.
  - by rewrite IH.
  - ring.
  - by rewrite IH1.
Qed.

Lemma Qsum_shares (t : Q) (zs : list Z) :
  (Qsum ((fun z => inject_Z z / t) <$> zs) == inject_Z (sumZ zs) / t)%Q.
Proof.
  unfold Qdiv. induction zs as [|z zs IH].
  - simpl. ring.
  - rewrite fmap_cons, sumZ_cons, inject_Z_plus. unfold Qsum in *. simpl.
    rewrite IH. ring.
Qed.

Lemma perm_of_numbers (qs : list Q) (l : list (option Q)) :
  l ≡ₚ Some <$> qs -> exists shares, l = Some <$> shares /\ shares ≡ₚ qs.
Proof.
  intros Hp. exists (omap id l). split.
  - assert (Hall : Forall (fun x : option Q => is_Some x) l).
    { apply Forall_forall. intros x Hx. rewrite Hp in Hx.
      apply list_elem_of_fmap in Hx as (q & -> & _). by eexists. }
    clear Hp. induction Hall as [|x l [q ->] _ IH]; [done|].
    cbn [omap list_omap id]. fold (omap id l). by rewrite fmap_cons, <- IH.
  - assert (Hid : omap id (Some <$> qs) = qs).
    { clear. induction qs as [|q qs IH]; [done|].
      rewrite fmap_cons. cbn [omap list_omap id]. fold (omap id (Some <$> qs)).
      by rewrite IH. }
    rewrite <- Hid. clear Hid.
    induction Hp as [|x a b _ IH|x y a|a b c _ IH1 _ IH2].
    + done.
    + cbn [omap list_omap]. fold (omap id a). fold (omap id b).
      destruct (id x); [by constructor|done].
    + cbn [omap list_omap]. fold (omap id a).
      destruct (id x), (id y); try done. apply perm_swap.
    + by transitivity (omap id b).
Qed.

(** X25. The shares of the language table are all numbers and add up to
    the rows the run retained over the rows read: to one exactly when no
    row was dropped, and to less otherwise. *)
Theorem language_shares_add_up
    (rows : list Row) (chunksize : Z) (out : Output) :
  compute_monthly_metrics rows chunksize = Ok out ->
  let read := assigned (Z.to_nat chunksize) rows in
  exists shares,
    Notes_Share <$> lang_df out = Some <$> shares /\
    (Qsum shares == inject_Z (Z.of_nat (length (dropna read)))
                    / inject_Z (Z.of_nat (length rows)))%Q /\
    (Qsum shares <= 1)%Q /\
    ((Qsum shares == 1)%Q <-> length (dropna read) = length rows).
Proof.
  intros (_ & Hn & Hids & Hne & _ & _ & Hl & _)%compute_Ok_inv read.
  destruct (run_accumulators _ rows Hn) as (_ & _ & _ & _ & _ & Htot & _).
  pose proof (length_assigned _ rows Hn) as Hlen. fold read in Hlen, Hne.
  set (s := run (Z.to_nat chunksize) rows) in *.
  set (total := Z.of_nat (length rows)) in *.
  set (kept := Z.of_nat (length (dropna read))).
  assert (Hkept : 0 <= kept <= total).
  { unfold kept, total. pose proof (length_omap_filter_None dropna_row read) as H.
    fold (dropna read) in H. lia. }
  assert (Hpos : 0 < total).
  { unfold total. destruct (decide (length rows = 0%nat)) as [Hz|]; [|lia].
    exfalso. apply Hne. rewrite Hz in Hlen. apply nil_length_inv in Hlen.
    by rewrite Hlen. }
  assert (Hrows : Notes_Share <$> lang_rows s
                  = Some <$> ((fun z => inject_Z z / inject_Z total)%Q
                              <$> (lang_note_counts s).*2)).
  { unfold lang_rows. rewrite <- !list_fmap_compose. apply list_fmap_ext.
    intros i [k v] _. cbn. rewrite Htot.
    destruct (Z.eqb_spec total 0); [lia|done]. }
  assert (Hsum : sumZ (lang_note_counts s).*2 = kept).
  { pose proof (lang_notes_sum s (lang_rows s) (reflexivity _)) as H1.
    rewrite <- H1. clear H1.
    pose proof (run_view (Z.to_nat chunksize) rows) as Hv.
    fold s in Hv. fold read in Hv.
    unfold lang_rows. rewrite <- list_fmap_compose.
    erewrite (list_fmap_ext _ snd); [|by intros i [??] _].
    unfold view, tally in Hv. injection Hv as _ _ _ Hd _ _ _ _.
    rewrite (list_to_map_foldl_dict_add lang_of (fun _ => 1)) in Hd.
    cbn [init lang_note_counts] in Hd.
    assert (Hperm : lang_note_counts s
                    ≡ₚ map_to_list (list_to_map (lang_note_counts s) : gmap string Z)).
    { symmetry. apply map_to_list_to_map. apply run_NoDup. }
    rewrite (sumZ_perm _ _ (fmap_Permutation snd _ _ Hperm)), Hd.
    change (list_to_map []) with (∅ : gmap string Z).
    rewrite map_sum_counter_fold, map_to_list_empty. unfold kept. simpl. lia. }
  assert (Hq : (inject_Z kept / inject_Z total <= 1)%Q).
  { apply Qle_shift_div_r.
    - change 0%Q with (inject_Z 0). rewrite <- Zlt_Qlt. lia.
    - rewrite Qmult_1_l. rewrite <- Zle_Qle. lia. }
  pose proof (fmap_Permutation Notes_Share _ _ Hl) as Hperm.
  rewrite Hrows in Hperm.
  assert (Hex : exists shares, Notes_Share <$> lang_df out = Some <$> shares /\
                  shares ≡ₚ (fun z => inject_Z z / inject_Z total)%Q
                             <$> (lang_note_counts s).*2).
  { revert Hperm. generalize (Notes_Share <$> lang_df out).
    generalize ((fun z => inject_Z z / inject_Z total)%Q <$> (lang_note_counts s).*2).
    intros qs l Hperm. by apply perm_of_numbers. }
  destruct Hex as (shares & Hshares & Hsp).
  exists shares. split; [done|].
  assert (Hval : (Qsum shares == inject_Z kept / inject_Z total)%Q).
  { rewrite (Qsum_perm _ _ Hsp), Qsum_shares, Hsum. reflexivity. }
  split; [done|]. split; [by rewrite Hval|].
  rewrite Hval. split.
  - intros Heq. apply Nat2Z.inj. fold kept total.
    assert (Hnz : ~ (inject_Z total == 0)%Q).
    { change 0%Q with (inject_Z 0). rewrite inject_Z_injective. lia. }
    apply inject_Z_injective.
    rewrite <- (Qmult_div_r (inject_Z kept) (inject_Z total) Hnz), Heq. ring.
  - intros Heq. apply Nat2Z.inj_iff in Heq. fold kept total in Heq.
    rewrite Heq. apply Qmult_inv_r.
    change 0%Q with (inject_Z 0). rewrite inject_Z_injective. lia.
Qed.

End Aggregator.

Arguments Returns {A} a.
Arguments ZeroDivisionError {A}.

End Layer3.

(** ** Placebo breakpoints ([06_robustness_checks.py]) *)

Module Robustness.
Import Frame Calendar.

(** One row of a trends frame: the [date] column ([None] is NaT, the result
    of [parse_dates] on a blank cell) and the analysed column [col], which
    may hold NaN. *)
Record Obs : Type := mkObs {
  date : option Z;
  value : Float
}.

(** What the scripts read off a fitted statsmodels model: the coefficient
    and p-value of a named regressor ([.get(name, np.nan)]) and R squared. *)
Record OLSResults : Type := mkOLSResults {
  params : string -> Float;
  pvalues : string -> Float;
  rsquared : Float
}.

Record SegFit : Type := mkSegFit {
  n_pre : Z;
  n_post : Z;
  slope_pre : Float;
  slope_change : Float;
  slope_post : Float;
  p_slope_change_hac : Float;
  level_change : Float;
  p_level_change_hac : Float;
  r_squared : Float
}.

Record PlaceboRow : Type := mkPlaceboRow {
  break_date : Z;
  is_chatgpt : bool;
  pre_median : Float;
  post_median : Float;
  effect_pct : Float;
  p_value : Float;
  significant : bool;
  its_slope_pre : Float;
  its_slope_change : Float;
  its_slope_post : Float;
  its_slope_change_p_hac : Float;
  its_n_pre : Float;
  its_n_post : Float;
  its_r_squared : Float
}.

Record PreTrend : Type := mkPreTrend {
  pre_slope : Float;
  pre_r_squared : Float;
  pre_p_value_hac : Float;
  pre_trend_significant : bool
}.

Record SeriesResult : Type := mkSeriesResult {
  chatgpt_median_effect_pct : Float;
  max_placebo_effect_pct : Float;
  chatgpt_median_strongest : bool;
  chatgpt_its_slope_change : Float;
  max_placebo_its_slope_change : Float;
  chatgpt_its_slope_strongest : bool;
  chatgpt_its_slope_change_p_hac : Float;
  pre_trend : PreTrend
}.

Definition fsub (x y : Float) : Float :=
  match x, y with Some a, Some b => Some (a - b)%Q | _, _ => None end.
Definition fmul (x y : Float) : Float :=
  match x, y with Some a, Some b => Some (a * b)%Q | _, _ => None end.
(** Float division; the scripts only divide by a median they have tested
    to be positive, so the quotient by zero is left as NaN. *)
Definition fdiv (x y : Float) : Float :=
  match x, y with
  | Some a, Some b => if Qeq_bool b 0 then None else Some (a / b)%Q
  | _, _ => None
  end.
Definition flt (x y : Float) : bool := fgt y x.
Definition of_int (n : Z) : Float := Some (inject_Z n).

(** Lines 93-102: the fixed placebo dates. *)
Definition default_placebo_breaks : list Z :=
  [ timestamp 2020 3 1; timestamp 2021 1 1; timestamp 2021 6 1;
    timestamp 2022 1 1; timestamp 2022 10 1; timestamp 2022 12 1;
    timestamp 2023 1 1; timestamp 2023 6 1 ].

(** [pd.to_datetime(real_break.strftime("%Y-%m-%d"))]: the day of
    [real_break], at midnight. *)
Definition strftime_day (ts : Z) : Z := ts `div` DAY_NS * DAY_NS.

(** [df['date'] < break_dt] and [df['date'] >= break_dt] on one row: a
    comparison with NaT is false. *)
Definition date_lt (r : Obs) (break_dt : Z) : Prop :=
  match date r with Some d => d < break_dt | None => False end.
Definition date_ge (r : Obs) (break_dt : Z) : Prop :=
  match date r with Some d => d >= break_dt | None => False end.

#[global] Instance date_lt_dec (r : Obs) (break_dt : Z) : Decision (date_lt r break_dt).
Proof. unfold date_lt. destruct (date r); apply _. Defined.
#[global] Instance date_ge_dec (r : Obs) (break_dt : Z) : Decision (date_ge r break_dt).
Proof. unfold date_ge. destruct (date r); apply _. Defined.

(** [sort_values('date')]: ascending, NaT last. *)
Definition date_leb (a b : Obs) : bool :=
  match date b with
  | None => true
  | Some y => match date a with Some x => x <=? y | None => false end
  end.

(** Lines 108-109, before the [dropna]: the two sides of a breakpoint. *)
Definition before (df : list Obs) (break_dt : Z) : list Obs :=
  filter (fun r => date_lt r break_dt) df.
Definition after (df : list Obs) (break_dt : Z) : list Obs :=
  filter (fun r => date_ge r break_dt) df.

(** [[col].dropna()]: the numbers of the analysed column. *)
Definition col_dropna (rows : list Obs) : list Q := omap value rows.

(** The rows behind the two sets of values that [placebo_test] compares,
    and the rows that have both a date and a value. *)
Definition pre_rows (df : list Obs) (break_dt : Z) : list Obs :=
  filter (fun r => is_Some (value r)) (before df break_dt).
Definition post_rows (df : list Obs) (break_dt : Z) : list Obs :=
  filter (fun r => is_Some (value r)) (after df break_dt).
Definition complete (r : Obs) : Prop := is_Some (date r) /\ is_Some (value r).

Section Routines.

(** [scipy.stats.mannwhitneyu(pre, post, alternative='less')]: statistic
    and p-value. *)
Variable mannwhitneyu : list Q -> list Q -> Float * Float.
(** [OLS(endog, exog).fit(cov_type='HAC', cov_kwds={'maxlags': lags})]:
    [exog] as named columns. *)
Variable OLS_fit_HAC : list Float -> list (string * list Z) -> Z -> OLSResults.

(** Lines 48-83. *)
Definition _fit_segmented (df : list Obs) (break_dt : Z) (maxlags : Z) : option SegFit :=
  let d := sort_by date_leb
                   (filter (fun r => is_Some (date r) /\ is_Some (value r)) df) in
  let time := Z.of_nat <$> seq 0 (length d) in
  let post := (fun r => if decide (date_ge r break_dt) then 1 else 0) <$> d in
  let time_post := zip_with Z.mul time post in
  let n_pre := Z.of_nat (length (filter (fun p => p = 0) post)) in
  let n_post := Z.of_nat (length (filter (fun p => p = 1) post)) in
  if (n_pre <? 12) || (n_post <? 12) then None
  else
    let X := [ ("const"%string, (fun _ => 1) <$> d); ("time"%string, time);
               ("post"%string, post); ("time_post"%string, time_post) ] in
    let lags := Z.min maxlags (Z.max 0 (Z.of_nat (length d) - 1)) in
    let model := OLS_fit_HAC (value <$> d) X lags in
    let slope_pre := params model "time" in
    let slope_change := params model "time_post" in
    Some (mkSegFit n_pre n_post slope_pre slope_change
                   (fadd slope_pre slope_change)
                   (pvalues model "time_post")
                   (params model "post")
                   (pvalues model "post")
                   (rsquared model)).

(** Lines 107-133: the body of the loop of [placebo_test] for one date;
    [None] when the [if] of line 111 is not taken and no row is appended. *)
Definition placebo_row (df : list Obs) (real_break break_dt : Z) : option PlaceboRow :=
  let pre := col_dropna (before df break_dt) in
  let post := col_dropna (after df break_dt) in
  if (5 <? Z.of_nat (length pre)) && (5 <? Z.of_nat (length post)) then
    let sp := mannwhitneyu pre post in
    let effect :=
      if fgt (median pre) (Some 0%Q)
      then fmul (fdiv (fsub (median post) (median pre)) (median pre)) (Some 100%Q)
      else Some 0%Q in
    let seg := _fit_segmented df break_dt 6 in
    let field (f : SegFit -> Float) : Float :=
      match seg with Some sg => f sg | None => nan end in
    Some (mkPlaceboRow break_dt (break_dt =? real_break)
            (median pre) (median post) effect sp.2
            (flt sp.2 (Some (1 # 1000)%Q))
            (field slope_pre) (field slope_change) (field slope_post)
            (field p_slope_change_hac)
            (field (fun sg => of_int (n_pre sg)))
            (field (fun sg => of_int (n_post sg)))
            (field r_squared))
  else None.

(** Lines 86-135. *)
Definition placebo_test (df : list Obs) (real_break : Z)
    (placebo_breaks : option (list Z)) : list PlaceboRow :=
  let placebo_breaks := default default_placebo_breaks placebo_breaks in
  omap (placebo_row df real_break) (strftime_day real_break :: placebo_breaks).

(** Lines 137-164. *)
Definition pre_trend_test (df : list Obs) (break_dt : Z) : PreTrend :=
  let pre_data := before df break_dt in
  let time := Z.of_nat <$> seq 0 (length pre_data) in
  if Z.of_nat (length pre_data) <? 12 then mkPreTrend nan nan nan false
  else
    let X := [ ("const"%string, (fun _ => 1) <$> pre_data); ("time"%string, time) ] in
    let lags := Z.min 6 (Z.max 0 (Z.of_nat (length pre_data) - 1)) in
    let model := OLS_fit_HAC (value <$> pre_data) X lags in
    let p := pvalues model "time" in
    mkPreTrend (params model "time") (rsquared model) p
               (notna p && flt p (Some (5 # 100)%Q)).

(** Lines 188-248: the body of the loop of [run_robustness] for one series.
    Selecting the [is_chatgpt] column of a frame built from no rows raises
    [KeyError]; [.iloc[0]] on an empty selection raises [IndexError]. *)
Definition robustness_of_series (df : list Obs) : result SeriesResult :=
  let placebo_results := placebo_test df CHATGPT_BREAK None in
  match placebo_results with
  | [] => Raise KeyError
  | _ :: _ =>
    match filter (fun r => is_chatgpt r = true) placebo_results with
    | [] => Raise IndexError
    | chat_row :: _ =>
      let placebos := filter (fun r => is_chatgpt r = false) placebo_results in
      let chatgpt_effect := effect_pct chat_row in
      let max_placebo := fmax (effect_pct <$> placebos) in
      let chatgpt_strongest := fgt chatgpt_effect max_placebo in
      let chat_slope_change := its_slope_change chat_row in
      let placebo_slope_max := fmax (its_slope_change <$> placebos) in
      let chatgpt_slope_strongest :=
        notna chat_slope_change && notna placebo_slope_max
        && fgt chat_slope_change placebo_slope_max in
      Ok (mkSeriesResult chatgpt_effect max_placebo chatgpt_strongest
            chat_slope_change placebo_slope_max chatgpt_slope_strongest
            (its_slope_change_p_hac chat_row)
            (pre_trend_test df CHATGPT_BREAK))
    end
  end.

(** *** Facts about float comparisons *)

Lemma Qlt_bool_iff (x y : Q) : Qlt_bool x y = true <-> (x < y)%Q.
Proof.
  unfold Qlt_bool. rewrite negb_true_iff.
  destruct (Qle_bool y x) eqn:E.
  - apply Qle_bool_iff in E. split; [done|]. intros Hlt.
    by apply Qlt_not_le in Hlt.
  - split; [intros _|done]. apply Qnot_le_lt. intros Hle.
    apply Qle_bool_iff in Hle. congruence.
Qed.

Lemma fgt_Some (x y : Float) :
  fgt x y = true <-> exists a b, x = Some a /\ y = Some b /\ (b < a)%Q.
Proof.
  unfold fgt. destruct x as [a|], y as [b|]; try (split; [done|]; by intros (?&?&?&?&?)).
  rewrite Qlt_bool_iff. split; [by exists a, b|].
  by intros (? & ? & [= ->] & [= ->] & ?).
Qed.

Lemma fmax_None (l : list Float) :
  fmax l = None <-> forall y, y ∈ l -> y = None.
Proof.
  induction l as [|x l IH]; simpl.
  - split; [intros _ y Hy; by apply elem_of_nil in Hy|done].
  - destruct x as [a|].
    + split.
      * by destruct (fmax l).
      * intros Hall. by specialize (Hall (Some a) (list_elem_of_here _ _)).
    + rewrite IH. split.
      * intros Hall y [->|Hy]%elem_of_cons; [done|by apply Hall].
      * intros Hall y Hy. by apply Hall, list_elem_of_further.
Qed.

Lemma fmax_Some (l : list Float) (m : Q) :
  fmax l = Some m ->
  Some m ∈ l /\ forall b, Some b ∈ l -> (b <= m)%Q.
Proof.
  revert m. induction l as [|x l IH]; intros m; simpl; [done|].
  destruct x as [a|].
  - destruct (fmax l) as [b|] eqn:E.
    + destruct (IH b eq_refl) as [Hin Hmax].
      destruct (Qle_bool a b) eqn:Hab; intros [= <-].
      * apply Qle_bool_iff in Hab. split; [by apply list_elem_of_further|].
        intros c [[= ->]|Hc]%elem_of_cons; [done|by apply Hmax].
      * split; [apply list_elem_of_here|].
        intros c [[= ->]|Hc]%elem_of_cons; [apply Qle_refl|].
        apply Qle_trans with b; [by apply Hmax|].
        apply Qlt_le_weak, Qnot_le_lt. intros Hle.
        apply Qle_bool_iff in Hle. congruence.
    + intros [= <-]. split; [apply list_elem_of_here|].
      intros c [[= ->]|Hc]%elem_of_cons; [apply Qle_refl|].
      apply fmax_None with (y := Some c) in E; done.
  - intros Hm. destruct (IH m Hm) as [Hin Hmax].
    split; [by apply list_elem_of_further|].
    intros c [?|Hc]%elem_of_cons; [done|by apply Hmax].
Qed.

(** Strictly above the maximum of a column: there is a number in the
    column, and every number in it is strictly below. *)
Lemma fgt_fmax_iff (x : Float) (l : list Float) :
  fgt x (fmax l) = true <->
  (exists y, y ∈ l /\ is_Some y) /\
  (forall y, y ∈ l -> is_Some y -> fgt x y = true).
Proof.
  split.
  - intros (a & m & -> & Hm & Hlt)%fgt_Some.
    destruct (fmax_Some l m Hm) as [Hin Hmax]. split.
    + exists (Some m). by split.
    + intros y Hy [b ->]. apply fgt_Some. exists a, b. repeat split.
      apply Qle_lt_trans with m; [by apply Hmax|done].
  - intros [(y & Hy & [b ->]) Hall].
    destruct (fmax l) as [m|] eqn:E.
    + apply fmax_Some in E as [Hin _]. apply Hall; [done|by eexists].
    + rewrite fmax_None in E. by specialize (E _ Hy).
Qed.

(** *** Splitting a series at a cutover *)

Lemma split_at_cutover {A : Type} (ts : A -> Z) (cutover : Z) (l : list A) :
  filter (fun r => ts r < cutover) l ++ filter (fun r => ts r >= cutover) l ≡ₚ l.
Proof.
  induction l as [|r l IH]; [done|].
  rewrite !filter_cons.
  destruct (decide (ts r < cutover)), (decide (ts r >= cutover)); try lia.
  - simpl. by rewrite IH.
  - rewrite <- Permutation_middle. by rewrite IH.
Qed.

Lemma omap_cons {A B : Type} (f : A -> option B) (x : A) (l : list A) :
  omap f (x :: l)
  = match f x with Some y => y :: omap f l | None => omap f l end.
Proof. reflexivity. Qed.

Lemma col_dropna_values (rows : list Obs) :
  Some <$> col_dropna rows = value <$> filter (fun r => is_Some (value r)) rows.
Proof.
  unfold col_dropna. induction rows as [|r rows IH]; [done|].
  rewrite filter_cons, omap_cons.
  destruct (value r) as [q|] eqn:Hq.
  - rewrite decide_True by (by eexists). rewrite !fmap_cons, Hq. by f_equal.
  - rewrite decide_False by (by intros [? ?]). done.
Qed.

Lemma elem_of_pre_rows (df : list Obs) (break_dt : Z) (r : Obs) :
  r ∈ pre_rows df break_dt
  <-> r ∈ df /\ is_Some (value r) /\ exists d, date r = Some d /\ d < break_dt.
Proof.
  unfold pre_rows, before, date_lt. rewrite !list_elem_of_filter.
  destruct (date r) as [d|]; [|naive_solver]. split.
  - intros (? & ? & ?). repeat split; try done. by exists d.
  - intros (? & ? & d' & [= <-] & ?). done.
Qed.

Lemma elem_of_post_rows (df : list Obs) (break_dt : Z) (r : Obs) :
  r ∈ post_rows df break_dt
  <-> r ∈ df /\ is_Some (value r) /\ exists d, date r = Some d /\ break_dt <= d.
Proof.
  unfold post_rows, after, date_ge. rewrite !list_elem_of_filter.
  destruct (date r) as [d|]; [|naive_solver]. split.
  - intros (? & ? & ?). repeat split; try done. exists d. split; [done|lia].
  - intros (? & ? & d' & [= <-] & ?). repeat split; try done. lia.
Qed.

Lemma pre_post_complete (df : list Obs) (break_dt : Z) :
  pre_rows df break_dt ++ post_rows df break_dt ≡ₚ filter complete df.
Proof.
  unfold pre_rows, post_rows, before, after, complete.
  induction df as [|r df IH]; [done|].
  rewrite !(filter_cons _ r).
  destruct (date r) as [d|] eqn:Hd.
  - destruct (decide (date_lt r break_dt)) as [Hlt|Hlt],
             (decide (date_ge r break_dt)) as [Hge|Hge];
      unfold date_lt, date_ge in Hlt, Hge; rewrite Hd in Hlt, Hge; try lia.
    + rewrite filter_cons.
      destruct (decide (is_Some (value r))) as [Hv|Hv].
      * rewrite decide_True by (split; [by eexists|done]). simpl. by rewrite IH.
      * rewrite decide_False by tauto. exact IH.
    + rewrite (filter_cons _ r).
      destruct (decide (is_Some (value r))) as [Hv|Hv].
      * rewrite decide_True by (split; [by eexists|done]).
        rewrite <- Permutation_middle. by rewrite IH.
      * rewrite decide_False by tauto. exact IH.
  - rewrite decide_False by (unfold date_lt; rewrite Hd; tauto).
    rewrite decide_False by (unfold date_ge; rewrite Hd; tauto).
    rewrite decide_False by (intros [[? ?] _]; done). exact IH.
Qed.

(** C7.  The two sets whose medians [placebo_test] compares hold the values
    of the rows strictly before the cutover and of the rows at or after it,
    among the rows that have both a date and a value: the two sets of rows
    are disjoint, a row dated exactly at the cutover is on the "after"
    side, and together they hold every row with a date and a value exactly
    once.  A row whose value or date is missing is in neither set, so the
    two sets hold every row of the series exactly when no row has a missing
    date or value.  The split of the monthly table at the fixed cutover of
    [summarize_pre_post] is disjoint and holds every row. *)
Theorem cutover_partition (df : list Obs) (break_dt : Z)
    (monthly : list Layer3.MonthlyRow) :
  (Some <$> col_dropna (before df break_dt) = value <$> pre_rows df break_dt /\
   Some <$> col_dropna (after df break_dt) = value <$> post_rows df break_dt /\
   (forall r, r ∈ pre_rows df break_dt
              <-> r ∈ df /\ is_Some (value r)
                  /\ exists d, date r = Some d /\ d < break_dt) /\
   (forall r, r ∈ post_rows df break_dt
              <-> r ∈ df /\ is_Some (value r)
                  /\ exists d, date r = Some d /\ break_dt <= d) /\
   (forall r, r ∈ pre_rows df break_dt -> r ∈ post_rows df break_dt -> False) /\
   pre_rows df break_dt ++ post_rows df break_dt ≡ₚ filter complete df /\
   (forall r, date r = None \/ value r = None ->
              (r ∉ pre_rows df break_dt) /\ (r ∉ post_rows df break_dt)) /\
   (pre_rows df break_dt ++ post_rows df break_dt ≡ₚ df <-> Forall complete df)) /\
  (Layer3.summarize_pre monthly ++ Layer3.summarize_post monthly ≡ₚ monthly /\
   (forall r, r ∈ Layer3.summarize_pre monthly
              <-> r ∈ monthly /\ Layer3.MonthStart r < CHATGPT_BREAK) /\
   (forall r, r ∈ Layer3.summarize_post monthly
              <-> r ∈ monthly /\ CHATGPT_BREAK <= Layer3.MonthStart r) /\
   (forall r, r ∈ Layer3.summarize_pre monthly ->
              r ∈ Layer3.summarize_post monthly -> False)).
Proof.
  split.
  - split; [apply col_dropna_values|]. split; [apply col_dropna_values|].
    split; [apply elem_of_pre_rows|]. split; [apply elem_of_post_rows|].
    split; [|split; [apply pre_post_complete|split]].
    + intros r (_ & _ & d & Hd & Hlt)%elem_of_pre_rows
               (_ & _ & d' & Hd' & Hge)%elem_of_post_rows.
      rewrite Hd in Hd'. injection Hd' as <-. lia.
    + intros r Hmiss. split.
      * intros (_ & [q Hq] & d & Hd & _)%elem_of_pre_rows.
        destruct Hmiss; congruence.
      * intros (_ & [q Hq] & d & Hd & _)%elem_of_post_rows.
        destruct Hmiss; congruence.
    + rewrite pre_post_complete. split.
      * intros Hperm. apply Forall_forall. intros r Hr.
        rewrite <- Hperm in Hr. by apply list_elem_of_filter in Hr as [? _].
      * intros Hall. by rewrite (filter_all complete df Hall).
  - unfold Layer3.summarize_pre, Layer3.summarize_post.
    split; [apply split_at_cutover|]. split; [|split].
    + intros r. rewrite list_elem_of_filter. tauto.
    + intros r. rewrite list_elem_of_filter. intuition lia.
    + intros r. rewrite !list_elem_of_filter. intuition lia.
Qed.

(** *** When a breakpoint yields a row, and when the row has a regression *)

Lemma date_lt_ge (r : Obs) (break_dt : Z) :
  is_Some (date r) -> (date_lt r break_dt <-> ~ date_ge r break_dt).
Proof. intros [d Hd]. unfold date_lt, date_ge. rewrite Hd. lia. Qed.

Lemma date_lt_Some (r : Obs) (break_dt : Z) : date_lt r break_dt -> is_Some (date r).
Proof. unfold date_lt. destruct (date r); [by eexists|done]. Qed.

Lemma date_ge_Some (r : Obs) (break_dt : Z) : date_ge r break_dt -> is_Some (date r).
Proof. unfold date_ge. destruct (date r); [by eexists|done]. Qed.

Lemma length_filter_indicator (break_dt : Z) (l : list Obs) :
  Forall (fun r => is_Some (date r)) l ->
  length (filter (fun p => p = 0)
            ((fun r => if decide (date_ge r break_dt) then 1 else 0) <$> l))
  = length (filter (fun r => date_lt r break_dt) l) /\
  length (filter (fun p => p = 1)
            ((fun r => if decide (date_ge r break_dt) then 1 else 0) <$> l))
  = length (filter (fun r => date_ge r break_dt) l).
Proof.
  induction 1 as [|r l Hr _ [IH0 IH1]]; [done|].
  rewrite fmap_cons, !filter_cons.
  pose proof (date_lt_ge r break_dt Hr) as Hiff.
  destruct (decide (date_ge r break_dt)), (decide (date_lt r break_dt));
    try tauto; simpl; rewrite ?IH0, ?IH1; done.
Qed.

Lemma length_filter_dropna (P : Obs -> Prop) `{forall r, Decision (P r)}
    (df : list Obs) :
  (forall r, P r -> is_Some (date r)) ->
  length (filter P (filter (fun r => is_Some (date r) /\ is_Some (value r)) df))
  = length (col_dropna (filter P df)).
Proof.
  intros HP. unfold col_dropna. induction df as [|r df IH]; [done|].
  rewrite !(filter_cons _ r).
  destruct (decide (P r)) as [Hp|Hp].
  - destruct (value r) as [q|] eqn:Hq.
    + rewrite decide_True by (split; [by apply HP|by eexists]).
      rewrite filter_cons, decide_True by done.
      rewrite omap_cons, Hq. cbn [length]. by rewrite IH.
    + rewrite decide_False by (intros [_ [? ?]]; done).
      by rewrite omap_cons, Hq, IH.
  - destruct (decide (is_Some (date r) /\ is_Some (value r))); [|done].
    by rewrite filter_cons, decide_False.
Qed.

Lemma fit_rows_dated (df : list Obs) :
  Forall (fun r => is_Some (date r))
         (sort_by date_leb
                  (filter (fun r => is_Some (date r) /\ is_Some (value r)) df)).
Proof.
  rewrite sort_by_perm. apply Forall_forall.
  by intros r [[? _] _]%list_elem_of_filter.
Qed.

(** The two counts [_fit_segmented] tests are the sizes of the two sides
    that [placebo_test] tests. *)
Lemma fit_segmented_sides (df : list Obs) (break_dt : Z) :
  let d := sort_by date_leb
                   (filter (fun r => is_Some (date r) /\ is_Some (value r)) df) in
  let post := (fun r => if decide (date_ge r break_dt) then 1 else 0) <$> d in
  length (filter (fun p => p = 0) post) = length (col_dropna (before df break_dt)) /\
  length (filter (fun p => p = 1) post) = length (col_dropna (after df break_dt)).
Proof.
  intros d post. unfold post.
  destruct (length_filter_indicator break_dt d (fit_rows_dated df)) as [-> ->].
  unfold d, before, after.
  rewrite <- (length_filter_dropna (fun r => date_lt r break_dt))
    by (intros r; apply date_lt_Some).
  rewrite <- (length_filter_dropna (fun r => date_ge r break_dt))
    by (intros r; apply date_ge_Some).
  split; apply Permutation_length; by rewrite sort_by_perm.
Qed.

Lemma fit_segmented_None (df : list Obs) (break_dt maxlags : Z) :
  (length (col_dropna (before df break_dt)) < 12
   \/ length (col_dropna (after df break_dt)) < 12)%nat ->
  _fit_segmented df break_dt maxlags = None.
Proof.
  intros Hshort. unfold _fit_segmented.
  destruct (fit_segmented_sides df break_dt) as [-> ->].
  destruct (Z.ltb_spec (Z.of_nat (length (col_dropna (before df break_dt)))) 12);
    [done|].
  destruct (Z.ltb_spec (Z.of_nat (length (col_dropna (after df break_dt)))) 12);
    [done|]. lia.
Qed.

Lemma fit_segmented_Some (df : list Obs) (break_dt maxlags : Z) :
  (12 <= length (col_dropna (before df break_dt)))%nat ->
  (12 <= length (col_dropna (after df break_dt)))%nat ->
  exists seg,
    _fit_segmented df break_dt maxlags = Some seg /\
    n_pre seg = Z.of_nat (length (col_dropna (before df break_dt))) /\
    n_post seg = Z.of_nat (length (col_dropna (after df break_dt))) /\
    slope_post seg = fadd (slope_pre seg) (slope_change seg).
Proof.
  intros Hpre Hpost. unfold _fit_segmented.
  destruct (fit_segmented_sides df break_dt) as [-> ->].
  destruct (Z.ltb_spec (Z.of_nat (length (col_dropna (before df break_dt)))) 12);
    [lia|].
  destruct (Z.ltb_spec (Z.of_nat (length (col_dropna (after df break_dt)))) 12);
    [lia|].
  eexists. split; [reflexivity|]. done.
Qed.

Lemma elem_of_placebo_test (df : list Obs) (real_break : Z)
    (placebo_breaks : option (list Z)) (row : PlaceboRow) :
  row ∈ placebo_test df real_break placebo_breaks <->
  exists break_dt,
    break_dt ∈ strftime_day real_break :: default default_placebo_breaks placebo_breaks /\
    placebo_row df real_break break_dt = Some row.
Proof. unfold placebo_test. apply list_elem_of_omap. Qed.

Lemma placebo_row_date (df : list Obs) (real_break break_dt : Z) (row : PlaceboRow) :
  placebo_row df real_break break_dt = Some row -> break_date row = break_dt.
Proof.
  unfold placebo_row.
  destruct ((5 <? Z.of_nat (length (col_dropna (before df break_dt))))
            && (5 <? Z.of_nat (length (col_dropna (after df break_dt)))));
    [|done].
  by intros [= <-].
Qed.

Lemma placebo_row_exists (df : list Obs) (real_break break_dt : Z) :
  (6 <= length (col_dropna (before df break_dt)))%nat ->
  (6 <= length (col_dropna (after df break_dt)))%nat ->
  exists row, placebo_row df real_break break_dt = Some row.
Proof.
  intros Hpre Hpost. unfold placebo_row.
  destruct (Z.ltb_spec 5 (Z.of_nat (length (col_dropna (before df break_dt)))));
    [|lia].
  destruct (Z.ltb_spec 5 (Z.of_nat (length (col_dropna (after df break_dt)))));
    [|lia].
  simpl. by eexists.
Qed.

(** C8. At a breakpoint with fewer than six non-missing periods on either
    side, neither the rank test nor the regression is run and the result
    table has no row for that date, whatever the list of placebo dates.
    With at least six on each side the rank test is run and its p-value is in the row.  The regression is in the row
    only with at least twelve periods on each side; below that its columns
    are NaN and nothing is raised. *)
Theorem placebo_row_thresholds (df : list Obs) (real_break break_dt : Z) :
  let pre := col_dropna (before df break_dt) in
  let post := col_dropna (after df break_dt) in
  ((length pre < 6 \/ length post < 6)%nat ->
   placebo_row df real_break break_dt = None /\
   forall placebo_breaks row,
     row ∈ placebo_test df real_break placebo_breaks ->
     break_date row <> break_dt) /\
  ((6 <= length pre)%nat -> (6 <= length post)%nat ->
   exists row,
     placebo_row df real_break break_dt = Some row /\
     break_date row = break_dt /\
     p_value row = (mannwhitneyu pre post).2 /\
     pre_median row = median pre /\ post_median row = median post /\
     ((length pre < 12 \/ length post < 12)%nat ->
      _fit_segmented df break_dt 6 = None /\
      its_slope_pre row = nan /\ its_slope_change row = nan /\
      its_slope_post row = nan /\ its_slope_change_p_hac row = nan /\
      its_n_pre row = nan /\ its_n_post row = nan /\ its_r_squared row = nan) /\
     ((12 <= length pre)%nat -> (12 <= length post)%nat ->
      exists seg,
        _fit_segmented df break_dt 6 = Some seg /\
        its_slope_pre row = slope_pre seg /\
        its_slope_change row = slope_change seg /\
        its_slope_post row = slope_post seg /\
        its_slope_change_p_hac row = p_slope_change_hac seg /\
        its_n_pre row = of_int (Z.of_nat (length pre)) /\
        its_n_post row = of_int (Z.of_nat (length post)) /\
        its_r_squared row = r_squared seg)).
Proof.
  intros pre post. split.
  - intros Hshort.
    assert (Hnone : placebo_row df real_break break_dt = None).
    { unfold placebo_row. fold pre post.
      destruct (Z.ltb_spec 5 (Z.of_nat (length pre))),
               (Z.ltb_spec 5 (Z.of_nat (length post))); simpl; try done; lia. }
    split; [exact Hnone|].
    intros placebo_breaks row (b & _ & Hb)%elem_of_placebo_test Heq.
    pose proof (placebo_row_date _ _ _ _ Hb) as Hd. congruence.
  - unfold placebo_row. fold pre post. intros Hpre Hpost.
    destruct (Z.ltb_spec 5 (Z.of_nat (length pre))); [|lia].
    destruct (Z.ltb_spec 5 (Z.of_nat (length post))); [|lia].
    simpl. eexists. split; [reflexivity|].
    cbn [break_date p_value pre_median post_median its_slope_pre
         its_slope_change its_slope_post its_slope_change_p_hac its_n_pre
         its_n_post its_r_squared].
    repeat split.
    + by rewrite (fit_segmented_None df break_dt 6).
    + by rewrite (fit_segmented_None df break_dt 6).
    + by rewrite (fit_segmented_None df break_dt 6).
    + by rewrite (fit_segmented_None df break_dt 6).
    + by rewrite (fit_segmented_None df break_dt 6).
    + by rewrite (fit_segmented_None df break_dt 6).
    + by rewrite (fit_segmented_None df break_dt 6).
    + by rewrite (fit_segmented_None df break_dt 6).
    + intros H12 H12'.
      destruct (fit_segmented_Some df break_dt 6 H12 H12')
        as (seg & -> & Hn & Hn' & _).
      exists seg. fold pre post in Hn, Hn'. by rewrite Hn, Hn'.
Qed.

(** *** The effect statistic and the two "strongest" flags *)

(** C10. At a breakpoint with at least six non-missing periods on each
    side, when the median of the "before" values is not strictly positive,
    the row of that date reports the number 0 as [effect_pct] (not NaN, and
    nothing is raised). *)
Theorem zero_effect_when_pre_median_not_positive
    (df : list Obs) (real_break break_dt : Z) (placebo_breaks : option (list Z)) :
  let pre := col_dropna (before df break_dt) in
  let post := col_dropna (after df break_dt) in
  break_dt ∈ strftime_day real_break :: default default_placebo_breaks placebo_breaks ->
  (6 <= length pre)%nat -> (6 <= length post)%nat ->
  (forall m, median pre = Some m -> (m <= 0)%Q) ->
  exists row,
    row ∈ placebo_test df real_break placebo_breaks /\
    placebo_row df real_break break_dt = Some row /\
    break_date row = break_dt /\
    pre_median row = median pre /\
    effect_pct row = Some 0%Q.
Proof.
  intros pre post Hin Hpre Hpost Hmed.
  assert (Hgt : fgt (median pre) (Some 0%Q) = false).
  { destruct (fgt (median pre) (Some 0%Q)) eqn:E; [|done].
    apply fgt_Some in E as (a & b & Ha & [= <-] & Hlt).
    apply Hmed in Ha. by apply Qlt_not_le in Hlt. }
  unfold placebo_row at 1. fold pre post.
  assert (Hrow : exists row, placebo_row df real_break break_dt = Some row /\
                   break_date row = break_dt /\ pre_median row = median pre /\
                   effect_pct row = Some 0%Q).
  { unfold placebo_row. fold pre post.
    destruct (Z.ltb_spec 5 (Z.of_nat (length pre))); [|lia].
    destruct (Z.ltb_spec 5 (Z.of_nat (length post))); [|lia].
    simpl. rewrite Hgt. eexists. split; [reflexivity|]. done. }
  destruct Hrow as (row & Hrow & Hd & Hm & He).
  exists row. split; [|done].
  apply elem_of_placebo_test. by exists break_dt.
Qed.

Lemma placebo_row_flags (df : list Obs) (real_break break_dt : Z) (row : PlaceboRow) :
  placebo_row df real_break break_dt = Some row ->
  break_date row = break_dt /\
  is_chatgpt row = (break_dt =? real_break) /\
  is_Some (effect_pct row).
Proof.
  unfold placebo_row.
  set (pre := col_dropna (before df break_dt)).
  set (post := col_dropna (after df break_dt)).
  destruct (Z.ltb_spec 5 (Z.of_nat (length pre))) as [Hpre|]; [|done].
  destruct (Z.ltb_spec 5 (Z.of_nat (length post))) as [Hpost|]; [|done].
  simpl. intros [= <-]. cbn [break_date is_chatgpt effect_pct].
  repeat split.
  destruct (median_is_Some pre) as [a Ha]; [by destruct pre; simpl in *; try lia|].
  destruct (median_is_Some post) as [b Hb]; [by destruct post; simpl in *; try lia|].
  rewrite Ha, Hb. destruct (fgt (Some a) (Some 0%Q)) eqn:E; [|done].
  apply fgt_Some in E as (? & ? & [= <-] & [= <-] & Hlt).
  unfold fmul, fdiv, fsub.
  destruct (Qeq_bool a 0) eqn:Hz; [|done].
  apply Qeq_bool_iff in Hz. rewrite Hz in Hlt. by apply Qlt_irrefl in Hlt.
Qed.

Lemma default_breaks_are_placebos :
  Forall (fun break_dt => (break_dt =? CHATGPT_BREAK) = false) default_placebo_breaks.
Proof. repeat constructor. Qed.

Lemma strftime_day_CHATGPT_BREAK : strftime_day CHATGPT_BREAK = CHATGPT_BREAK.
Proof. reflexivity. Qed.

Lemma placebo_rows_not_chatgpt (df : list Obs) (breaks : list Z) :
  Forall (fun break_dt => (break_dt =? CHATGPT_BREAK) = false) breaks ->
  Forall (fun r => is_chatgpt r = false)
         (omap (placebo_row df CHATGPT_BREAK) breaks).
Proof.
  intros Hall. apply Forall_forall. intros r Hr.
  apply list_elem_of_omap in Hr as (b & Hb & Hrow).
  rewrite Forall_forall in Hall.
  apply placebo_row_flags in Hrow as (_ & -> & _). by apply Hall.
Qed.

(** C9. For a series with at least six non-missing periods on each side of
    the real cutover, the checker runs the comparator at the real cutover
    and at each of the eight fixed placebo dates, keeps the dates that have
    at least six periods on each side, and reports two flags.  The
    median-shift flag holds exactly when some placebo date was kept and the
    real cutover's [effect_pct] is strictly greater than that of every kept
    placebo date.  The slope flag holds exactly when some kept placebo date
    has a regression coefficient and the real cutover's coefficient is
    strictly greater than every placebo coefficient there is. *)
Theorem strongest_flags (df : list Obs) :
  let placebos := omap (placebo_row df CHATGPT_BREAK) default_placebo_breaks in
  (6 <= length (col_dropna (before df CHATGPT_BREAK)))%nat ->
  (6 <= length (col_dropna (after df CHATGPT_BREAK)))%nat ->
  exists chat_row res,
    placebo_row df CHATGPT_BREAK CHATGPT_BREAK = Some chat_row /\
    placebo_test df CHATGPT_BREAK None = chat_row :: placebos /\
    robustness_of_series df = Ok res /\
    chatgpt_median_effect_pct res = effect_pct chat_row /\
    chatgpt_its_slope_change res = its_slope_change chat_row /\
    (chatgpt_median_strongest res = true <->
     placebos <> [] /\
     forall r, r ∈ placebos -> fgt (effect_pct chat_row) (effect_pct r) = true) /\
    (chatgpt_its_slope_strongest res = true <->
     (exists r, r ∈ placebos /\ is_Some (its_slope_change r)) /\
     forall r, r ∈ placebos -> is_Some (its_slope_change r) ->
               fgt (its_slope_change chat_row) (its_slope_change r) = true).
Proof.
  intros placebos Hpre Hpost.
  destruct (placebo_row_exists df CHATGPT_BREAK CHATGPT_BREAK Hpre Hpost)
    as (chat_row & Hchat).
  pose proof (placebo_row_flags _ _ _ _ Hchat) as (_ & Hflag & _).
  rewrite Z.eqb_refl in Hflag.
  pose proof (placebo_rows_not_chatgpt df _ default_breaks_are_placebos) as Hpl.
  fold placebos in Hpl.
  assert (Htest : placebo_test df CHATGPT_BREAK None = chat_row :: placebos).
  { unfold placebo_test. rewrite strftime_day_CHATGPT_BREAK.
    cbn [default omap list_omap]. by rewrite Hchat. }
  exists chat_row. eexists. split; [done|]. split; [done|].
  unfold robustness_of_series. rewrite Htest.
  rewrite !filter_cons, decide_True by done.
  rewrite (decide_False (P := is_chatgpt chat_row = false)) by congruence.
  rewrite (filter_all (fun r => is_chatgpt r = false)) by done.
  split; [reflexivity|].
  cbn [chatgpt_median_effect_pct chatgpt_its_slope_change
       chatgpt_median_strongest chatgpt_its_slope_strongest].
  split; [done|]. split; [done|]. split.
  - rewrite fgt_fmax_iff. split.
    + intros [(y & Hy & _) Hall]. split.
      * intros Hnil. rewrite Hnil in Hy. by apply elem_of_nil in Hy.
      * intros r Hr. pose proof Hr as Hr'.
        apply list_elem_of_omap in Hr' as (b & _ & Hb).
        apply placebo_row_flags in Hb as (_ & _ & Hsome).
        apply Hall; [|done]. apply list_elem_of_fmap. by exists r.
    + intros [Hne Hall]. split.
      * destruct placebos as [|r rest] eqn:E; [done|].
        exists (effect_pct r). split; [apply list_elem_of_here|].
        assert (Hr : r ∈ placebos) by (rewrite E; apply list_elem_of_here).
        apply list_elem_of_omap in Hr as (b & _ & Hb).
        by apply placebo_row_flags in Hb as (_ & _ & Hsome).
      * intros y (r & -> & Hr)%list_elem_of_fmap _. by apply Hall.
  - rewrite !andb_true_iff.
    split.
    + intros [_ Hgt]. apply fgt_fmax_iff in Hgt as [(y & Hy & Hsome) Hall].
      split.
      * apply list_elem_of_fmap in Hy as (r & -> & Hr). by exists r.
      * intros r Hr Hs. apply Hall; [|done]. apply list_elem_of_fmap. by exists r.
    + intros [(r & Hr & Hs) Hall].
      assert (Hgt : fgt (its_slope_change chat_row)
                        (fmax (its_slope_change <$> placebos)) = true).
      { apply fgt_fmax_iff. split.
        - exists (its_slope_change r). split; [|done].
          apply list_elem_of_fmap. by exists r.
        - intros y (r' & -> & Hr')%list_elem_of_fmap Hs'. by apply Hall. }
      split; [|done].
      apply fgt_Some in Hgt as (a & b & -> & -> & _). done.
Qed.

(** *** Further properties of the placebo table and of the checker *)

(** A breakpoint with at least six non-missing periods on each side. *)
Definition testable (df : list Obs) (break_dt : Z) : Prop :=
  (6 <= length (col_dropna (before df break_dt)))%nat /\
  (6 <= length (col_dropna (after df break_dt)))%nat.

#[local] Instance testable_dec (df : list Obs) (break_dt : Z) :
  Decision (testable df break_dt).
Proof. unfold testable. apply _. Defined.

Lemma placebo_row_Some_iff (df : list Obs) (real_break break_dt : Z) :
  is_Some (placebo_row df real_break break_dt) <-> testable df break_dt.
Proof.
  unfold testable. split.
  - intros [row Hrow]. unfold placebo_row in Hrow.
    destruct (Z.ltb_spec 5 (Z.of_nat (length (col_dropna (before df break_dt)))));
      [|done].
    destruct (Z.ltb_spec 5 (Z.of_nat (length (col_dropna (after df break_dt)))));
      [|done]. lia.
  - intros [Hpre Hpost].
    destruct (placebo_row_exists df real_break break_dt Hpre Hpost) as [row Hrow].
    by exists row.
Qed.

Lemma omap_nil_iff {A B : Type} (f : A -> option B) (l : list A) :
  omap f l = [] <-> Forall (fun x => f x = None) l.
Proof.
  induction l as [|x l IH]; [by split; [constructor|]|].
  rewrite omap_cons. destruct (f x) eqn:E.
  - split; [done|]. intros H. apply Forall_cons in H as [H _]. congruence.
  - rewrite IH. split; [by constructor|]. by intros [_ ?]%Forall_cons.
Qed.

Lemma placebos_nil_iff (df : list Obs) (real_break : Z) (breaks : list Z) :
  omap (placebo_row df real_break) breaks = []
  <-> Forall (fun b => ~ testable df b) breaks.
Proof.
  rewrite omap_nil_iff. apply Forall_iff. intros b.
  rewrite <- (placebo_row_Some_iff df real_break b).
  rewrite eq_None_not_Some. done.
Qed.

(** X16. How the checker ends on one series.  It returns exactly when the
    real cutover has six non-missing periods on each side.  Otherwise it
    raises: [KeyError] when no placebo date has six per side either (the
    table has no column to select), [IndexError] when some placebo date has
    (the table has rows, none of them the real cutover). *)
Theorem robustness_of_series_outcome (df : list Obs) :
  ((exists res, robustness_of_series df = Ok res) <-> testable df CHATGPT_BREAK) /\
  (robustness_of_series df = Raise KeyError
   <-> ~ testable df CHATGPT_BREAK /\
       Forall (fun b => ~ testable df b) default_placebo_breaks) /\
  (robustness_of_series df = Raise IndexError
   <-> ~ testable df CHATGPT_BREAK /\
       Exists (testable df) default_placebo_breaks) /\
  robustness_of_series df <> Raise ValueError.
Proof.
  unfold robustness_of_series, placebo_test. cbv zeta.
  rewrite strftime_day_CHATGPT_BREAK. cbn [default omap list_omap].
  fold (omap (placebo_row df CHATGPT_BREAK) default_placebo_breaks).
  pose proof (placebo_row_Some_iff df CHATGPT_BREAK CHATGPT_BREAK) as Hreal.
  pose proof (placebo_rows_not_chatgpt df _ default_breaks_are_placebos) as Hpl.
  pose proof (placebos_nil_iff df CHATGPT_BREAK default_placebo_breaks) as Hnil.
  destruct (placebo_row df CHATGPT_BREAK CHATGPT_BREAK) as [chat_row|] eqn:Hchat.
  - assert (Ht : testable df CHATGPT_BREAK) by (by apply Hreal).
    apply placebo_row_flags in Hchat as (_ & Hflag & _).
    rewrite Z.eqb_refl in Hflag.
    rewrite filter_cons, decide_True by done.
    split; [split; [done|intros _; by eexists]|].
    split; [split; [done|tauto]|]. split; [split; [done|tauto]|done].
  - assert (Ht : ~ testable df CHATGPT_BREAK).
    { intros Ht. apply Hreal in Ht. by destruct Ht. }
    set (placebos := omap (placebo_row df CHATGPT_BREAK) default_placebo_breaks) in *.
    destruct placebos as [|r rs] eqn:E.
    + assert (Hall : Forall (fun b => ~ testable df b) default_placebo_breaks)
        by (by apply Hnil).
      split; [|split; [|split]].
      * split; [by intros [? ?]|done].
      * split; [done|]. done.
      * split; [done|]. intros [_ Hex]. exfalso.
        apply Exists_exists in Hex as (b & Hb & Htb).
        rewrite Forall_forall in Hall. by apply (Hall b).
      * done.
    + rewrite (filter_none (fun r => is_chatgpt r = true)).
      2:{ eapply Forall_impl; [exact Hpl|]. intros x Hx. simpl in Hx. congruence. }
      assert (Hsome : ~ Forall (fun b => ~ testable df b) default_placebo_breaks).
      { intros Hall. by apply Hnil in Hall. }
      split; [|split; [|split]].
      * split; [by intros [? ?]|done].
      * split; [done|]. by intros [_ Hall].
      * split; [|done]. intros _. split; [done|].
        apply not_Forall_Exists in Hsome; [|intros b; apply _].
        eapply Exists_impl; [exact Hsome|]. intros b Hb. simpl in Hb.
        by destruct (decide (testable df b)).
      * done.
Qed.

Lemma col_dropna_filter_notna (P : Obs -> Prop) `{forall r, Decision (P r)}
    (df : list Obs) :
  col_dropna (filter P (filter (fun r => is_Some (value r)) df))
  = col_dropna (filter P df).
Proof.
  unfold col_dropna. induction df as [|r df IH]; [done|].
  rewrite !(filter_cons _ r).
  destruct (decide (is_Some (value r))) as [Hs|Hn].
  - rewrite filter_cons. destruct (decide (P r)); [|done].
    by rewrite !omap_cons, IH.
  - destruct (decide (P r)); [|done].
    rewrite omap_cons. destruct (value r) eqn:E; [|done].
    destruct Hn. by eexists.
Qed.

Lemma filter_filter_sub {A : Type} (P Q : A -> Prop)
    `{forall x, Decision (P x)} `{forall x, Decision (Q x)} (l : list A) :
  (forall x, P x -> Q x) -> filter P (filter Q l) = filter P l.
Proof.
  intros HPQ. induction l as [|x l IH]; [done|].
  rewrite !(filter_cons _ x).
  destruct (decide (Q x)) as [Hq|Hq].
  - rewrite filter_cons. destruct (decide (P x)); by rewrite IH.
  - rewrite decide_False by (intros Hp; by apply Hq, HPQ). exact IH.
Qed.

Lemma placebo_row_notna (df : list Obs) (real_break break_dt : Z) :
  placebo_row (filter (fun r => is_Some (value r)) df) real_break break_dt
  = placebo_row df real_break break_dt.
Proof.
  unfold placebo_row, _fit_segmented, before, after.
  rewrite !col_dropna_filter_notna.
  by rewrite (filter_filter_sub _ (fun r => is_Some (value r))) by (by intros r [_ ?]).
Qed.

(** X17. The placebo table and the segmented regression are blind to the
    rows whose value is missing: removing those rows from the series
    changes neither, for any real cutover and any list of placebo dates. *)
Theorem placebo_test_ignores_missing_rows
    (df : list Obs) (real_break break_dt maxlags : Z)
    (placebo_breaks : option (list Z)) :
  let kept := filter (fun r => is_Some (value r)) df in
  placebo_test kept real_break placebo_breaks
  = placebo_test df real_break placebo_breaks /\
  _fit_segmented kept break_dt maxlags = _fit_segmented df break_dt maxlags /\
  length (col_dropna kept) = length kept.
Proof.
  intros kept. split; [|split].
  - unfold placebo_test. cbv zeta.
    generalize (strftime_day real_break
                :: default default_placebo_breaks placebo_breaks).
    intros l. induction l as [|b l IH]; [done|].
    unfold kept in *. by rewrite !omap_cons, placebo_row_notna, IH.
  - unfold _fit_segmented, kept.
    by rewrite (filter_filter_sub _ (fun r => is_Some (value r))) by (by intros r [_ ?]).
  - unfold kept, col_dropna. clear. induction df as [|r df IH]; [done|].
    rewrite filter_cons. destruct (decide (is_Some (value r))) as [[q Hq]|]; [|done].
    rewrite omap_cons, Hq. cbn [length]. by rewrite IH.
Qed.

Lemma omap_sublist {A B : Type} (f : A -> option B) (g : B -> A) (l : list A) :
  (forall x y, f x = Some y -> g y = x) -> g <$> omap f l `sublist_of` l.
Proof.
  intros Hfg. induction l as [|x l IH]; [done|].
  rewrite omap_cons. destruct (f x) as [y|] eqn:E.
  - rewrite fmap_cons, (Hfg x y E). by apply sublist_skip.
  - by apply sublist_cons.
Qed.

(** X18. The rows of the placebo table follow the order of the dates
    tried, the day of the real cutover first and then the placebo dates,
    with at most one row per date tried (nine with the built-in list), and
    a row is flagged as the real cutover exactly when its date equals the
    real cutover. *)
Theorem placebo_table_dates
    (df : list Obs) (real_break : Z) (placebo_breaks : option (list Z)) :
  let tried := strftime_day real_break
               :: default default_placebo_breaks placebo_breaks in
  break_date <$> placebo_test df real_break placebo_breaks `sublist_of` tried /\
  (length (placebo_test df real_break placebo_breaks) <= length tried)%nat /\
  (length (placebo_test df real_break None) <= 9)%nat /\
  (forall row, row ∈ placebo_test df real_break placebo_breaks ->
     testable df (break_date row) /\
     (is_chatgpt row = true <-> break_date row = real_break)).
Proof.
  intros tried.
  assert (Hsub : forall pb,
             break_date <$> placebo_test df real_break pb
             `sublist_of` strftime_day real_break :: default default_placebo_breaks pb).
  { intros pb. unfold placebo_test. apply omap_sublist.
    intros b row Hrow. by apply placebo_row_date in Hrow. }
  split; [apply Hsub|]. split; [|split].
  - specialize (Hsub placebo_breaks). apply sublist_length in Hsub.
    by rewrite length_fmap in Hsub.
  - specialize (Hsub None). apply sublist_length in Hsub.
    by rewrite length_fmap in Hsub.
  - intros row (b & _ & Hrow)%elem_of_placebo_test.
    assert (Ht : testable df b) by (apply (placebo_row_Some_iff df real_break); by eexists).
    apply placebo_row_flags in Hrow as (-> & -> & _).
    split; [done|]. apply Z.eqb_eq.
Qed.

(** X19. When the real cutover is not at midnight and is not among the
    placebo dates, no row of the placebo table is flagged as the real
    cutover: the table tries the day of the cutover, and the flag compares
    that day with the cutover itself. *)
Theorem cutover_off_midnight_is_never_flagged
    (df : list Obs) (real_break : Z) (placebo_breaks : option (list Z)) :
  strftime_day real_break <> real_break ->
  real_break ∉ default default_placebo_breaks placebo_breaks ->
  Forall (fun row => is_chatgpt row = false)
         (placebo_test df real_break placebo_breaks).
Proof.
  intros Hday Hnot. apply Forall_forall.
  intros row (b & Hb & Hrow)%elem_of_placebo_test.
  apply placebo_row_flags in Hrow as (_ & -> & _).
  apply Z.eqb_neq. intros ->.
  apply elem_of_cons in Hb as [Hb|Hb]; [by symmetry in Hb|done].
Qed.

Lemma effect_sign (a b : Q) :
  (0 < a)%Q ->
  ((0 < (b - a) / a * 100)%Q <-> (a < b)%Q) /\
  (((b - a) / a * 100 == 0)%Q <-> (a == b)%Q).
Proof.
  intros Ha.
  assert (Hinv : (0 < / a)%Q) by (apply Qinv_lt_0_compat; exact Ha).
  unfold Qdiv. set (i := (/ a)%Q) in *.
  assert (E : (a * i == 1)%Q).
  { unfold i. apply Qmult_inv_r. intros H. rewrite H in Ha. discriminate. }
  split; split; intros H; nra.
Qed.

(** X20. In every row of the placebo table both medians are numbers.
    When the pre-period median is positive the effect is the relative
    change in percent: it is positive exactly when the post-period median
    is larger, and zero exactly when the two medians are equal.  The row is
    marked significant exactly when the rank test's p-value is a number
    below 0.001. *)
Theorem placebo_row_effect
    (df : list Obs) (real_break break_dt : Z) (row : PlaceboRow) :
  placebo_row df real_break break_dt = Some row ->
  exists a b e,
    pre_median row = Some a /\ post_median row = Some b /\
    effect_pct row = Some e /\
    ((0 < a)%Q -> (e == (b - a) / a * 100)%Q /\
                  ((0 < e)%Q <-> (a < b)%Q) /\ ((e == 0)%Q <-> (a == b)%Q)) /\
    (significant row = true
     <-> exists p, p_value row = Some p /\ (p < 1 # 1000)%Q).
Proof.
  unfold placebo_row.
  set (pre := col_dropna (before df break_dt)).
  set (post := col_dropna (after df break_dt)).
  destruct (Z.ltb_spec 5 (Z.of_nat (length pre))) as [Hpre|]; [|done].
  destruct (Z.ltb_spec 5 (Z.of_nat (length post))) as [Hpost|]; [|done].
  cbn [andb]. intros [= <-].
  cbn [pre_median post_median effect_pct significant p_value].
  destruct (median_is_Some pre) as [a Ha]; [by destruct pre; simpl in *; try lia|].
  destruct (median_is_Some post) as [b Hb]; [by destruct post; simpl in *; try lia|].
  rewrite Ha, Hb. exists a, b.
  assert (Hsig : flt (mannwhitneyu pre post).2 (Some (1 # 1000)%Q) = true
                 <-> exists p, (mannwhitneyu pre post).2 = Some p /\ (p < 1 # 1000)%Q).
  { unfold flt. split.
    - intros (x & y & [= <-] & Hp & Hlt)%fgt_Some. by exists y.
    - intros (p & -> & Hlt). apply fgt_Some. by exists (1 # 1000)%Q, p. }
  destruct (fgt (Some a) (Some 0%Q)) eqn:E.
  - apply fgt_Some in E as (? & ? & [= <-] & [= <-] & Hlt).
    unfold fmul, fdiv, fsub.
    destruct (Qeq_bool a 0) eqn:Hz.
    { apply Qeq_bool_iff in Hz. rewrite Hz in Hlt. by apply Qlt_irrefl in Hlt. }
    eexists. repeat (split; [reflexivity|]). split; [|exact Hsig].
    intros _. split; [reflexivity|]. by apply effect_sign.
  - exists 0%Q. repeat (split; [reflexivity|]). split; [|exact Hsig].
    intros Hpos. exfalso.
    assert (fgt (Some a) (Some 0%Q) = true) by (apply fgt_Some; by exists a, 0%Q).
    congruence.
Qed.

(** X21. The pre-trend test reports a significant trend exactly when at
    least twelve rows precede the cutover, rows with a missing value
    included, and the regression's p-value for the time regressor is a
    number below 0.05; with fewer rows all three figures are NaN. *)
Theorem pre_trend_significant_iff (df : list Obs) (break_dt : Z) :
  (pre_trend_significant (pre_trend_test df break_dt) = true <->
   (12 <= length (before df break_dt))%nat /\
   exists p, pre_p_value_hac (pre_trend_test df break_dt) = Some p /\
             (p < 5 # 100)%Q) /\
  ((length (before df break_dt) < 12)%nat ->
   pre_trend_test df break_dt = mkPreTrend nan nan nan false).
Proof.
  unfold pre_trend_test. cbv zeta.
  destruct (Z.ltb_spec (Z.of_nat (length (before df break_dt))) 12) as [Hlt|Hge].
  - cbn. split; [|done]. split; [done|]. intros [? _]. lia.
  - cbn [pre_trend_significant pre_p_value_hac]. split; [|lia].
    set (p := pvalues _ "time"). split.
    + intros [Hn Hp]%andb_true_iff. split; [lia|]. unfold flt in Hp.
      apply fgt_Some in Hp as (x & y & [= <-] & Hy & Hlt). by exists y.
    + intros (_ & q & -> & Hlt). apply andb_true_iff. split; [done|].
      unfold flt. apply fgt_Some. by exists (5 # 100)%Q, q.
Qed.

(** *** The regressors handed to the segmented regression *)

Lemma fmap_const_replicate {A B : Type} (f : A -> B) (c : B) (l : list A) :
  Forall (fun x => f x = c) l -> f <$> l = replicate (length l) c.
Proof.
  induction 1 as [|x l Hx _ IH]; [done|].
  rewrite fmap_cons, Hx, IH. done.
Qed.

Lemma date_leb_trans (a b c : Obs) :
  date_leb a b = true -> date_leb b c = true -> date_leb a c = true.
Proof.
  unfold date_leb. destruct (date c) as [z|]; [|done].
  destruct (date b) as [y|]; [|done]. destruct (date a) as [x|]; [|done].
  rewrite !Z.leb_le. lia.
Qed.

Lemma date_leb_total (a b : Obs) : date_leb a b = false -> date_leb b a = true.
Proof.
  unfold date_leb. destruct (date b) as [y|]; [|done].
  destruct (date a) as [x|]; [|done]. rewrite Z.leb_gt, Z.leb_le. lia.
Qed.

(** On rows sorted by date the indicator of the post period is a run of
    zeros followed by a run of ones. *)
Lemma indicator_sorted (break_dt : Z) (d : list Obs) :
  Sorted (fun a b => date_leb a b = true) d ->
  Forall (fun r => is_Some (date r)) d ->
  exists k m,
    (fun r => if decide (date_ge r break_dt) then 1 else 0) <$> d
    = replicate k 0 ++ replicate m 1.
Proof.
  intros Hs. apply Sorted_StronglySorted in Hs.
  2:{ intros x y z. apply date_leb_trans. }
  induction Hs as [|x l _ IH Hall]; intros Hd.
  - by exists 0%nat, 0%nat.
  - apply Forall_cons in Hd as [Hx Hd]. destruct (IH Hd) as (k & m & IHl).
    rewrite fmap_cons. destruct (decide (date_ge x break_dt)) as [Hge|Hlt].
    + exists 0%nat, (S (length l)). cbn [replicate app]. f_equal.
      apply fmap_const_replicate. rewrite Forall_forall in Hall, Hd.
      apply Forall_forall. intros y Hy.
      specialize (Hall y Hy). destruct (Hd y Hy) as [dy Hdy].
      rewrite decide_True; [done|].
      unfold date_ge, date_leb in *. destruct Hx as [dx Hdx].
      rewrite Hdx in *. rewrite Hdy in *. apply Z.leb_le in Hall. lia.
    + exists (S k), m. cbn [replicate app]. by rewrite IHl.
Qed.

Lemma filter_zeros_ones (k m : nat) :
  length (filter (fun p => p = 0) (replicate k 0 ++ replicate m 1)) = k /\
  length (filter (fun p => p = 1) (replicate k 0 ++ replicate m 1)) = m.
Proof.
  induction k as [|k [IH0 IH1]].
  - cbn [replicate app]. induction m as [|m [IH0 IH1]]; [done|].
    cbn [replicate]. rewrite !filter_cons.
    rewrite decide_False by done. rewrite decide_True by done.
    cbn [length]. by rewrite IH0, IH1.
  - cbn [replicate app]. rewrite !filter_cons.
    rewrite decide_True by done. rewrite decide_False by done.
    cbn [length]. by rewrite IH0, IH1.
Qed.

Lemma zip_mul_zeros (l : list Z) :
  zip_with Z.mul l (replicate (length l) 0) = replicate (length l) 0.
Proof.
  induction l as [|x l IH]; [done|].
  cbn [length replicate zip_with]. rewrite IH. f_equal. lia.
Qed.

Lemma zip_mul_ones (l : list Z) :
  zip_with Z.mul l (replicate (length l) 1) = l.
Proof.
  induction l as [|x l IH]; [done|].
  cbn [length replicate zip_with]. rewrite IH. f_equal. lia.
Qed.

Lemma time_post_split (k m : nat) :
  zip_with Z.mul (Z.of_nat <$> seq 0 (k + m)) (replicate k 0 ++ replicate m 1)
  = replicate k 0 ++ (Z.of_nat <$> seq k m).
Proof.
  rewrite seq_app, fmap_app, zip_with_app by (by rewrite length_fmap, length_seq, length_replicate).
  f_equal.
  - pose proof (zip_mul_zeros (Z.of_nat <$> seq 0 k)) as H.
    by rewrite length_fmap, length_seq in H.
  - pose proof (zip_mul_ones (Z.of_nat <$> seq (0 + k) m)) as H.
    by rewrite length_fmap, length_seq in H.
Qed.

(** X22. What a fitted segmented regression was fitted on.  Whenever
    [_fit_segmented] returns a fit, with [k] non-missing periods before the
    cutover and [m] from it on, both are at least twelve; the regressors
    are a constant, the time index [0 .. k+m-1], the post indicator ([k]
    zeros then [m] ones), and their product ([k] zeros then the time index
    from [k] on); and with [maxlags] at most 23 the lag guard never binds:
    the covariance uses exactly [maxlags] lags. *)
Theorem fit_segmented_design
    (df : list Obs) (break_dt maxlags : Z) (seg : SegFit) :
  _fit_segmented df break_dt maxlags = Some seg ->
  maxlags <= 23 ->
  let d := sort_by date_leb
                   (filter (fun r => is_Some (date r) /\ is_Some (value r)) df) in
  let k := length (col_dropna (before df break_dt)) in
  let m := length (col_dropna (after df break_dt)) in
  let model :=
    OLS_fit_HAC (value <$> d)
      [ ("const"%string, replicate (k + m) 1);
        ("time"%string, Z.of_nat <$> seq 0 (k + m));
        ("post"%string, replicate k 0 ++ replicate m 1);
        ("time_post"%string, replicate k 0 ++ (Z.of_nat <$> seq k m)) ]
      maxlags in
  (12 <= k)%nat /\ (12 <= m)%nat /\ length d = (k + m)%nat /\
  Sorted (fun a b => date_leb a b = true) d /\
  Forall (fun r => is_Some (date r) /\ is_Some (value r)) d /\
  seg = mkSegFit (Z.of_nat k) (Z.of_nat m)
                 (params model "time") (params model "time_post")
                 (fadd (params model "time") (params model "time_post"))
                 (pvalues model "time_post")
                 (params model "post") (pvalues model "post")
                 (rsquared model).
Proof.
  intros Hfit Hlags d k m.
  assert (Hsorted : Sorted (fun a b => date_leb a b = true) d).
  { apply sort_by_Sorted. apply date_leb_total. }
  assert (Hcomplete : Forall (fun r => is_Some (date r) /\ is_Some (value r)) d).
  { unfold d. rewrite sort_by_perm. apply Forall_forall.
    by intros r [? _]%list_elem_of_filter. }
  destruct (indicator_sorted break_dt d Hsorted (fit_rows_dated df))
    as (k' & m' & Hind).
  destruct (fit_segmented_sides df break_dt) as [Hk Hm].
  fold d in Hk, Hm. fold k in Hk. fold m in Hm.
  destruct (filter_zeros_ones k' m') as [Hk' Hm'].
  rewrite Hind, Hk' in Hk. rewrite Hind, Hm' in Hm. subst k' m'.
  assert (Hlen : length d = (k + m)%nat).
  { rewrite <- (length_fmap (fun r => if decide (date_ge r break_dt) then 1 else 0)).
    by rewrite Hind, length_app, !length_replicate. }
  unfold _fit_segmented in Hfit. fold d in Hfit. cbv zeta in Hfit.
  rewrite Hind, Hk', Hm', Hlen in Hfit.
  destruct (Z.ltb_spec (Z.of_nat k) 12) as [|Hk12]; [done|].
  destruct (Z.ltb_spec (Z.of_nat m) 12) as [|Hm12]; [done|].
  cbn [orb] in Hfit. injection Hfit as <-.
  rewrite time_post_split.
  rewrite (fmap_const_replicate (fun _ : Obs => 1) 1 d)
    by (apply Forall_forall; done).
  rewrite Hlen.
  replace (Z.min maxlags (Z.max 0 (Z.of_nat (k + m) - 1))) with maxlags by lia.
  repeat (split; [lia || done|]). reflexivity.
Qed.

(** *** [run_robustness] over all series (lines 166-294) *)

(** One turn of the loop over [dfs.items()]: an exception in one series
    ends the run. *)
Definition series_step (acc : result (list (string * SeriesResult)))
    (item : string * list Obs) : result (list (string * SeriesResult)) :=
  match acc with
  | Raise e => Raise e
  | Ok all_results =>
    match robustness_of_series item.2 with
    | Raise e => Raise e
    | Ok res => Ok (all_results ++ [(item.1, res)])
    end
  end.

(** [None] is the early [return None] when no series was loaded. *)
Definition run_robustness (dfs : list (string * list Obs))
    : result (option (list (string * SeriesResult))) :=
  match dfs with
  | [] => Ok None
  | _ :: _ =>
    match foldl series_step (Ok []) dfs with
    | Raise e => Raise e
    | Ok all_results => Ok (Some all_results)
    end
  end.

Lemma robustness_of_series_Ok_iff (df : list Obs) :
  (exists res, robustness_of_series df = Ok res) <-> testable df CHATGPT_BREAK.
Proof.
  unfold robustness_of_series, placebo_test. cbv zeta.
  rewrite strftime_day_CHATGPT_BREAK. cbn [default]. rewrite omap_cons.
  pose proof (placebo_row_Some_iff df CHATGPT_BREAK CHATGPT_BREAK) as Hreal.
  pose proof (placebo_rows_not_chatgpt df _ default_breaks_are_placebos) as Hpl.
  destruct (placebo_row df CHATGPT_BREAK CHATGPT_BREAK) as [chat_row|] eqn:Hchat.
  - apply placebo_row_flags in Hchat as (_ & Hflag & _).
    rewrite Z.eqb_refl in Hflag. rewrite filter_cons, decide_True by done.
    split; [intros _; by apply Hreal|intros _; by eexists].
  - split; [|intros Ht; apply Hreal in Ht; by destruct Ht].
    intros [res Hres]. exfalso.
    destruct (omap _ default_placebo_breaks) as [|r rs]; [done|].
    rewrite (filter_none (fun r => is_chatgpt r = true)) in Hres; [done|].
    eapply Forall_impl; [exact Hpl|]. intros x Hx. simpl in Hx. congruence.
Qed.

Lemma series_loop_raise (e : Error) (dfs : list (string * list Obs)) :
  foldl series_step (Raise e) dfs = Raise e.
Proof. induction dfs as [|d dfs IH]; [done|]. exact IH. Qed.

Lemma series_loop_Ok_inv (dfs : list (string * list Obs))
    (acc out : list (string * SeriesResult)) :
  foldl series_step (Ok acc) dfs = Ok out ->
  exists rs, out = acc ++ rs /\ rs.*1 = dfs.*1 /\
             Forall2 (fun d r => robustness_of_series d.2 = Ok r.2) dfs rs.
Proof.
  revert acc. induction dfs as [|d dfs IH]; intros acc.
  - intros [= <-]. exists []. by rewrite app_nil_r.
  - cbn [foldl]. unfold series_step at 2.
    destruct (robustness_of_series d.2) as [res|e] eqn:E.
    + intros (rs & -> & Hnames & Hall)%IH. exists ((d.1, res) :: rs).
      rewrite <- app_assoc. split; [done|]. split.
      * rewrite !fmap_cons. by rewrite Hnames.
      * by constructor.
    + by rewrite series_loop_raise.
Qed.

Lemma series_loop_Ok (dfs : list (string * list Obs))
    (acc : list (string * SeriesResult)) :
  Forall (fun d => testable d.2 CHATGPT_BREAK) dfs ->
  exists out, foldl series_step (Ok acc) dfs = Ok out.
Proof.
  intros Hall. revert acc. induction Hall as [|d dfs Hd _ IH]; intros acc.
  - by exists acc.
  - cbn [foldl]. unfold series_step at 2.
    apply robustness_of_series_Ok_iff in Hd as [res ->]. apply IH.
Qed.

(** X23. The run over all loaded series is all or nothing.  With no series
    it returns nothing.  Otherwise it returns a table exactly when every
    series has six non-missing periods on each side of the real cutover;
    the table then has one row per series, in the order the series were
    loaded, each holding that series' result.  One series that cannot be
    tested at the real cutover makes the whole run raise. *)
Theorem run_robustness_all_or_nothing (dfs : list (string * list Obs)) :
  (run_robustness dfs = Ok None <-> dfs = []) /\
  ((exists table, run_robustness dfs = Ok (Some table))
   <-> dfs <> [] /\ Forall (fun d => testable d.2 CHATGPT_BREAK) dfs) /\
  (forall table, run_robustness dfs = Ok (Some table) ->
     table.*1 = dfs.*1 /\
     Forall2 (fun d r => robustness_of_series d.2 = Ok r.2) dfs table) /\
  (Exists (fun d => ~ testable d.2 CHATGPT_BREAK) dfs ->
   exists e, run_robustness dfs = Raise e).
Proof.
  assert (Hinv : forall table, run_robustness dfs = Ok (Some table) ->
            dfs <> [] /\ table.*1 = dfs.*1 /\
            Forall2 (fun d r => robustness_of_series d.2 = Ok r.2) dfs table).
  { intros table. unfold run_robustness. destruct dfs as [|d dfs']; [done|].
    destruct (foldl _ _ _) as [out|e] eqn:E; [|done]. intros [= <-].
    apply series_loop_Ok_inv in E as (rs & -> & Hn & Hall). done. }
  assert (Htest : forall table, run_robustness dfs = Ok (Some table) ->
            Forall (fun d => testable d.2 CHATGPT_BREAK) dfs).
  { intros table (_ & _ & Hall)%Hinv. apply Forall_forall. intros d Hd.
    apply list_elem_of_lookup in Hd as [i Hi].
    destruct (Forall2_lookup_l _ _ _ _ _ Hall Hi) as (r & _ & Hr).
    apply robustness_of_series_Ok_iff. by eexists. }
  split; [|split; [|split]].
  - unfold run_robustness. destruct dfs as [|d dfs']; [done|].
    destruct (foldl _ _ _); done.
  - split.
    + intros [table Ht]. split; [by apply (Hinv table)|by apply (Htest table)].
    + intros [Hne Hall]. unfold run_robustness.
      destruct dfs as [|d dfs']; [done|].
      destruct (series_loop_Ok (d :: dfs') [] Hall) as [out ->]. by eexists.
  - intros table Ht. by apply Hinv in Ht as (_ & ? & ?).
  - intros Hex. destruct (run_robustness dfs) as [[table|]|e] eqn:E.
    + exfalso. pose proof (Htest table eq_refl) as HF.
      apply Exists_exists in Hex as (d & Hd & Hn).
      rewrite Forall_forall in HF. by apply Hn, HF.
    + exfalso. unfold run_robustness in E. destruct dfs as [|d dfs'].
      * by apply Exists_nil in Hex.
      * destruct (foldl _ _ _); done.
    + by exists e.
Qed.

End Routines.
End Robustness.

(** ** Concrete inputs *)

Module Sample.
Import Frame Calendar.

(** *** A timestamp parser and month labels for ISO-formatted cells *)

Definition digit (a : ascii) : option Z :=
  let n := Z.of_N (N_of_ascii a) in
  if (48 <=? n) && (n <=? 57) then Some (n - 48) else None.

Fixpoint number_from (acc : Z) (s : string) : option Z :=
  match s with
  | EmptyString => Some acc
  | String a s' =>
    match digit a with
    | Some d => number_from (10 * acc + d) s'
    | None => None
    end
  end.

Definition field (start len : nat) (s : string) : option Z :=
  let part := substring start len s in
  if (String.length part =? len)%nat then number_from 0 part else None.

Definition separator (i : nat) (c : ascii) (s : string) : bool :=
  match get i s with
  | Some a => if decide (a = c) then true else false
  | None => false
  end.

Definition days_in_month (y m : Z) : Z :=
  days_from_civil (if m =? 12 then y + 1 else y) (if m =? 12 then 1 else m + 1) 1
  - days_from_civil y m 1.

(** A cell of the form [YYYYsMMsDD HH:MM:SS] read with the format
    [%Ys%ms%d %H:%M:%S], for a date separator [s]; NaT when the cell does
    not match the format. *)
Definition parse_with (sep : ascii) (s : string) : option Z :=
  if (String.length s =? 19)%nat
     && separator 4 sep s && separator 7 sep s && separator 10 " " s
     && separator 13 ":" s && separator 16 ":" s
  then
    match field 0 4 s, field 5 2 s, field 8 2 s,
          field 11 2 s, field 14 2 s, field 17 2 s with
    | Some y, Some mo, Some d, Some h, Some mi, Some se =>
      if (1 <=? mo) && (mo <=? 12) && (1 <=? d) && (d <=? days_in_month y mo)
         && (h <=? 23) && (mi <=? 59) && (se <=? 59)
      then Some ((((days_from_civil y mo d * 24 + h) * 60 + mi) * 60 + se)
                 * 1000000000)
      else None
    | _, _, _, _, _, _ => None
    end
  else None.

(** The format inferred from a cell: dashes, slashes, or none. *)
Definition guess_format (s : string) : option ascii :=
  match parse_with "-" s, parse_with "/" s with
  | Some _, _ => Some "-"%char
  | None, Some _ => Some "/"%char
  | None, None => None
  end.

(** A cell parsed on its own, in whichever of the two formats it has. *)
Definition parse_any (s : string) : option Z :=
  match parse_with "-" s with
  | Some ts => Some ts
  | None => parse_with "/" s
  end.

(** [pd.to_datetime(cells, errors="coerce")] on cells of the two forms
    [YYYY-MM-DD HH:MM:SS] and [YYYY/MM/DD HH:MM:SS]: the format is inferred
    from the first cell and every cell of the chunk is read with it, a cell
    in the other form becoming NaT; when the first cell has neither form no
    format is inferred and each cell is parsed on its own. *)
Definition to_datetime (cells : list string) : list (option Z) :=
  match cells with
  | [] => []
  | first :: _ =>
    match guess_format first with
    | Some sep => parse_with sep <$> cells
    | None => parse_any <$> cells
    end
  end.

(** Year and month of a day number (inverse of [days_from_civil]). *)
Definition civil_year_month (z : Z) : Z * Z :=
  let z := z + 719468 in
  let era := z `div` 146097 in
  let doe := z - era * 146097 in
  let yoe := (doe - doe `div` 1460 + doe `div` 36524 - doe `div` 146096) `div` 365 in
  let doy := doe - (365 * yoe + yoe `div` 4 - yoe `div` 100) in
  let mp := (5 * doy + 2) `div` 153 in
  let m := if mp <? 10 then mp + 3 else mp - 9 in
  (if m <=? 2 then yoe + era * 400 + 1 else yoe + era * 400, m).

Definition digit_char (d : Z) : ascii := ascii_of_N (Z.to_N (48 + d `mod` 10)).

Definition two_digits (n : Z) : string :=
  String (digit_char (n `div` 10)) (String (digit_char n) EmptyString).

Definition to_period_M (ns : Z) : string :=
  let ym := civil_year_month (ns `div` DAY_NS) in
  two_digits (ym.1 `div` 100) +:+ two_digits ym.1 +:+ "-" +:+ two_digits ym.2.

Definition month_start (label : string) : Z :=
  match field 0 4 label, field 5 2 label with
  | Some y, Some m => timestamp y m 1
  | _, _ => 0
  end.

(** *** Stand-ins for the statistical routines

    The facts evaluated below hold whatever the routines return; these
    report nothing. *)
Definition no_rank_test (pre post : list Q) : Float * Float := (nan, nan).
Definition no_regression (endog : list Float) (exog : list (string * list Z))
    (maxlags : Z) : Robustness.OLSResults :=
  Robustness.mkOLSResults (fun _ => nan) (fun _ => nan) nan.

(** *** Event rows *)

Definition note (a : string) (tid : Z) (d t l : string) : Layer3.Row :=
  Layer3.mkRow (Some a) (Some tid) (Some d) (Some t) (Some l).

(** A subject created on 2023-01-05 00:00:00 UTC. *)
Definition tweet_a : Z := Z.shiftl (1672876800000 - Snowflake.TWITTER_EPOCH_MS) 22.
(** A subject created on 2023-02-01 00:00:00 UTC. *)
Definition tweet_b : Z := Z.shiftl (1675209600000 - Snowflake.TWITTER_EPOCH_MS) 22.

Definition good_row : Layer3.Row :=
  note "alice" tweet_a "2023-01-05" "12:00:00" "en".

(** The author cell is blank. *)
Definition no_author_row : Layer3.Row :=
  Layer3.mkRow None (Some tweet_a) (Some "2023-01-06"%string)
               (Some "08:00:00"%string) (Some "en"%string).

(** Four well-formed rows in two languages, two rows each. *)
Definition two_languages : list Layer3.Row :=
  [ note "alice" tweet_a "2023-01-05" "12:00:00" "en";
    note "bob" tweet_a "2023-01-05" "13:00:00" "fr";
    note "carol" tweet_b "2023-02-01" "06:00:00" "fr";
    note "alice" tweet_b "2023-02-02" "00:00:00" "en" ].

(** Two rows whose dates are written in two formats. *)
Definition two_formats : list Layer3.Row :=
  [ note "alice" tweet_a "2023-01-05" "12:00:00" "en";
    note "bob" tweet_a "2023/01/05" "13:00:00" "en" ].

(** The subject id cell is blank. *)
Definition no_subject_row : Layer3.Row :=
  Layer3.mkRow (Some "alice"%string) None (Some "2023-01-06"%string)
               (Some "08:00:00"%string) (Some "en"%string).

Definition compute_monthly_metrics :=
  Layer3.compute_monthly_metrics to_datetime to_period_M month_start.

(** The rows of a file with the [note_ts] each gets in its chunk. *)
Definition read (rows : list Layer3.Row) (chunksize : Z) : list (Layer3.Row * option Z) :=
  Layer3.assigned to_datetime (Z.to_nat chunksize) rows.

(** Accumulators in which January 2023 has three notes and no author. *)
Definition month_without_authors : Layer3.State :=
  Layer3.mkState {[ "2023-01"%string := 3 ]} ∅ ∅ [("en"%string, 3)] ∅ ∅ 3 0.

Definition month_without_authors_row : Layer3.MonthlyRow :=
  Layer3.mkMonthlyRow "2023-01" 3 0 nan 1672531200000000000 nan.

Definition month_without_authors_output : Layer3.Output :=
  Layer3.mkOutput [month_without_authors_row]
    (Layer3.mkTotals 3 0 0 0)
    [Layer3.mkLangRow "en" 3 (Some (3 # 3)%Q) 0].

(** Accumulators after reading [two_languages]. *)
Definition two_languages_state : Layer3.State :=
  Layer3.run to_datetime to_period_M (Z.to_nat 200000) two_languages.

Definition january_row : Layer3.MonthlyRow :=
  Layer3.mkMonthlyRow "2023-01" 2 2 (Some (2 # 2)%Q) 1672531200000000000
                      (Some (43200000 # 3600000)%Q).

Definition february_row : Layer3.MonthlyRow :=
  Layer3.mkMonthlyRow "2023-02" 2 2 (Some (2 # 2)%Q) 1675209600000000000
                      (Some (21600000 # 3600000)%Q).

Definition two_languages_output : Layer3.Output :=
  Layer3.mkOutput [january_row; february_row]
    (Layer3.mkTotals 4 3 2 0)
    [ Layer3.mkLangRow "en" 2 (Some (2 # 4)%Q) 1;
      Layer3.mkLangRow "fr" 2 (Some (2 # 4)%Q) 2 ].

(** *** Monthly series around the real cutover *)

Definition obs (y m : Z) (v : Z) : Robustness.Obs :=
  Robustness.mkObs (Some (timestamp y m 1)) (Some (inject_Z v)).

(** August 2022 to January 2023: three months on each side. *)
Definition three_per_side : list Robustness.Obs :=
  [ obs 2022 8 10; obs 2022 9 10; obs 2022 10 10;
    obs 2022 11 20; obs 2022 12 20; obs 2023 1 20 ].

(** May 2022 to April 2023: six months at 10, then six months at 20. *)
Definition jump_at_cutover : list Robustness.Obs :=
  [ obs 2022 5 10; obs 2022 6 10; obs 2022 7 10;
    obs 2022 8 10; obs 2022 9 10; obs 2022 10 10;
    obs 2022 11 20; obs 2022 12 20; obs 2023 1 20;
    obs 2023 2 20; obs 2023 3 20; obs 2023 4 20 ].

(** The same months, at zero before the cutover. *)
Definition zero_before_cutover : list Robustness.Obs :=
  [ obs 2022 5 0; obs 2022 6 0; obs 2022 7 0;
    obs 2022 8 0; obs 2022 9 0; obs 2022 10 0;
    obs 2022 11 20; obs 2022 12 20; obs 2023 1 20;
    obs 2023 2 20; obs 2023 3 20; obs 2023 4 20 ].

(** November 2021 to October 2023: twelve months on each side. *)
Definition two_years : list Robustness.Obs :=
  [ obs 2021 11 10; obs 2021 12 10; obs 2022 1 10; obs 2022 2 10;
    obs 2022 3 10; obs 2022 4 10; obs 2022 5 10; obs 2022 6 10;
    obs 2022 7 10; obs 2022 8 10; obs 2022 9 10; obs 2022 10 10;
    obs 2022 11 20; obs 2022 12 20; obs 2023 1 20; obs 2023 2 20;
    obs 2023 3 20; obs 2023 4 20; obs 2023 5 20; obs 2023 6 20;
    obs 2023 7 20; obs 2023 8 20; obs 2023 9 20; obs 2023 10 20 ].

(** Four months around the cutover; the November value is missing and one
    row has no date. *)
Definition series_with_gaps : list Robustness.Obs :=
  [ obs 2022 10 10;
    Robustness.mkObs (Some (timestamp 2022 11 1)) None;
    Robustness.mkObs None (Some (inject_Z 15));
    obs 2022 12 20 ].
(** *** The aggregator on the sample rows *)

Example to_datetime_noon :
  to_datetime ["2023-01-05 12:00:00"%string] = [Some 1672920000000000000]
  /\ to_period_M 1672920000000000000 = "2023-01"%string
  /\ to_datetime ["<NA> 12:00:00"%string] = [None].
Proof. by vm_compute. Qed.

(** The format of a chunk is that of its first cell: the second cell of
    [two_formats] is read when it is a chunk of its own and is NaT in the
    chunk of both rows. *)
Example to_datetime_format_of_first_cell :
  to_datetime (Layer3.cell <$> two_formats) = [Some 1672920000000000000; None]
  /\ to_datetime (Layer3.cell <$> drop 1 two_formats) = [Some 1672923600000000000]
  /\ to_datetime (Layer3.cell <$> reverse two_formats)
     = [Some 1672923600000000000; None].
Proof. by vm_compute. Qed.

(** A chunk whose cells all have the dashed form is read cell by cell, so
    a file of such cells is read cell by cell at every chunk size. *)
Lemma to_datetime_dashed (cells : list string) :
  Forall (fun c => is_Some (parse_with "-" c)) cells ->
  to_datetime cells = parse_with "-" <$> cells.
Proof.
  destruct cells as [|c cells]; [done|].
  intros [[t Ht] _]%Forall_cons. unfold to_datetime, guess_format.
  by rewrite Ht.
Qed.

Lemma dashed_file_cellwise (rows : list Layer3.Row) (chunksize : nat) :
  (1 <= chunksize)%nat ->
  Forall (fun r => is_Some (parse_with "-" (Layer3.cell r))) rows ->
  Forall (Layer3.cellwise to_datetime (parse_with "-")) (chunks chunksize rows).
Proof.
  intros Hn Hrows. apply (Layer3.Forall_chunks _ chunksize rows Hn) in Hrows.
  eapply Forall_impl; [exact Hrows|]. intros chunk Hchunk.
  unfold Layer3.cellwise. rewrite to_datetime_dashed.
  - by rewrite <- list_fmap_compose.
  - by apply Forall_fmap.
Qed.

Example two_languages_whole_file :
  compute_monthly_metrics two_languages 200000 = Ok two_languages_output.
Proof. by vm_compute. Qed.

(** A row with a blank author cell next to one good row: the run counts two
    rows in [total_notes] and reports the one language at a share of 1/2,
    where the file without the dropped row has one row and a share of 1.  A
    file made of the dropped row alone returns no totals at all, and a row
    with a blank subject id is not dropped and counted: the run raises. *)
Lemma dropped_row_counted_in_total_notes :
  Layer3.dropna (read [no_author_row] 200000) = [] /\
  (exists o o',
     compute_monthly_metrics [good_row] 200000 = Ok o /\
     compute_monthly_metrics [good_row; no_author_row] 200000 = Ok o' /\
     Layer3.totals o = Layer3.mkTotals 1 1 1 0 /\
     Layer3.totals o' = Layer3.mkTotals 2 1 1 1 /\
     Layer3.Notes_Share <$> Layer3.lang_df o = [Some (1 # 1)%Q] /\
     Layer3.Notes_Share <$> Layer3.lang_df o' = [Some (1 # 2)%Q]) /\
  compute_monthly_metrics [no_author_row] 200000 = Raise TypeError /\
  compute_monthly_metrics [good_row; no_subject_row] 200000 = Raise ValueError.
Proof.
  split; [by vm_compute|]. split; [|split; by vm_compute].
  eexists _, _. split; [by vm_compute|]. split; [by vm_compute|].
  by vm_compute.
Qed.

Lemma dropped_row_accounting_witness :
  (None = (None : option Z)
   \/ Layer3.noteAuthorParticipantId no_author_row = None) /\
  1 <= 200000 /\
  Layer3.dropped_rows
    (Layer3.process_assigned to_period_M Layer3.init
       ([(good_row, Some 1672920000000000000)] ++ [(no_author_row, None)]))
  = Layer3.dropped_rows
      (Layer3.process_assigned to_period_M Layer3.init
         ([(good_row, Some 1672920000000000000)] ++ [])) + 1 /\
  (forall out,
     compute_monthly_metrics [good_row; no_author_row] 200000 = Ok out ->
     Layer3.total_notes (Layer3.totals out) = 2 /\
     Layer3.totals_dropped_rows (Layer3.totals out) = 1) /\
  compute_monthly_metrics [good_row; no_subject_row] 200000 = Raise ValueError /\
  compute_monthly_metrics [no_author_row] 200000 = Raise TypeError.
Proof.
  assert (H1 : (None = (None : option Z)
                \/ Layer3.noteAuthorParticipantId no_author_row = None))
    by (right; reflexivity).
  assert (H2 : 1 <= 200000) by lia.
  pose proof (Layer3.dropped_row_accounting to_datetime to_period_M month_start
                Layer3.init [(good_row, Some 1672920000000000000)] []
                (no_author_row, None) [good_row; no_author_row] 200000 H1 H2)
    as Hrun.
  pose proof (Layer3.dropped_row_accounting to_datetime to_period_M month_start
                Layer3.init [] [] (no_author_row, None)
                [good_row; no_subject_row] 200000 H1 H2) as Hblank.
  pose proof (Layer3.dropped_row_accounting to_datetime to_period_M month_start
                Layer3.init [] [] (no_author_row, None)
                [no_author_row] 200000 H1 H2) as Hnone.
  cbv zeta in Hrun, Hblank, Hnone.
  destruct Hrun as ((_ & Hd & _) & Hout & _).
  destruct Hblank as (_ & _ & Hval & _).
  destruct Hnone as (_ & _ & _ & Htype).
  split; [exact H1|]. split; [exact H2|]. split; [exact Hd|].
  split; [|split].
  - intros out Hok. destruct (Hout out Hok) as (_ & Hdr & Htot & _).
    split; [exact Htot|]. rewrite Hdr. reflexivity.
  - apply Hval.
    + repeat constructor; intros z [= <-]; reflexivity.
    + apply Exists_cons_tl, Exists_cons_hd. reflexivity.
  - apply Htype.
    + repeat constructor. eexists. split; reflexivity.
    + reflexivity.
Defined.

(** The same four rows read one at a time and three at a time: the two
    language tables list the languages in opposite orders.  Two rows with
    dates in two formats, read one at a time and both at once: the runs
    differ in the monthly table and in the totals. *)
Lemma outputs_depend_on_chunk_size :
  (exists o1 o3,
     compute_monthly_metrics two_languages 1 = Ok o1 /\
     compute_monthly_metrics two_languages 3 = Ok o3 /\
     Layer3.Language <$> Layer3.lang_df o1 = ["en"; "fr"]%string /\
     Layer3.Language <$> Layer3.lang_df o3 = ["fr"; "en"]%string /\
     Layer3.lang_df o1 <> Layer3.lang_df o3) /\
  (exists o1 o2,
     compute_monthly_metrics two_formats 1 = Ok o1 /\
     compute_monthly_metrics two_formats 2 = Ok o2 /\
     Layer3.totals o1 = Layer3.mkTotals 2 2 1 0 /\
     Layer3.totals o2 = Layer3.mkTotals 2 1 1 1 /\
     Layer3.Notes <$> Layer3.monthly o1 = [2] /\
     Layer3.Notes <$> Layer3.monthly o2 = [1] /\
     Layer3.monthly o1 <> Layer3.monthly o2).
Proof.
  split.
  - eexists _, _. split; [by vm_compute|]. split; [by vm_compute|].
    split; [by vm_compute|]. split; [by vm_compute|].
    vm_compute. discriminate.
  - eexists _, _. split; [by vm_compute|]. split; [by vm_compute|].
    split; [by vm_compute|]. split; [by vm_compute|].
    split; [by vm_compute|]. split; [by vm_compute|].
    vm_compute. discriminate.
Qed.

Lemma chunk_size_independence_witness :
  1 <= 1 /\ 1 <= 3 /\
  Layer3.ids_readable two_languages /\
  Forall (Layer3.cellwise to_datetime (parse_with "-"))
         (chunks (Z.to_nat 1) two_languages) /\
  Forall (Layer3.cellwise to_datetime (parse_with "-"))
         (chunks (Z.to_nat 3) two_languages) /\
  Layer3.dropna ((fun r => (r, parse_with "-" (Layer3.cell r))) <$> two_languages)
    <> [] /\
  exists o1 o3,
    compute_monthly_metrics two_languages 1 = Ok o1 /\
    compute_monthly_metrics two_languages 3 = Ok o3 /\
    Layer3.monthly o1 = Layer3.monthly o3 /\
    Layer3.totals o1 = Layer3.totals o3 /\
    Layer3.lang_df o1 ≡ₚ Layer3.lang_df o3.
Proof.
  assert (H1 : 1 <= 1) by lia.
  assert (H3 : 1 <= 3) by lia.
  assert (Hids : Layer3.ids_readable two_languages).
  { repeat constructor; eexists; split; reflexivity. }
  assert (Hc1 : Forall (Layer3.cellwise to_datetime (parse_with "-"))
                       (chunks (Z.to_nat 1) two_languages)).
  { repeat constructor; by vm_compute. }
  assert (Hc3 : Forall (Layer3.cellwise to_datetime (parse_with "-"))
                       (chunks (Z.to_nat 3) two_languages)).
  { repeat constructor; by vm_compute. }
  assert (Hne : Layer3.dropna ((fun r => (r, parse_with "-" (Layer3.cell r)))
                                 <$> two_languages) <> [])
    by (vm_compute; discriminate).
  destruct (Layer3.chunk_size_independence to_datetime to_period_M month_start
              two_languages 1 3 (parse_with "-") H1 H3 Hids Hc1 Hc3) as [Hret _].
  destruct (Hret Hne) as (o1 & o3 & Ho1 & Ho3 & Hm & Ht & Hl & _).
  split; [exact H1|]. split; [exact H3|]. split; [exact Hids|].
  split; [exact Hc1|]. split; [exact Hc3|]. split; [exact Hne|].
  exists o1, o3. repeat split; assumption.
Defined.

Lemma decode_recovers_creation_ms_witness :
  0 <= 1672876800000 - Snowflake.TWITTER_EPOCH_MS /\
  Z.shiftl (1672876800000 - Snowflake.TWITTER_EPOCH_MS) 22 < 2 ^ 64 /\
  Snowflake.tweet_id_to_timestamp_ms1 tweet_a = 1672876800000.
Proof.
  assert (H1 : 0 <= 1672876800000 - Snowflake.TWITTER_EPOCH_MS)
    by (vm_compute; discriminate).
  assert (H2 : Z.shiftl (1672876800000 - Snowflake.TWITTER_EPOCH_MS) 22 < 2 ^ 64)
    by reflexivity.
  split; [exact H1|]. split; [exact H2|].
  exact (proj1 (proj2 (Snowflake.decode_recovers_creation_ms 1672876800000 H1 H2))).
Defined.

(** The subject of [good_row] has a note at noon; a chunk with a note at
    08:00 lowers the recorded time, and the two orders of the two chunks
    leave the same table. *)
Lemma earliest_event_time_witness :
  let s := Layer3.run to_datetime to_period_M 1 [good_row] in
  let earlier := note "bob" tweet_a "2023-01-05" "08:00:00" "en" in
  Layer3.earliest_note_ms_by_tweet s !! tweet_a = Some 1672920000000 /\
  [[good_row]; [earlier]] ≡ₚ [[earlier]; [good_row]] /\
  (exists now,
     Layer3.earliest_note_ms_by_tweet
       (Layer3.process_chunk to_datetime to_period_M s [earlier]) !! tweet_a
     = Some now /\ (now = 1672920000000 \/ now < 1672920000000)) /\
  Layer3.earliest_note_ms_by_tweet
    (foldl (Layer3.process_chunk to_datetime to_period_M) Layer3.init
           [[good_row]; [earlier]])
  = Layer3.earliest_note_ms_by_tweet
      (foldl (Layer3.process_chunk to_datetime to_period_M) Layer3.init
             [[earlier]; [good_row]]).
Proof.
  intros s earlier.
  assert (H1 : Layer3.earliest_note_ms_by_tweet s !! tweet_a = Some 1672920000000)
    by (by vm_compute).
  assert (H2 : [[good_row]; [earlier]] ≡ₚ [[earlier]; [good_row]])
    by apply perm_swap.
  destruct (Layer3.earliest_event_time_is_running_min to_datetime to_period_M
              month_start s [earlier] tweet_a 1672920000000 _ _ H1 H2)
    as (Hnow & Heq & _).
  split; [exact H1|]. split; [exact H2|]. split; [exact Hnow|exact Heq].
Defined.

Lemma notes_per_author_witness :
  Layer3.finalize to_period_M month_start month_without_authors
    = Ok month_without_authors_output /\
  month_without_authors_row ∈ Layer3.monthly month_without_authors_output /\
  Layer3.Active_Authors month_without_authors_row = 0 /\
  Layer3.Notes_per_Author month_without_authors_row = nan.
Proof.
  assert (H1 : Layer3.finalize to_period_M month_start month_without_authors
               = Ok month_without_authors_output) by (by vm_compute).
  assert (H2 : month_without_authors_row
               ∈ Layer3.monthly month_without_authors_output)
    by apply list_elem_of_here.
  split; [exact H1|]. split; [exact H2|]. split; [reflexivity|].
  exact (proj1 (Layer3.notes_per_author_missing_or_quotient to_period_M
                  month_start _ _ _ H1 H2) eq_refl).
Defined.

Lemma median_time_to_first_note_witness :
  Layer3.finalize to_period_M month_start two_languages_state
    = Ok two_languages_output /\
  january_row ∈ Layer3.monthly two_languages_output /\
  Some <$> Layer3.retained_deltas to_period_M
             (Layer3.earliest_note_ms_by_tweet two_languages_state) "2023-01"
    ≡ₚ (fun p => Layer3.subject_delta p.1 p.2)
         <$> Layer3.qualifying_subjects to_period_M
               (Layer3.earliest_note_ms_by_tweet two_languages_state) "2023-01" /\
  Layer3.Median_TimeToFirstNote_hours january_row
  = median (Layer3.retained_deltas to_period_M
              (Layer3.earliest_note_ms_by_tweet two_languages_state) "2023-01").
Proof.
  assert (H1 : Layer3.finalize to_period_M month_start two_languages_state
               = Ok two_languages_output) by (by vm_compute).
  assert (H2 : january_row ∈ Layer3.monthly two_languages_output)
    by apply list_elem_of_here.
  pose proof (Layer3.median_time_to_first_note to_period_M month_start
                _ _ _ H1 H2) as H.
  cbv zeta in H. destruct H as (Hperm & _ & _ & _ & _ & Hmed & _).
  split; [exact H1|]. split; [exact H2|]. split; [exact Hperm|exact Hmed].
Defined.

(** The deltas of January 2023 in [two_languages]: the one subject first
    noted that month, twelve hours after its creation. *)
Example january_deltas :
  Layer3.qualifying_subjects to_period_M
    (Layer3.earliest_note_ms_by_tweet two_languages_state) "2023-01"
  = [(tweet_a, 1672920000000)] /\
  Layer3.retained_deltas to_period_M
    (Layer3.earliest_note_ms_by_tweet two_languages_state) "2023-01"
  = [(43200000 # 3600000)%Q].
Proof. by vm_compute. Qed.

(** *** The placebo checker on the sample series *)

(** A series of four rows, one with a missing value and one with no date:
    the two sets that [placebo_test] compares hold one value each, and the
    other two rows are in neither.  The row without a date is selected by
    neither mask; the row dated at the cutover is selected by the "after"
    mask and lost to the [dropna]. *)
Lemma rows_with_missing_cells_are_in_neither_set :
  length series_with_gaps = 4%nat /\
  Robustness.before series_with_gaps CHATGPT_BREAK = [obs 2022 10 10] /\
  Robustness.after series_with_gaps CHATGPT_BREAK
  = [Robustness.mkObs (Some (timestamp 2022 11 1)) None; obs 2022 12 20] /\
  Robustness.col_dropna (Robustness.before series_with_gaps CHATGPT_BREAK)
  = [inject_Z 10] /\
  Robustness.col_dropna (Robustness.after series_with_gaps CHATGPT_BREAK)
  = [inject_Z 20] /\
  Robustness.pre_rows series_with_gaps CHATGPT_BREAK = [obs 2022 10 10] /\
  Robustness.post_rows series_with_gaps CHATGPT_BREAK = [obs 2022 12 20] /\
  ~ (Robustness.pre_rows series_with_gaps CHATGPT_BREAK
     ++ Robustness.post_rows series_with_gaps CHATGPT_BREAK ≡ₚ series_with_gaps).
Proof.
  repeat (split; [by vm_compute|]).
  intros Hperm. apply Permutation_length in Hperm. vm_compute in Hperm.
  discriminate.
Qed.

(** Three periods on each side of the real cutover (and so at least two):
    whatever the routines, no date yields a row, so no rank test is run at
    the real cutover and the table has no entry, missing or otherwise. *)
Lemma three_periods_per_side_no_row :
  length (Robustness.col_dropna (Robustness.before three_per_side CHATGPT_BREAK)) = 3%nat /\
  length (Robustness.col_dropna (Robustness.after three_per_side CHATGPT_BREAK)) = 3%nat /\
  (forall mannwhitneyu OLS_fit_HAC,
     Robustness.placebo_test mannwhitneyu OLS_fit_HAC three_per_side
       CHATGPT_BREAK None = []).
Proof. split; [by vm_compute|]. split; [by vm_compute|]. intros. by vm_compute. Qed.

(** Six months at 10 and six at 20 around the real cutover: the real cutover
    is the only date with a row, its effect is +100 percent, and both flags
    are false.  Twelve months on each side: the real cutover is the only
    date with a regression, and the slope flag is false whatever the
    coefficient. *)
Lemma only_real_cutover_tested_not_strongest :
  (forall mannwhitneyu OLS_fit_HAC,
     Robustness.is_chatgpt
       <$> Robustness.placebo_test mannwhitneyu OLS_fit_HAC jump_at_cutover
             CHATGPT_BREAK None = [true]) /\
  (forall mannwhitneyu OLS_fit_HAC,
     exists res,
       Robustness.robustness_of_series mannwhitneyu OLS_fit_HAC jump_at_cutover
         = Ok res /\
       Robustness.chatgpt_median_effect_pct res = Some (8000 # 80)%Q /\
       Robustness.max_placebo_effect_pct res = nan /\
       Robustness.chatgpt_median_strongest res = false /\
       Robustness.chatgpt_its_slope_strongest res = false) /\
  (8000 # 80 == 100)%Q /\
  (forall mannwhitneyu OLS_fit_HAC,
     Robustness.its_slope_change
       <$> omap (Robustness.placebo_row mannwhitneyu OLS_fit_HAC two_years
                   CHATGPT_BREAK) Robustness.default_placebo_breaks
     = [nan; nan; nan]) /\
  (forall mannwhitneyu OLS_fit_HAC,
     exists res,
       Robustness.robustness_of_series mannwhitneyu OLS_fit_HAC two_years
         = Ok res /\
       Robustness.max_placebo_its_slope_change res = nan /\
       Robustness.chatgpt_its_slope_strongest res = false).
Proof.
  split; [intros; by vm_compute|].
  split; [intros; eexists; split; [by vm_compute|by vm_compute]|].
  split; [reflexivity|].
  split; [intros; by vm_compute|].
  intros. eexists. split; [by vm_compute|].
  split; [by vm_compute|].
  cbn [Robustness.chatgpt_its_slope_strongest]. apply andb_false_intro1.
  apply andb_false_intro2. by vm_compute.
Qed.

Lemma placebo_row_thresholds_witness :
  (length (Robustness.col_dropna (Robustness.before three_per_side CHATGPT_BREAK)) < 6)%nat /\
  Robustness.placebo_row no_rank_test no_regression three_per_side
    CHATGPT_BREAK CHATGPT_BREAK = None /\
  (12 <= length (Robustness.col_dropna (Robustness.before two_years CHATGPT_BREAK)))%nat /\
  (12 <= length (Robustness.col_dropna (Robustness.after two_years CHATGPT_BREAK)))%nat /\
  exists row,
    Robustness.placebo_row no_rank_test no_regression two_years
      CHATGPT_BREAK CHATGPT_BREAK = Some row /\
    Robustness.its_n_pre row = Robustness.of_int 12.
Proof.
  assert (H3 : (length (Robustness.col_dropna
                          (Robustness.before three_per_side CHATGPT_BREAK)) < 6)%nat)
    by (vm_compute; lia).
  assert (H12 : (12 <= length (Robustness.col_dropna
                                 (Robustness.before two_years CHATGPT_BREAK)))%nat)
    by (vm_compute; lia).
  assert (H12' : (12 <= length (Robustness.col_dropna
                                  (Robustness.after two_years CHATGPT_BREAK)))%nat)
    by (vm_compute; lia).
  assert (H6 : (6 <= length (Robustness.col_dropna
                               (Robustness.before two_years CHATGPT_BREAK)))%nat)
    by (vm_compute; lia).
  assert (H6' : (6 <= length (Robustness.col_dropna
                                (Robustness.after two_years CHATGPT_BREAK)))%nat)
    by (vm_compute; lia).
  destruct (Robustness.placebo_row_thresholds no_rank_test no_regression
              three_per_side CHATGPT_BREAK CHATGPT_BREAK) as [Hshort _].
  destruct (Hshort (or_introl H3)) as [Hnone _].
  destruct (Robustness.placebo_row_thresholds no_rank_test no_regression
              two_years CHATGPT_BREAK CHATGPT_BREAK) as [_ Hlong].
  destruct (Hlong H6 H6') as (row & Hrow & _ & _ & _ & _ & _ & Hseg).
  destruct (Hseg H12 H12') as (seg & _ & _ & _ & _ & _ & Hn & _).
  split; [exact H3|]. split; [exact Hnone|].
  split; [exact H12|]. split; [exact H12'|].
  exists row. split; [exact Hrow|exact Hn].
Defined.

Lemma strongest_flags_witness :
  (6 <= length (Robustness.col_dropna (Robustness.before jump_at_cutover CHATGPT_BREAK)))%nat /\
  (6 <= length (Robustness.col_dropna (Robustness.after jump_at_cutover CHATGPT_BREAK)))%nat /\
  exists res,
    Robustness.robustness_of_series no_rank_test no_regression jump_at_cutover
      = Ok res.
Proof.
  assert (H1 : (6 <= length (Robustness.col_dropna
                               (Robustness.before jump_at_cutover CHATGPT_BREAK)))%nat)
    by (vm_compute; lia).
  assert (H2 : (6 <= length (Robustness.col_dropna
                               (Robustness.after jump_at_cutover CHATGPT_BREAK)))%nat)
    by (vm_compute; lia).
  destruct (Robustness.strongest_flags no_rank_test no_regression
              jump_at_cutover H1 H2) as (chat_row & res & _ & _ & Hres & _).
  split; [exact H1|]. split; [exact H2|]. by exists res.
Defined.

Lemma zero_effect_witness :
  CHATGPT_BREAK ∈ Robustness.strftime_day CHATGPT_BREAK
                  :: default Robustness.default_placebo_breaks None /\
  (6 <= length (Robustness.col_dropna (Robustness.before zero_before_cutover CHATGPT_BREAK)))%nat /\
  (6 <= length (Robustness.col_dropna (Robustness.after zero_before_cutover CHATGPT_BREAK)))%nat /\
  (forall m,
     median (Robustness.col_dropna (Robustness.before zero_before_cutover CHATGPT_BREAK))
       = Some m -> (m <= 0)%Q) /\
  exists row,
    row ∈ Robustness.placebo_test no_rank_test no_regression zero_before_cutover
            CHATGPT_BREAK None /\
    Robustness.effect_pct row = Some 0%Q.
Proof.
  assert (H0 : CHATGPT_BREAK ∈ Robustness.strftime_day CHATGPT_BREAK
                 :: default Robustness.default_placebo_breaks None)
    by apply list_elem_of_here.
  assert (H1 : (6 <= length (Robustness.col_dropna
                               (Robustness.before zero_before_cutover CHATGPT_BREAK)))%nat)
    by (vm_compute; lia).
  assert (H2 : (6 <= length (Robustness.col_dropna
                               (Robustness.after zero_before_cutover CHATGPT_BREAK)))%nat)
    by (vm_compute; lia).
  assert (H3 : forall m,
             median (Robustness.col_dropna
                       (Robustness.before zero_before_cutover CHATGPT_BREAK))
               = Some m -> (m <= 0)%Q).
  { intros m Hm. vm_compute in Hm. injection Hm as <-. by vm_compute. }
  destruct (Robustness.zero_effect_when_pre_median_not_positive no_rank_test
              no_regression zero_before_cutover CHATGPT_BREAK CHATGPT_BREAK None
              H0 H1 H2 H3) as (row & Hin & _ & _ & _ & He).
  split; [exact H0|]. split; [exact H1|]. split; [exact H2|]. split; [exact H3|].
  by exists row.
Defined.

(** *** Further sample runs *)

(** A subject created on 2022-10-01 00:00:00 UTC. *)
Definition tweet_c : Z := Z.shiftl (1664582400000 - Snowflake.TWITTER_EPOCH_MS) 22.

(** One note before the cutover, three hours after its subject, and one
    note after the cutover. *)
Definition around_cutover : list Layer3.Row :=
  [ note "dave" tweet_c "2022-10-01" "03:00:00" "en"; good_row ].

(** The same, with the first note at the very millisecond of its subject. *)
Definition instant_note : list Layer3.Row :=
  [ note "dave" tweet_c "2022-10-01" "00:00:00" "en"; good_row ].

Definition english_row : Layer3.LangRow :=
  Layer3.mkLangRow "en" 2 (Some (2 # 4)%Q) 1.

Lemma to_period_M_ignores_sub_millisecond (ns : Z) :
  to_period_M (ns `div` 1000000 * 1000000) = to_period_M ns.
Proof.
  assert (E : (ns `div` 1000000 * 1000000) `div` DAY_NS = ns `div` DAY_NS).
  { change DAY_NS with (86400000 * 1000000).
    rewrite Z.div_mul_cancel_r by lia.
    rewrite Z.div_div by lia. by rewrite (Z.mul_comm 1000000). }
  unfold to_period_M. by rewrite E.
Qed.

Lemma monthly_row_counts_witness :
  compute_monthly_metrics two_languages 200000 = Ok two_languages_output /\
  january_row ∈ Layer3.monthly two_languages_output /\
  1 <= Layer3.Active_Authors january_row <= Layer3.Notes january_row.
Proof.
  assert (H1 : compute_monthly_metrics two_languages 200000 = Ok two_languages_output)
    by (by vm_compute).
  assert (H2 : january_row ∈ Layer3.monthly two_languages_output)
    by apply list_elem_of_here.
  pose proof (Layer3.monthly_row_counts to_datetime to_period_M month_start
                two_languages 200000 _ _ H1 H2) as H.
  cbv zeta in H. destruct H as (_ & _ & _ & H & _).
  split; [exact H1|]. split; [exact H2|exact H].
Defined.

Lemma monthly_table_months_witness :
  compute_monthly_metrics two_languages 200000 = Ok two_languages_output /\
  NoDup (Layer3.Month <$> Layer3.monthly two_languages_output).
Proof.
  assert (H1 : compute_monthly_metrics two_languages 200000 = Ok two_languages_output)
    by (by vm_compute).
  split; [exact H1|].
  exact (proj1 (proj2 (Layer3.monthly_table_months to_datetime to_period_M
                         month_start two_languages 200000 _ H1))).
Defined.

Lemma retained_rows_are_conserved_witness :
  compute_monthly_metrics [good_row; no_author_row] 200000
    = Ok (Layer3.mkOutput
            [Layer3.mkMonthlyRow "2023-01" 1 1 (Some (1 # 1)%Q)
               1672531200000000000 (Some (43200000 # 3600000)%Q)]
            (Layer3.mkTotals 2 1 1 1)
            [Layer3.mkLangRow "en" 1 (Some (1 # 2)%Q) 1]) /\
  Layer3.sumZ [1]
  = Z.of_nat (length (Layer3.dropna (read [good_row; no_author_row] 200000))) /\
  2 - 1 = Z.of_nat (length (Layer3.dropna (read [good_row; no_author_row] 200000))).
Proof.
  assert (H1 : compute_monthly_metrics [good_row; no_author_row] 200000
    = Ok (Layer3.mkOutput
            [Layer3.mkMonthlyRow "2023-01" 1 1 (Some (1 # 1)%Q)
               1672531200000000000 (Some (43200000 # 3600000)%Q)]
            (Layer3.mkTotals 2 1 1 1)
            [Layer3.mkLangRow "en" 1 (Some (1 # 2)%Q) 1]))
    by (by vm_compute).
  destruct (Layer3.retained_rows_are_conserved to_datetime to_period_M
              month_start _ 200000 _ H1) as (Ha & _ & Hc).
  split; [exact H1|]. split; [exact Ha|exact Hc].
Defined.


Lemma language_row_counts_witness :
  compute_monthly_metrics two_languages 200000 = Ok two_languages_output /\
  english_row ∈ Layer3.lang_df two_languages_output /\
  Layer3.Notes_Share english_row
  = Some (inject_Z (Layer3.Lang_Notes english_row)
          / inject_Z (Z.of_nat (length two_languages)))%Q.
Proof.
  assert (H1 : compute_monthly_metrics two_languages 200000 = Ok two_languages_output)
    by (by vm_compute).
  assert (H2 : english_row ∈ Layer3.lang_df two_languages_output)
    by apply list_elem_of_here.
  pose proof (Layer3.language_row_counts to_datetime to_period_M month_start
                two_languages 200000 _ _ H1 H2) as H.
  cbv zeta in H. destruct H as (_ & _ & _ & H).
  split; [exact H1|]. split; [exact H2|exact H].
Defined.

Lemma language_table_languages_witness :
  compute_monthly_metrics two_languages 200000 = Ok two_languages_output /\
  NoDup (Layer3.Language <$> Layer3.lang_df two_languages_output).
Proof.
  assert (H1 : compute_monthly_metrics two_languages 200000 = Ok two_languages_output)
    by (by vm_compute).
  split; [exact H1|].
  exact (proj1 (Layer3.language_table_languages to_datetime to_period_M
                  month_start two_languages 200000 _ H1)).
Defined.

Lemma monthly_median_bounds_witness :
  compute_monthly_metrics two_languages 200000 = Ok two_languages_output /\
  january_row ∈ Layer3.monthly two_languages_output /\
  Layer3.Median_TimeToFirstNote_hours january_row = Some (43200000 # 3600000)%Q /\
  (0 <= 43200000 # 3600000)%Q.
Proof.
  assert (H1 : compute_monthly_metrics two_languages 200000 = Ok two_languages_output)
    by (by vm_compute).
  assert (H2 : january_row ∈ Layer3.monthly two_languages_output)
    by apply list_elem_of_here.
  assert (H3 : Layer3.Median_TimeToFirstNote_hours january_row
               = Some (43200000 # 3600000)%Q) by reflexivity.
  split; [exact H1|]. split; [exact H2|]. split; [exact H3|].
  exact (proj1 (Layer3.monthly_median_bounds to_datetime to_period_M month_start
                  two_languages 200000 _ _ _ H1 H2 H3)).
Defined.

Lemma first_note_month_has_row_witness :
  (forall ns, to_period_M (ns `div` 1000000 * 1000000) = to_period_M ns) /\
  compute_monthly_metrics two_languages 200000 = Ok two_languages_output /\
  Layer3.mkNote "alice" tweet_a 1672920000000000000 (Some "en"%string)
    ∈ Layer3.dropna (read two_languages 200000) /\
  exists first row,
    Layer3.is_global_min
      (Layer3.subject_times tweet_a (read two_languages 200000)) (Some first) /\
    row ∈ Layer3.monthly two_languages_output /\
    Layer3.Month row = Layer3.first_month to_period_M first.
Proof.
  assert (H1 : compute_monthly_metrics two_languages 200000 = Ok two_languages_output)
    by (by vm_compute).
  assert (H2 : Layer3.mkNote "alice" tweet_a 1672920000000000000 (Some "en"%string)
               ∈ Layer3.dropna (read two_languages 200000))
    by apply list_elem_of_here.
  destruct (Layer3.first_note_month_has_row to_datetime to_period_M month_start
              two_languages 200000 _ _ to_period_M_ignores_sub_millisecond H1 H2)
    as (first & row & Hmin & Hrow & Hmonth & _).
  split; [exact to_period_M_ignores_sub_millisecond|].
  split; [exact H1|]. split; [exact H2|].
  exists first, row. split; [exact Hmin|]. split; [exact Hrow|exact Hmonth].
Defined.

Lemma decode_ignores_low_bits_witness :
  0 <= 1672876800000 - Snowflake.TWITTER_EPOCH_MS /\
  0 <= 4195 < 2 ^ 22 /\
  Z.shiftl (1672876800000 - Snowflake.TWITTER_EPOCH_MS) 22 + 4195 < 2 ^ 64 /\
  Snowflake.tweet_id_to_timestamp_ms1 (tweet_a + 4195) = 1672876800000.
Proof.
  assert (H1 : 0 <= 1672876800000 - Snowflake.TWITTER_EPOCH_MS)
    by (vm_compute; discriminate).
  assert (H2 : 0 <= 4195 < 2 ^ 22) by (split; [lia|reflexivity]).
  assert (H3 : Z.shiftl (1672876800000 - Snowflake.TWITTER_EPOCH_MS) 22 + 4195 < 2 ^ 64)
    by reflexivity.
  split; [exact H1|]. split; [exact H2|]. split; [exact H3|].
  exact (proj1 (Snowflake.decode_ignores_low_bits _ 4195 H1 H2 H3)).
Defined.

Lemma decode_monotone_witness :
  0 <= tweet_a /\ tweet_a <= tweet_b /\ tweet_b < 2 ^ 64 /\
  Snowflake.tweet_id_to_timestamp_ms1 tweet_a
  <= Snowflake.tweet_id_to_timestamp_ms1 tweet_b.
Proof.
  assert (H1 : 0 <= tweet_a) by (vm_compute; discriminate).
  assert (H2 : tweet_a <= tweet_b) by (vm_compute; discriminate).
  assert (H3 : tweet_b < 2 ^ 64) by reflexivity.
  split; [exact H1|]. split; [exact H2|]. split; [exact H3|].
  exact (proj1 (Snowflake.decode_monotone tweet_a tweet_b H1 H2 H3)).
Defined.

Lemma summarize_without_pre_period_witness :
  Forall (fun r => CHATGPT_BREAK <= Layer3.MonthStart r) [january_row; february_row] /\
  exists s,
    Layer3.summarize_pre_post [january_row; february_row] = Layer3.Returns s /\
    Layer3.pre_months s = 0 /\ Layer3.post_months s = 2 /\
    Layer3.raw_monthly_notes_growth_pct s = nan.
Proof.
  assert (H1 : Forall (fun r => CHATGPT_BREAK <= Layer3.MonthStart r)
                      [january_row; february_row]).
  { repeat constructor; vm_compute; discriminate. }
  destruct (Layer3.summarize_without_pre_period _ H1)
    as (s & Hs & Ha & Hb & _ & _ & _ & _ & Hg & _).
  split; [exact H1|]. exists s.
  split; [exact Hs|]. split; [exact Ha|]. split; [exact Hb|exact Hg].
Defined.

Lemma summarize_months_add_up_witness :
  exists out s,
    compute_monthly_metrics around_cutover 200000 = Ok out /\
    Layer3.summarize_pre_post (Layer3.monthly out) = Layer3.Returns s /\
    Layer3.pre_months s = 1 /\
    Layer3.pre_months s + Layer3.post_months s
    = Z.of_nat (length (Layer3.monthly out)).
Proof.
  destruct (compute_monthly_metrics around_cutover 200000) as [out|e] eqn:E;
    [|vm_compute in E; discriminate].
  destruct (Layer3.summarize_pre_post (Layer3.monthly out)) as [s|] eqn:Hs.
  2:{ exfalso. vm_compute in E. injection E as <-. vm_compute in Hs. discriminate. }
  destruct (Layer3.summarize_months_add_up _ s Hs) as (Hsum & Hpre & _).
  exists out, s. split; [reflexivity|]. split; [exact Hs|]. split; [|exact Hsum].
  rewrite Hpre. vm_compute in E. injection E as <-. reflexivity.
Defined.

(** A first note at the very millisecond its subject was created makes the
    pre-period median zero, and the summary of that run divides by it. *)
Lemma summarize_run_raises_iff_witness :
  exists out,
    compute_monthly_metrics instant_note 200000 = Ok out /\
    Layer3.is_zero (Layer3.median_float
                      (Layer3.Median_TimeToFirstNote_hours
                         <$> Layer3.summarize_pre (Layer3.monthly out))) /\
    Layer3.summarize_pre_post (Layer3.monthly out) = Layer3.ZeroDivisionError.
Proof.
  destruct (compute_monthly_metrics instant_note 200000) as [out|e] eqn:E;
    [|vm_compute in E; discriminate].
  assert (Hz : Layer3.is_zero (Layer3.median_float
                      (Layer3.Median_TimeToFirstNote_hours
                         <$> Layer3.summarize_pre (Layer3.monthly out)))).
  { vm_compute in E. injection E as <-. eexists. split; [by vm_compute|reflexivity]. }
  exists out. split; [reflexivity|]. split; [exact Hz|].
  exact (proj2 (proj1 (Layer3.summarize_run_raises_iff to_datetime to_period_M
                         month_start instant_note 200000 out E)) Hz).
Defined.

Lemma row_order_independence_witness :
  two_languages ≡ₚ reverse two_languages /\ 1 <= 1 /\ 1 <= 3 /\
  Layer3.ids_readable two_languages /\
  Forall (Layer3.cellwise to_datetime (parse_with "-"))
         (chunks (Z.to_nat 1) two_languages) /\
  Forall (Layer3.cellwise to_datetime (parse_with "-"))
         (chunks (Z.to_nat 3) (reverse two_languages)) /\
  Layer3.dropna ((fun r => (r, parse_with "-" (Layer3.cell r))) <$> two_languages)
    <> [] /\
  exists o o',
    compute_monthly_metrics two_languages 1 = Ok o /\
    compute_monthly_metrics (reverse two_languages) 3 = Ok o' /\
    Layer3.monthly o = Layer3.monthly o' /\ Layer3.totals o = Layer3.totals o'.
Proof.
  assert (H0 : two_languages ≡ₚ reverse two_languages)
    by (symmetry; apply reverse_Permutation).
  assert (H1 : 1 <= 1) by lia.
  assert (H3 : 1 <= 3) by lia.
  assert (Hids : Layer3.ids_readable two_languages).
  { repeat constructor; eexists; split; reflexivity. }
  assert (Hc1 : Forall (Layer3.cellwise to_datetime (parse_with "-"))
                       (chunks (Z.to_nat 1) two_languages)).
  { repeat constructor; by vm_compute. }
  assert (Hc3 : Forall (Layer3.cellwise to_datetime (parse_with "-"))
                       (chunks (Z.to_nat 3) (reverse two_languages))).
  { repeat constructor; by vm_compute. }
  assert (Hne : Layer3.dropna ((fun r => (r, parse_with "-" (Layer3.cell r)))
                                 <$> two_languages) <> [])
    by (vm_compute; discriminate).
  destruct (Layer3.row_order_independence to_datetime to_period_M month_start
              two_languages (reverse two_languages) 1 3 (parse_with "-")
              H0 H1 H3 Hids Hc1 Hc3) as [Hret _].
  destruct (Hret Hne) as (o & o' & Ho & Ho' & Hm & Ht & _).
  split; [exact H0|]. split; [exact H1|]. split; [exact H3|].
  split; [exact Hids|]. split; [exact Hc1|]. split; [exact Hc3|].
  split; [exact Hne|].
  exists o, o'. repeat split; assumption.
Defined.

(** The two rows of [two_formats] in their two orders, each read as one
    chunk: the run keeps the row whose format the first cell has. *)
Example row_order_changes_the_inferred_format :
  exists o o',
    compute_monthly_metrics two_formats 2 = Ok o /\
    compute_monthly_metrics (reverse two_formats) 2 = Ok o' /\
    Layer3.Notes_per_Author <$> Layer3.monthly o = [Some (1 # 1)%Q] /\
    Layer3.Median_TimeToFirstNote_hours <$> Layer3.monthly o
    = [Some (43200000 # 3600000)%Q] /\
    Layer3.Median_TimeToFirstNote_hours <$> Layer3.monthly o'
    = [Some (46800000 # 3600000)%Q].
Proof.
  eexists _, _. split; [by vm_compute|]. split; [by vm_compute|].
  split; [by vm_compute|]. split; by vm_compute.
Qed.

(** How the sample files end: a chunk size of zero and a blank subject id
    raise [ValueError], a file with no retained row raises [TypeError]. *)
Example sample_outcomes :
  compute_monthly_metrics two_languages 0 = Raise ValueError /\
  compute_monthly_metrics [good_row; no_subject_row] 200000 = Raise ValueError /\
  compute_monthly_metrics [no_author_row] 200000 = Raise TypeError /\
  compute_monthly_metrics [] 200000 = Raise TypeError.
Proof. repeat split; by vm_compute. Qed.

Lemma language_shares_add_up_witness :
  compute_monthly_metrics [good_row; no_author_row] 200000
    = Ok (Layer3.mkOutput
            [Layer3.mkMonthlyRow "2023-01" 1 1 (Some (1 # 1)%Q)
               1672531200000000000 (Some (43200000 # 3600000)%Q)]
            (Layer3.mkTotals 2 1 1 1)
            [Layer3.mkLangRow "en" 1 (Some (1 # 2)%Q) 1]) /\
  exists shares,
    [Some (1 # 2)%Q] = Some <$> shares /\
    (Layer3.Qsum shares
     == inject_Z (Z.of_nat (length (Layer3.dropna
                                      (read [good_row; no_author_row] 200000))))
        / inject_Z (Z.of_nat (length [good_row; no_author_row])))%Q.
Proof.
  assert (H1 : compute_monthly_metrics [good_row; no_author_row] 200000
    = Ok (Layer3.mkOutput
            [Layer3.mkMonthlyRow "2023-01" 1 1 (Some (1 # 1)%Q)
               1672531200000000000 (Some (43200000 # 3600000)%Q)]
            (Layer3.mkTotals 2 1 1 1)
            [Layer3.mkLangRow "en" 1 (Some (1 # 2)%Q) 1]))
    by (by vm_compute).
  destruct (Layer3.language_shares_add_up to_datetime to_period_M month_start
              _ 200000 _ H1) as (shares & Hs & Hsum & _).
  split; [exact H1|]. exists shares. split; [exact Hs|exact Hsum].
Defined.

(** *** Further sample series *)

Lemma cutover_off_midnight_witness :
  Robustness.strftime_day (CHATGPT_BREAK + 1) <> CHATGPT_BREAK + 1 /\
  (CHATGPT_BREAK + 1 ∉ default Robustness.default_placebo_breaks None) /\
  Robustness.is_chatgpt
    <$> Robustness.placebo_test no_rank_test no_regression jump_at_cutover
          (CHATGPT_BREAK + 1) None = [false].
Proof.
  assert (H1 : Robustness.strftime_day (CHATGPT_BREAK + 1) <> CHATGPT_BREAK + 1)
    by (vm_compute; discriminate).
  assert (H2 : (CHATGPT_BREAK + 1) ∉ default Robustness.default_placebo_breaks None).
  { intros Hin. vm_compute in Hin.
    repeat (apply elem_of_cons in Hin as [Hin|Hin]; [discriminate|]).
    by apply elem_of_nil in Hin. }
  pose proof (Robustness.cutover_off_midnight_is_never_flagged no_rank_test
                no_regression jump_at_cutover (CHATGPT_BREAK + 1) None H1 H2) as Hall.
  split; [exact H1|]. split; [exact H2|].
  destruct (Robustness.placebo_test no_rank_test no_regression jump_at_cutover
              (CHATGPT_BREAK + 1) None) as [|r [|r' rs]] eqn:E;
    [vm_compute in E; discriminate| |vm_compute in E; discriminate].
  apply Forall_cons in Hall as [Hr _]. cbn [fmap list_fmap]. by rewrite Hr.
Defined.

Lemma placebo_row_effect_witness :
  exists row a b e,
    Robustness.placebo_row no_rank_test no_regression jump_at_cutover
      CHATGPT_BREAK CHATGPT_BREAK = Some row /\
    Robustness.pre_median row = Some a /\ Robustness.post_median row = Some b /\
    Robustness.effect_pct row = Some e.
Proof.
  destruct (Robustness.placebo_row no_rank_test no_regression jump_at_cutover
              CHATGPT_BREAK CHATGPT_BREAK) as [row|] eqn:E;
    [|vm_compute in E; discriminate].
  destruct (Robustness.placebo_row_effect no_rank_test no_regression
              jump_at_cutover CHATGPT_BREAK CHATGPT_BREAK row E)
    as (a & b & e & Ha & Hb & He & _).
  exists row, a, b, e. split; [reflexivity|]. split; [exact Ha|]. split; [exact Hb|exact He].
Defined.

Lemma fit_segmented_design_witness :
  exists seg,
    Robustness._fit_segmented no_regression two_years CHATGPT_BREAK 6 = Some seg /\
    6 <= 23 /\
    (12 <= length (Robustness.col_dropna (Robustness.before two_years CHATGPT_BREAK)))%nat /\
    (12 <= length (Robustness.col_dropna (Robustness.after two_years CHATGPT_BREAK)))%nat.
Proof.
  destruct (Robustness._fit_segmented no_regression two_years CHATGPT_BREAK 6)
    as [seg|] eqn:E; [|vm_compute in E; discriminate].
  assert (H : 6 <= 23) by lia.
  pose proof (Robustness.fit_segmented_design no_regression two_years
                CHATGPT_BREAK 6 seg E H) as Hd.
  cbv zeta in Hd. destruct Hd as (Hk & Hm & _).
  exists seg. split; [reflexivity|]. split; [exact H|]. split; [exact Hk|exact Hm].
Defined.

End Sample.
